(** * A shallow embedding of the request-dispatch and authentication pipeline

    The development follows the JavaScript sources module by module:
    [Js] (the fragment of the language the code relies on), [Regex]
    (the regular expressions the code writes down), [InputSanitizer],
    [Request], [Router], [Eff] (state and exceptions), [Exceptions],
    [Response], [Database], the models, [AuthController],
    [ReportController] and [Server].  Definitions come first; the
    properties are stated and proved in the second half.

    Strings are sequences of code units; a code unit is an [ascii], i.e.
    the Latin-1 range of UTF-16.  Numbers are the integral ones ([Z]) and
    [NaN]. *)

From Stdlib Require Import Ascii ZArith Bool Lia.
From stdpp Require Import base tactics option list strings gmap pretty.

Set Default Proof Using "Type".
Open Scope Z_scope.

(* ================================================================== *)
(** * The JavaScript fragment                                          *)
(* ================================================================== *)

Module Js.

(** ** Code units *)

Definition code (c : ascii) : N := N_of_ascii c.

Definition in_range (lo hi : N) (c : ascii) : bool :=
  ((lo <=? code c) && (code c <=? hi))%N.

Definition is_digit (c : ascii) : bool := in_range 48 57 c.
Definition is_upper (c : ascii) : bool := in_range 65 90 c.
Definition is_lower (c : ascii) : bool := in_range 97 122 c.

(** [\w] without the [u] flag: [[A-Za-z0-9_]]. *)
Definition is_word (c : ascii) : bool :=
  is_upper c || is_lower c || is_digit c || (code c =? 95)%N.

(** WhiteSpace and LineTerminator code units below 256: TAB, LF, VT, FF,
    CR, SP and NBSP.  This is the set of [\s] and of [String.prototype.trim]. *)
Definition is_space (c : ascii) : bool :=
  in_range 9 13 c || (code c =? 32)%N || (code c =? 160)%N.

Definition char_eqb (a b : ascii) : bool := Ascii.eqb a b.

(** [toLowerCase] on one code unit: A-Z, and the Latin-1 capitals
    U+00C0..U+00DE except the multiplication sign U+00D7. *)
Definition lower_char (c : ascii) : ascii :=
  if is_upper c || (in_range 192 222 c && negb (code c =? 215)%N)
  then ascii_of_N (code c + 32) else c.

(** Canonicalize of an [i]-flagged regular expression, restricted to what
    can meet an ASCII letter of a pattern: a-z fold onto A-Z; no code unit
    of 128 or more folds onto an ASCII one. *)
Definition fold_char (c : ascii) : ascii :=
  if is_lower c then ascii_of_N (code c - 32) else c.

(** ** Strings *)

Fixpoint toLowerCase (s : string) : string :=
  match s with
  | EmptyString => EmptyString
  | String c r => String (lower_char c) (toLowerCase r)
  end.

Fixpoint trimStart (s : string) : string :=
  match s with
  | EmptyString => EmptyString
  | String c r => if is_space c then trimStart r else s
  end.

Fixpoint trimEnd (s : string) : string :=
  match s with
  | EmptyString => EmptyString
  | String c r =>
      match trimEnd r with
      | EmptyString => if is_space c then EmptyString else String c EmptyString
      | r' => String c r'
      end
  end.

Definition trim (s : string) : string := trimEnd (trimStart s).

(** [s.replace(/c/g, by)] for a one-code-unit pattern. *)
Fixpoint replace_char (c : ascii) (by_ : string) (s : string) : string :=
  match s with
  | EmptyString => EmptyString
  | String d r =>
      if char_eqb d c then by_ +:+ replace_char c by_ r
      else String d (replace_char c by_ r)
  end.

(** [s.substring(0, n)]. *)
Fixpoint prefix (n : nat) (s : string) : string :=
  match n, s with
  | S m, String c r => String c (prefix m r)
  | _, _ => EmptyString
  end.

Fixpoint contains_char (c : ascii) (s : string) : bool :=
  match s with
  | EmptyString => false
  | String d r => char_eqb d c || contains_char c r
  end.

Fixpoint join (sep : string) (l : list string) : string :=
  match l with
  | [] => EmptyString
  | [x] => x
  | x :: r => x +:+ sep +:+ join sep r
  end.

(** ** Values

    [undefined], [null], booleans, numbers (the integral ones and [NaN]),
    strings, arrays and plain objects.  An object is the list of its own
    enumerable properties in enumeration order; inherited properties are
    not represented. *)
#[warnings="-register-all"]
Inductive JsValue : Type :=
| JUndefined
| JNull
| JBool (b : bool)
| JNum (n : Z)
| JNaN
| JStr (s : string)
| JArr (items : list JsValue)
| JObj (props : list (string * JsValue)).

Definition is_nullish (v : JsValue) : bool :=
  match v with JUndefined | JNull => true | _ => false end.

(** ToBoolean. *)
Definition truthy (v : JsValue) : bool :=
  match v with
  | JUndefined | JNull | JNaN => false
  | JBool b => b
  | JNum n => negb (n =? 0)
  | JStr s => negb (String.eqb s EmptyString)
  | JArr _ | JObj _ => true
  end.

(** ToString, as [String(v)] and template literals compute it.  A number
    is written in decimal digits, as numbers below 10^21 in magnitude
    are. *)
Fixpoint toString (v : JsValue) : string :=
  match v with
  | JUndefined => "undefined"
  | JNull => "null"
  | JBool true => "true"
  | JBool false => "false"
  | JNum n => pretty n
  | JNaN => "NaN"
  | JStr s => s
  | JArr items =>
      join "," (map (fun x => if is_nullish x then EmptyString else toString x) items)
  | JObj _ => "[object Object]"
  end.

(** Own-property lookup in a property list. *)
Fixpoint assoc {A} (k : string) (l : list (string * A)) : option A :=
  match l with
  | [] => None
  | (k', v) :: r => if String.eqb k' k then Some v else assoc k r
  end.

(** ** The [+] operator

    An operand is a value or a built-in function object such as
    [Date.now] (the function itself, not a call of it). *)
Inductive Operand : Type :=
| Value (v : JsValue)
| NativeFunction (name : string).

(** ToPrimitive: arrays and objects through their [toString], a built-in
    function through [Function.prototype.toString]. *)
Definition toPrimitive (o : Operand) : JsValue :=
  match o with
  | Value (JArr _ as v) | Value (JObj _ as v) => JStr (toString v)
  | Value v => v
  | NativeFunction name => JStr ("function " +:+ name +:+ "() { [native code] }")
  end.

(** ToNumber of a primitive that is not a string; [None] is [NaN]. *)
Definition toNumber (v : JsValue) : option Z :=
  match v with
  | JNum n => Some n
  | JNull | JBool false => Some 0
  | JBool true => Some 1
  | _ => None
  end.

Definition is_string (v : JsValue) : bool :=
  match v with JStr _ => true | _ => false end.

(** [a + b]: concatenation as soon as one primitive is a string. *)
Definition add (a b : Operand) : JsValue :=
  let l := toPrimitive a in
  let r := toPrimitive b in
  if is_string l || is_string r then JStr (toString l +:+ toString r)
  else match toNumber l, toNumber r with
       | Some x, Some y => JNum (x + y)
       | _, _ => JNaN
       end.

(** ** Dates: a time value in milliseconds, or Invalid Date. *)
Inductive JsDate : Type :=
| DateAt (ms : Z)
| InvalidDate.

(** [new Date(value)] for one primitive argument.  [parse] is
    [Date.parse], the host's reading of a date text. *)
Definition Date_new (parse : string -> JsDate) (value : JsValue) : JsDate :=
  match value with
  | JStr s => parse s
  | v => match toNumber v with
         | Some t => DateAt t
         | None => InvalidDate
         end
  end.

(** ** [JSON.stringify] *)

Definition dquote : ascii := "034"%char.

Definition hex_digit (n : N) : ascii :=
  if (n <? 10)%N then ascii_of_N (48 + n) else ascii_of_N (87 + n).

(** One code unit inside a JSON string. *)
Definition json_char (c : ascii) : string :=
  if char_eqb c dquote then String "\" (String dquote EmptyString)
  else if char_eqb c "\" then "\\"
  else if char_eqb c "008" then "\b"
  else if char_eqb c "012" then "\f"
  else if char_eqb c "010" then "\n"
  else if char_eqb c "013" then "\r"
  else if char_eqb c "009" then "\t"
  else if (code c <? 32)%N
       then "\u00" +:+ String (hex_digit (code c / 16))
                         (String (hex_digit (code c mod 16)) EmptyString)
  else String c EmptyString.

Fixpoint json_chars (s : string) : string :=
  match s with
  | EmptyString => EmptyString
  | String c r => json_char c +:+ json_chars r
  end.

Definition json_quote (s : string) : string :=
  String dquote (json_chars s +:+ String dquote EmptyString).

(** [None] is [undefined]: the value has no JSON text.  Such a value is
    [null] inside an array and its property is left out of an object. *)
Fixpoint stringify (v : JsValue) : option string :=
  match v with
  | JUndefined => None
  | JNull | JNaN => Some "null"
  | JBool true => Some "true"
  | JBool false => Some "false"
  | JNum n => Some (pretty n)
  | JStr s => Some (json_quote s)
  | JArr items =>
      Some ("[" +:+ join "," (map (fun x => default "null" (stringify x)) items)
                +:+ "]")
  | JObj props =>
      Some ("{" +:+ join ","
                      (omap (fun kv =>
                               match stringify (snd kv) with
                               | Some text => Some (json_quote (fst kv) +:+ ":" +:+ text)
                               | None => None
                               end) props)
                +:+ "}")
  end.

(** ** Completion records: a call returns or throws

    Thrown values are error objects.  The classes of [exceptions/] are
    told apart from the built-in ones ([Error], [TypeError], ...), since
    the dispatcher tests [instanceof ApiException]. *)
Inductive ApiClass : Type :=
| ApiException
| AuthenticationException
| MethodNotAllowedException
| MethodNotFoundException
| MissingParametersException
| NotFoundException
| ValidationException.

Inductive JsError : Type :=
| NativeError (name : string) (message : string)
| ApiError (cls : ApiClass) (message : string)
           (vars : option (list (string * JsValue))) (code : Z).

Inductive result (A : Type) : Type :=
| Ok (a : A)
| Throw (e : JsError).
Arguments Ok {A} a.
Arguments Throw {A} e.

#[global] Instance result_ret : MRet result := fun A a => Ok a.
#[global] Instance result_bind : MBind result := fun A B f m =>
  match m with
  | Ok a => f a
  | Throw e => Throw e
  end.

End Js.

Import Js.

(* ================================================================== *)
(** * Regular expressions, as [RegExp.prototype.test] decides them      *)
(* ================================================================== *)

Module Regex.

(** The constructs the sanitizer's patterns are written with.  [test]
    only asks whether some match exists, so the order in which a
    backtracking engine tries the alternatives is immaterial and
    quantifiers need no greedy/lazy distinction. *)
Inductive regex : Type :=
| Eps
| Class (p : ascii -> bool)
| Cat (r1 r2 : regex)
| Alt (r1 r2 : regex)
| Star (r : regex)
| WordBoundary.

Definition Plus (r : regex) : regex := Cat r (Star r).

Definition Chr (c : ascii) : regex := Class (fun d => char_eqb d c).
Definition ChrI (c : ascii) : regex :=
  Class (fun d => char_eqb (fold_char d) (fold_char c)).

(** A literal, and a literal under the [i] flag. *)
Fixpoint Lit (s : string) : regex :=
  match s with
  | EmptyString => Eps
  | String c EmptyString => Chr c
  | String c r => Cat (Chr c) (Lit r)
  end.

Fixpoint LitI (s : string) : regex :=
  match s with
  | EmptyString => Eps
  | String c EmptyString => ChrI c
  | String c r => Cat (ChrI c) (LitI r)
  end.

Fixpoint AnyOf (l : list regex) : regex :=
  match l with
  | [] => Class (fun _ => false)
  | [r] => r
  | r :: l' => Alt r (AnyOf l')
  end.

Definition word_before (prev : option ascii) : bool :=
  match prev with Some c => is_word c | None => false end.

Definition word_after (s : string) : bool :=
  match s with String c _ => is_word c | EmptyString => false end.

(** A continuation: what must hold of the rest of the text, given the code
    unit just before it. *)
Definition Continuation : Type := option ascii -> string -> bool.

(** The iterations of a starred expression whose body is matched by
    [step].  An iteration must consume input (an empty one adds nothing),
    so the length of the text bounds their number: [fuel] starts there. *)
Fixpoint iterate (step : Continuation -> Continuation) (k : Continuation)
         (fuel : nat) (prev : option ascii) (s : string) : bool :=
  match fuel with
  | O => k prev s
  | S fuel' =>
      step (fun prev' s' =>
              (String.length s' <? String.length s)%nat
              && iterate step k fuel' prev' s')
           prev s
      || k prev s
  end.

(** [matches r k prev s]: some prefix of [s] is matched by [r] and the
    continuation [k] accepts what follows.  [prev] is the code unit just
    before the current position ([\b] looks at it). *)
Fixpoint matches (r : regex) (k : Continuation) (prev : option ascii) (s : string)
         {struct r} : bool :=
  match r with
  | Eps => k prev s
  | Class p =>
      match s with
      | String c s' => p c && k (Some c) s'
      | EmptyString => false
      end
  | Cat r1 r2 => matches r1 (matches r2 k) prev s
  | Alt r1 r2 => matches r1 k prev s || matches r2 k prev s
  | Star r1 => iterate (matches r1) k (String.length s) prev s
  | WordBoundary => xorb (word_before prev) (word_after s) && k prev s
  end.

(** An unanchored pattern may match at any position. *)
Fixpoint search (r : regex) (prev : option ascii) (s : string) : bool :=
  matches r (fun _ _ => true) prev s
  || match s with
     | String c s' => search r (Some c) s'
     | EmptyString => false
     end.

Definition test (r : regex) (s : string) : bool := search r None s.

End Regex.

(* ================================================================== *)
(** * lib/InputSanitizer.js                                            *)
(* ================================================================== *)

Module InputSanitizer.
Import Regex.

(** The options object, as the sanitizers embedded here read it: [trim]
    is compared with [false] ([opt_trim] is [false] only for an explicit
    [trim: false]), [allowHtml] and [maxLength] are read by truthiness (a
    missing bound is [None]), [default] is [undefined] when missing. *)
Record Options : Type := {
  opt_trim : bool;
  opt_allowHtml : bool;
  opt_maxLength : option nat;
  opt_default : JsValue
}.

(** [{}] *)
Definition no_options : Options :=
  {| opt_trim := true; opt_allowHtml := false; opt_maxLength := None;
     opt_default := JUndefined |}.

(** [value.replace(/<[^>]*>/g, '')].  A match starts at a [<] that has a
    [>] somewhere after it and ends at the first such [>]; the scan then
    resumes after the match.  [in_tag] tells whether the scan is inside a
    match. *)
Fixpoint strip_from (in_tag : bool) (s : string) : string :=
  match s with
  | EmptyString => EmptyString
  | String c r =>
      if in_tag then
        if char_eqb c ">" then strip_from false r else strip_from true r
      else if char_eqb c "<" && contains_char ">" r then strip_from true r
      else String c (strip_from false r)
  end.

Definition _stripHtmlTags (value : string) : string := strip_from false value.

(** [s.replace(/\0/g, '')] *)
Definition remove_nulls (s : string) : string :=
  replace_char "000" EmptyString s.

(** [if (options.maxLength && sanitized.length > options.maxLength)
    sanitized = sanitized.substring(0, options.maxLength)] *)
Definition truncate (maxLength : option nat) (s : string) : string :=
  match maxLength with
  | Some m =>
      if (0 <? m)%nat && (m <? String.length s)%nat then prefix m s else s
  | None => s
  end.

Definition sanitizeString (value : JsValue) (options : Options) : string :=
  if is_nullish value then EmptyString
  else
    let sanitized := toString value in
    let sanitized := if opt_trim options then trim sanitized else sanitized in
    let sanitized :=
      if opt_allowHtml options then sanitized else _stripHtmlTags sanitized in
    let sanitized := remove_nulls sanitized in
    truncate (opt_maxLength options) sanitized.

Definition sanitizeBoolean (value : JsValue) (options : Options) : JsValue :=
  match value with
  | JNull | JUndefined =>
      if truthy (opt_default options) then opt_default options else JNull
  | JBool _ => JBool true
  | JStr s =>
      let v := toLowerCase s in
      JBool (String.eqb v "true" || String.eqb v "1" || String.eqb v "yes")
  | _ => JBool (truthy value)
  end.

(** ** The injection heuristic *)

Definition space : regex := Class is_space.
Definition word : regex := Class is_word.

Definition keywords (l : list string) : regex := AnyOf (map LitI l).

(** [/(\b(SELECT|INSERT|UPDATE|DELETE|DROP|CREATE|ALTER|EXEC|EXECUTE)\b)/i] *)
Definition pattern_keyword : regex :=
  Cat WordBoundary
    (Cat (keywords ["SELECT"; "INSERT"; "UPDATE"; "DELETE"; "DROP";
                    "CREATE"; "ALTER"; "EXEC"; "EXECUTE"])
         WordBoundary).

(** [/(UNION\s+SELECT)/i] *)
Definition pattern_union : regex :=
  Cat (LitI "UNION") (Cat (Plus space) (LitI "SELECT")).

(** [/(-{2}|\/\*|\*\/)/] *)
Definition pattern_comment : regex :=
  AnyOf [Lit "--"; Lit "/*"; Lit "*/"].

(** [/(\bOR\b|\bAND\b)\s+[\d\w]+\s*=\s*[\d\w]+/i] *)
Definition pattern_tautology : regex :=
  Cat (Alt (Cat WordBoundary (Cat (LitI "OR") WordBoundary))
           (Cat WordBoundary (Cat (LitI "AND") WordBoundary)))
    (Cat (Plus space)
       (Cat (Plus word)
          (Cat (Star space)
             (Cat (Chr "=") (Cat (Star space) (Plus word)))))).

(** [/(;\s*(SELECT|INSERT|UPDATE|DELETE|DROP))/i] *)
Definition pattern_stacked : regex :=
  Cat (Chr ";")
    (Cat (Star space)
       (keywords ["SELECT"; "INSERT"; "UPDATE"; "DELETE"; "DROP"])).

(** [/(\bxp_|\bsp_)/i] *)
Definition pattern_procedure : regex :=
  Alt (Cat WordBoundary (LitI "xp_")) (Cat WordBoundary (LitI "sp_")).

(** [/(INFORMATION_SCHEMA|SYSOBJECTS|SYSCOLUMNS)/i] *)
Definition pattern_catalog : regex :=
  keywords ["INFORMATION_SCHEMA"; "SYSOBJECTS"; "SYSCOLUMNS"].

Definition sqlInjectionPatterns : list regex :=
  [pattern_keyword; pattern_union; pattern_comment; pattern_tautology;
   pattern_stacked; pattern_procedure; pattern_catalog].

Definition detectSqlInjection (value : JsValue) : bool :=
  match value with
  | JStr s =>
      if String.eqb s EmptyString then false
      else existsb (fun pattern => test pattern s) sqlInjectionPatterns
  | _ => false
  end.

(** [sanitize(value, type, options)]: the dispatch on the lower-cased
    type name.  The sanitizers for numbers, e-mail addresses, URLs,
    passwords, objects and arrays are not embedded; [others] stands for
    them. *)
Section Dispatch.
Variable others : string -> JsValue -> Options -> JsValue.

Definition sanitize (value : JsValue) (type : string) (options : Options)
  : JsValue :=
  let t := toLowerCase type in
  if String.eqb t "string" then JStr (sanitizeString value options)
  else if String.eqb t "bool" || String.eqb t "boolean"
  then sanitizeBoolean value options
  else if existsb (String.eqb t)
            ["int"; "integer"; "number"; "float"; "email"; "url";
             "object"; "array"; "password"]
  then others t value options
  else value.
End Dispatch.

End InputSanitizer.


(* ================================================================== *)
(** * lib/Request.js                                                   *)
(* ================================================================== *)

Module Request.

(** What [parseBody] leaves in [this.body]: the initial [{}], the value
    of [JSON.parse], or the raw text ([BodyValue]); or the result of
    [querystring.parse], an object without prototype, on which a method
    call such as [hasOwnProperty] is a [TypeError] ([BodyForm]). *)
Inductive Body : Type :=
| BodyValue (v : JsValue)
| BodyForm (fields : list (string * JsValue)).

Record Request : Type := {
  method : string;
  query : gmap string JsValue;
  params : gmap string JsValue;
  body : Body
}.

Definition setParams (req : Request) (p : gmap string JsValue) : Request :=
  {| method := method req; query := query req; params := p;
     body := body req |}.

(** ** Property access *)

Fixpoint digits_value (acc : nat) (s : string) : option nat :=
  match s with
  | EmptyString => Some acc
  | String c r =>
      if is_digit c
      then digits_value (10 * acc + (N.to_nat (code c) - 48))%nat r
      else None
  end.

(** A canonical array index: decimal digits without a leading zero. *)
Definition array_index (key : string) : option nat :=
  match key with
  | EmptyString => None
  | String "0" EmptyString => Some 0%nat
  | String "0" _ => None
  | _ => digits_value 0 key
  end.

Definition string_at (s : string) (i : nat) : JsValue :=
  match String.get i s with
  | Some c => JStr (String c EmptyString)
  | None => JUndefined
  end.

(** [object[key]] for [this.query] and [this.params], objects given by
    their own properties: the value of the own property when there is one.
    A key that is no own property is looked up in [Object.prototype],
    which is not represented: for the names of its properties (see
    [inherited_names] below) the source reads an inherited member where
    this gives [undefined]. *)
Definition read (m : gmap string JsValue) (key : string) : JsValue :=
  default JUndefined (m !! key).

(** [value[key]]: own properties only, with the same proviso for the
    names of inherited members (those of [Object.prototype] for an object,
    of the prototype of its type for an array, a string, a number or a
    boolean); reading a property of [null] or [undefined] throws. *)
Definition get (value : JsValue) (key : string) : result JsValue :=
  match value with
  | JUndefined | JNull =>
      Throw (NativeError "TypeError" "Cannot read properties of null or undefined")
  | JObj props => Ok (default JUndefined (assoc key props))
  | JArr items =>
      if String.eqb key "length" then Ok (JNum (Z.of_nat (length items)))
      else Ok (default JUndefined (i ← array_index key; items !! i))
  | JStr s =>
      if String.eqb key "length" then Ok (JNum (Z.of_nat (String.length s)))
      else Ok (match array_index key with
               | Some i => string_at s i
               | None => JUndefined
               end)
  | JBool _ | JNum _ | JNaN => Ok JUndefined
  end.

Definition body_get (b : Body) (key : string) : result JsValue :=
  match b with
  | BodyValue v => get v key
  | BodyForm fields => Ok (default JUndefined (assoc key fields))
  end.

(** The properties every object has from [Object.prototype]. *)
Definition inherited_names : list string :=
  ["constructor"; "hasOwnProperty"; "isPrototypeOf"; "propertyIsEnumerable";
   "toLocaleString"; "toString"; "valueOf"; "__defineGetter__";
   "__defineSetter__"; "__lookupGetter__"; "__lookupSetter__"; "__proto__"].

(** Calling a member that is no function: no value of a query string, of
    the route parameters or of a parsed body is one. *)
Definition not_a_function (object : string) : JsError :=
  NativeError "TypeError" (object +:+ ".hasOwnProperty is not a function").

(** [object.hasOwnProperty(key)] for [this.query] and [this.params]: an
    own property named [hasOwnProperty] shadows the inherited method, and
    the call of it throws. *)
Definition object_hasOwnProperty (object : string) (m : gmap string JsValue)
           (key : string) : result bool :=
  if bool_decide (is_Some (m !! "hasOwnProperty")) then Throw (not_a_function object)
  else Ok (bool_decide (is_Some (m !! key))).

(** [value.hasOwnProperty(key)] for the body; an array, a string, a number
    or a boolean has no own property of that name. *)
Definition hasOwnProperty (value : JsValue) (key : string) : result bool :=
  match value with
  | JUndefined | JNull =>
      Throw (NativeError "TypeError" "Cannot read properties of null or undefined")
  | JObj props =>
      if bool_decide (is_Some (assoc "hasOwnProperty" props))
      then Throw (not_a_function "this.body")
      else Ok (bool_decide (is_Some (assoc key props)))
  | JArr items =>
      Ok (String.eqb key "length"
          || match array_index key with
             | Some i => (i <? length items)%nat
             | None => false
             end)
  | JStr s =>
      Ok (String.eqb key "length"
          || match array_index key with
             | Some i => (i <? String.length s)%nat
             | None => false
             end)
  | JBool _ | JNum _ | JNaN => Ok false
  end.

(** The object [querystring.parse] returns has no prototype, hence no
    [hasOwnProperty] method; a field of that name is a string or an array
    of strings. *)
Definition body_hasOwnProperty (b : Body) (key : string) : result bool :=
  match b with
  | BodyValue v => hasOwnProperty v key
  | BodyForm _ => Throw (not_a_function "this.body")
  end.

(** ** [sanitize] *)

Definition escape (s : string) : string :=
  trim
    (replace_char "000" "\0"
       (replace_char "\" "\\"
          (replace_char "'" "''" s))).

(** [sanitized[key] = this.sanitize(value[key])] defines an own property
    for every key but [__proto__], for which the assignment goes to the
    prototype of [sanitized]: on a value without a member of that name
    (see [proto_free] below) this is what the source computes. *)
Fixpoint sanitize (value : JsValue) : JsValue :=
  match value with
  | JNull | JUndefined => value
  | JArr items => JArr (map sanitize items)
  | JObj props => JObj (map (fun kv => (fst kv, sanitize (snd kv))) props)
  | JStr s => JStr (escape s)
  | _ => value
  end.

(** ** [input] and the typed lookup *)

Definition source_get (req : Request) (source key : string) : result JsValue :=
  if String.eqb source "query" then Ok (read (query req) key)
  else if String.eqb source "params" then Ok (read (params req) key)
  else body_get (body req) key.

Definition input (req : Request) (key : string) (defaultValue : JsValue)
           (source : string) : result JsValue :=
  value ← source_get req source key;
  if is_nullish value then Ok defaultValue else Ok (sanitize value).

Definition getQuery (req : Request) (key : string) (defaultValue : JsValue)
  : result JsValue := input req key defaultValue "query".

Definition getBody (req : Request) (key : string) (defaultValue : JsValue)
  : result JsValue := input req key defaultValue "body".

Definition getParam (req : Request) (key : string) (defaultValue : JsValue)
  : result JsValue := input req key defaultValue "params".

(** No member named [__proto__], at any depth. *)
Fixpoint proto_free (value : JsValue) : bool :=
  match value with
  | JArr items => forallb proto_free items
  | JObj props =>
      forallb (fun kv => negb (String.eqb (fst kv) "__proto__") && proto_free (snd kv))
        props
  | _ => true
  end.

(** The three tests are calls of [hasOwnProperty] on the three objects, in
    this order; each may throw. *)
Definition getValue (req : Request) (key : string) (defaultValue : JsValue)
  : result JsValue :=
  match object_hasOwnProperty "this.query" (query req) key with
  | Throw e => Throw e
  | Ok true => getQuery req key defaultValue
  | Ok false =>
      match object_hasOwnProperty "this.params" (params req) key with
      | Throw e => Throw e
      | Ok true => getParam req key defaultValue
      | Ok false =>
          match body_hasOwnProperty (body req) key with
          | Ok true => getBody req key defaultValue
          | Ok false => Ok JUndefined
          | Throw e => Throw e
          end
      end
  end.

Section Typed.
Variable others : string -> JsValue -> InputSanitizer.Options -> JsValue.

Definition getSanitizedInput (req : Request) (key : string)
           (defaultValue : JsValue) (type : string)
           (options : InputSanitizer.Options)
  : result JsValue :=
  value ← getValue req key defaultValue;
  Ok (InputSanitizer.sanitize others value type options).
End Typed.

(** ** [parseBody] *)

(** What becomes of the promise of [parseBody]: it is resolved, it is
    rejected, or it is never settled because an error leaves the listener
    that was to settle it. *)
Inductive Settled : Type :=
| Resolved (this : Request)
| Rejected (error : JsError)
| Unsettled (escaped : JsError).

(** What the request stream delivers: the whole body, then [end]; or an
    [error] event. *)
Inductive Stream : Type :=
| Complete (body : string)
| Broken (error : JsError).

Fixpoint starts_with (needle s : string) : bool :=
  match needle, s with
  | EmptyString, _ => true
  | String a needle', String b s' => char_eqb a b && starts_with needle' s'
  | String _ _, EmptyString => false
  end.

(** [s.includes(needle)] *)
Fixpoint includes (needle s : string) : bool :=
  starts_with needle s
  || match s with
     | String _ r => includes needle r
     | EmptyString => false
     end.

Definition maxBodySize : N := 1024 * 1024.

Definition setBody (this : Request) (b : Body) : Request :=
  {| method := method this; query := query this; params := params this; body := b |}.

Section WithHost.
(** [JSON.parse], which throws a [SyntaxError] on a malformed text, and
    [querystring.parse]. *)
Variable JSON_parse : string -> result JsValue.
Variable querystring_parse : string -> list (string * JsValue).

(** [contentType] is [this.headers['content-type']].  In the [end]
    listener the [catch] clause binds [e] and calls [reject(error)]:
    [error] is not declared, so the evaluation of the argument throws a
    [ReferenceError] inside the listener and [reject] is never called. *)
Definition parseBody (this : Request) (contentType : option string) (stream : Stream)
  : Settled :=
  if String.eqb (method this) "GET" || String.eqb (method this) "DELETE"
  then Resolved this
  else
    match stream with
    | Broken error => Rejected error
    | Complete text =>
        if (maxBodySize <? N.of_nat (String.length text))%N
        then Rejected (NativeError "Error" "Request body too large")
        else
          let contentType := default EmptyString contentType in
          if includes "application/json" contentType then
            if String.eqb text EmptyString
            then Resolved (setBody this (BodyValue (JObj [])))
            else match JSON_parse text with
                 | Ok value => Resolved (setBody this (BodyValue value))
                 | Throw _ =>
                     Unsettled (NativeError "ReferenceError" "error is not defined")
                 end
          else if includes "application/x-www-form-urlencoded" contentType
          then Resolved (setBody this (BodyForm (querystring_parse text)))
          else Resolved (setBody this (BodyValue (JStr text)))
    end.

End WithHost.

End Request.


(* ================================================================== *)
(** * lib/Router.js                                                    *)
(* ================================================================== *)

Module Router.

(** The regular expression [_pathToRegex] builds is a sequence of literal
    code units and groups [([^\/]+)] between [^] and [$].  The literal
    code units of a route are taken to match themselves, as those of every
    route of the server do (letters, digits, [/], [_]).  The source does
    not escape them: a route with a code unit that is special in a regular
    expression is outside this embedding, and the properties below are
    stated for the routes without one ([plain_route]). *)
Inductive token : Type :=
| Literal (c : ascii)
| Segment.

Definition word_next (s : string) : bool :=
  match s with String c _ => is_word c | EmptyString => false end.

(** [path.replace(/\//g, '\\/').replace(/:(\w+)/g, '([^\\/]+)')], read
    left to right; [in_name] tells whether the scan is inside the word of
    a [:(\w+)] match. *)
Fixpoint compile_from (in_name : bool) (path : string) : list token :=
  match path with
  | EmptyString => []
  | String c r =>
      if in_name && is_word c then compile_from true r
      else if char_eqb c ":" && word_next r then Segment :: compile_from true r
      else Literal c :: compile_from false r
  end.

Definition _pathToRegex (path : string) : list token := compile_from false path.

(** The longest prefix of word code units: what [(\w+)] captures. *)
Fixpoint take_word (s : string) : string :=
  match s with
  | String c r => if is_word c then String c (take_word r) else EmptyString
  | EmptyString => EmptyString
  end.

(** [path.matchAll(/:(\w+)/g)], keeping [match[1]].  A name holds no
    colon, so no match starts inside the name of the previous one. *)
Fixpoint _extractParamKeys (path : string) : list string :=
  match path with
  | EmptyString => []
  | String c r =>
      if char_eqb c ":" && word_next r
      then take_word r :: _extractParamKeys r
      else _extractParamKeys r
  end.

Record Route : Type := {
  path : string;
  pattern : list token;
  keys : list string;
  controller : string;
  action : string
}.

(** [this.routes]: an object from method names to arrays of routes. *)
Record Router : Type := { routes : gmap string (list Route) }.

Definition constructor : Router :=
  {| routes := <["GET" := []]> (<["POST" := []]> (<["PUT" := []]>
                 (<["DELETE" := []]> (<["PATCH" := []]> ∅)))) |}.

(** [this.routes[method].push(...)]; a method without an array throws. *)
Definition _addRoute (this : Router) (method path controller action : string)
  : result Router :=
  let pattern := _pathToRegex path in
  let keys := _extractParamKeys path in
  match routes this !! method with
  | Some l =>
      Ok {| routes :=
              <[method := l ++ [{| path := path; pattern := pattern;
                                   keys := keys; controller := controller;
                                   action := action |}]]> (routes this) |}
  | None =>
      Throw (NativeError "TypeError" "Cannot read properties of undefined")
  end.

Definition get (this : Router) (path controller action : string) : result Router :=
  _addRoute this "GET" path controller action.
Definition post (this : Router) (path controller action : string) : result Router :=
  _addRoute this "POST" path controller action.
Definition put (this : Router) (path controller action : string) : result Router :=
  _addRoute this "PUT" path controller action.
Definition delete (this : Router) (path controller action : string) : result Router :=
  _addRoute this "DELETE" path controller action.
Definition patch (this : Router) (path controller action : string) : result Router :=
  _addRoute this "PATCH" path controller action.

(** ** [pathname.match(pattern)] *)

(** The number of leading code units other than [/]. *)
Fixpoint run_length (s : string) : nat :=
  match s with
  | String c r => if char_eqb c "/" then O else S (run_length r)
  | EmptyString => O
  end.

Fixpoint drop (n : nat) (s : string) : string :=
  match n, s with
  | S m, String _ r => drop m r
  | _, _ => s
  end.

(** A greedy group: the longest capture first, then shorter ones, down to
    one code unit. *)
Fixpoint backtrack (rest : string -> option (list string)) (n : nat) (s : string)
  : option (list string) :=
  match n with
  | O => None
  | S m =>
      match rest (drop n s) with
      | Some captures => Some (prefix n s :: captures)
      | None => backtrack rest m s
      end
  end.

(** The captures of a match of the whole of [s]. *)
Fixpoint captures (pattern : list token) (s : string) : option (list string) :=
  match pattern with
  | [] => if String.eqb s EmptyString then Some [] else None
  | Literal c :: pattern' =>
      match s with
      | String d r => if char_eqb d c then captures pattern' r else None
      | EmptyString => None
      end
  | Segment :: pattern' => backtrack (captures pattern') (run_length s) s
  end.

(** The match array: the matched text, then the captures; or [null]. *)
Definition String_match (s : string) (pattern : list token) : option (list string) :=
  cons s <$> captures pattern s.

Record ResolvedMatch : Type := {
  match_controller : string;
  match_action : string;
  match_params : gmap string JsValue
}.

(** [for (let i=0; i<route.keys.length; i++) params[route.keys[i]] = match[i + 1]] *)
Fixpoint bind_params (i : nat) (keys : list string) (m : list string)
         (params : gmap string JsValue) : gmap string JsValue :=
  match keys with
  | [] => params
  | key :: keys' =>
      bind_params (S i) keys' m
        (<[key := default JUndefined (JStr <$> m !! (i + 1)%nat)]> params)
  end.

Fixpoint first_match (routes : list Route) (pathname : string)
  : option ResolvedMatch :=
  match routes with
  | [] => None
  | route :: rest =>
      match String_match pathname (pattern route) with
      | Some m =>
          Some {| match_controller := controller route;
                  match_action := action route;
                  match_params := bind_params 0 (keys route) m ∅ |}
      | None => first_match rest pathname
      end
  end.

(** [match(method, pathname)]; [None] is [null].  [method] is the method
    of an HTTP request, which names no inherited property of the routes
    object. *)
Definition match_ (this : Router) (method pathname : string)
  : option ResolvedMatch :=
  let routes := default [] (routes this !! method) in
  first_match routes pathname.

End Router.


(* ================================================================== *)
(** * Effects: state threaded through calls that may throw            *)
(* ================================================================== *)

Module Eff.

(** A computation over a state [S]: it returns or throws, and leaves the
    state as it was at that point. *)
Definition Eff (S A : Type) : Type := S -> result A * S.

Definition ret {S A} (a : A) : Eff S A := fun s => (Ok a, s).

Definition bind {S A B} (m : Eff S A) (f : A -> Eff S B) : Eff S B :=
  fun s =>
    match m s with
    | (Ok a, s') => f a s'
    | (Throw e, s') => (Throw e, s')
    end.

Definition throw {S A} (e : JsError) : Eff S A := fun s => (Throw e, s).

Definition lift {S A} (r : result A) : Eff S A := fun s => (r, s).

Definition get {S} : Eff S S := fun s => (Ok s, s).

Definition modify {S} (f : S -> S) : Eff S unit := fun s => (Ok tt, f s).

(** Run a computation on a component of the state. *)
Definition zoom {S T A} (proj : S -> T) (inj : T -> S -> S) (m : Eff T A)
  : Eff S A :=
  fun s => let '(r, t) := m (proj s) in (r, inj t s).

(** [try { body } catch (error) { handler(error) }] *)
Definition try_catch {S A} (body : Eff S A) (handler : JsError -> Eff S A)
  : Eff S A :=
  fun s =>
    match body s with
    | (Ok a, s') => (Ok a, s')
    | (Throw e, s') => handler e s'
    end.

End Eff.

Notation "'do' x <- m ; k" := (Eff.bind m (fun x => k))
  (at level 10, x name, m at level 100, k at level 200,
   format "'[v' 'do'  x  <-  m ; '/' k ']'").
Notation "'do_' m ; k" := (Eff.bind m (fun _ => k))
  (at level 10, m at level 100, k at level 200,
   format "'[v' 'do_'  m ; '/' k ']'").

(* ================================================================== *)
(** * exceptions/ApiException.js and exceptions/CustomExceptions.js    *)
(* ================================================================== *)

Module Exceptions.

(** [this.constructor.name] *)
Definition class_name (cls : ApiClass) : string :=
  match cls with
  | ApiException => "ApiException"
  | AuthenticationException => "AuthenticationException"
  | MethodNotAllowedException => "MethodNotAllowedException"
  | MethodNotFoundException => "MethodNotFoundException"
  | MissingParametersException => "MissingParametersException"
  | NotFoundException => "NotFoundException"
  | ValidationException => "ValidationException"
  end.

(** The constructor of [ApiException], run for an instance of class [cls].
    [message] is [None] for [null]; [vars] is [None] for [null]. *)
Definition construct (cls : ApiClass) (message : option string)
           (vars : option (list (string * JsValue))) (code : Z) : JsError :=
  let finalMessage :=
    match message with
    | Some m => if String.eqb m EmptyString then "An error occurred" else m
    | None => "An error occurred"
    end in
  let finalMessage :=
    match vars with
    | Some entries =>
        let varStrings :=
          map (fun kv => fst kv +:+ ": " +:+ toString (snd kv)) entries in
        finalMessage +:+ " (" +:+ join ", " varStrings +:+ ")"
    | None => finalMessage
    end in
  ApiError cls finalMessage vars code.

(** The subclasses: a default message and a fixed code.  [message] is
    [None] when the argument is left out. *)
Definition new_AuthenticationException (message : option string) vars : JsError :=
  construct AuthenticationException
    (Some (default "Authentication failed" message)) vars 401.

Definition new_MethodNotAllowedException (message : option string) vars : JsError :=
  construct MethodNotAllowedException
    (Some (default "HTTP method not allowed for this endpoint" message)) vars 405.

Definition new_MethodNotFoundException (message : option string) vars : JsError :=
  construct MethodNotFoundException
    (Some (default "The requested method was not found" message)) vars 404.

Definition new_MissingParametersException (message : option string) vars : JsError :=
  construct MissingParametersException
    (Some (default "Required parameters are missing" message)) vars 400.

Definition new_NotFoundException (message : option string) vars : JsError :=
  construct NotFoundException
    (Some (default "Resource not found" message)) vars 404.

Definition new_ValidationException (message : option string) vars : JsError :=
  construct ValidationException
    (Some (default "Validation failed" message)) vars 422.

(** [new Error(message)] *)
Definition new_Error (message : string) : JsError := NativeError "Error" message.

(** ** The properties the dispatcher reads *)

Definition instanceof_ApiException (error : JsError) : bool :=
  match error with ApiError _ _ _ _ => true | NativeError _ _ => false end.

Definition name (error : JsError) : string :=
  match error with
  | ApiError cls _ _ _ => class_name cls
  | NativeError n _ => n
  end.

Definition message (error : JsError) : string :=
  match error with
  | ApiError _ m _ _ => m
  | NativeError _ m => m
  end.

Definition code (error : JsError) : JsValue :=
  match error with
  | ApiError _ _ _ c => JNum c
  | NativeError _ _ => JUndefined
  end.

End Exceptions.

(* ================================================================== *)
(** * lib/Response.js                                                  *)
(* ================================================================== *)

Module Response.

(** [wire] is what has gone through [res.writeHead] and [res.end]:
    nothing yet, or a status line, the headers and a body. *)
Record Response : Type := {
  statusCode : Z;
  headers : gmap string string;
  wire : option (Z * gmap string string * string)
}.

(** The headers [_setCorsHeaders] puts on [res] itself. *)
Definition cors_headers : gmap string string :=
  <["Access-Control-Allow-Origin" := "*"]>
    (<["Access-Control-Allow-Methods" := "GET, POST, PUT, DELETE, OPTIONS"]>
       (<["Access-Control-Allow-Headers" := "Content-Type, Authorization"]> ∅)).

Definition constructor : Response :=
  {| statusCode := 200;
     headers := <["Content-Type" := "application/json"]> ∅;
     wire := None |}.

Definition status (this : Response) (code : Z) : Response :=
  {| statusCode := code; headers := headers this; wire := wire this |}.

Definition setHeader (this : Response) (name value : string) : Response :=
  {| statusCode := statusCode this;
     headers := <[name := value]> (headers this);
     wire := wire this |}.

(** [res.writeHead] throws once the head has been written. *)
Definition send (data : string) : Eff.Eff Response unit :=
  fun this =>
    match wire this with
    | Some _ =>
        (Throw (NativeError "Error" "Cannot write headers after they are sent to the client"),
         this)
    | None =>
        (Ok tt,
         {| statusCode := statusCode this; headers := headers this;
            wire := Some (statusCode this, headers this ∪ cors_headers, data) |})
    end.

Definition json (data : JsValue) : Eff.Eff Response unit :=
  fun this =>
    send (default EmptyString (stringify data))
         (setHeader this "Content-Type" "application/json").

(** The options of [cookie]; [None] is a key left out. *)
Record CookieOptions : Type := {
  maxAge : option Z;
  expires : option string;
  path : option string;
  httpOnly : option bool;
  secure : bool;
  sameSite : option string
}.

Definition nonempty (o : option string) : option string :=
  match o with
  | Some s => if String.eqb s EmptyString then None else Some s
  | None => None
  end.

Definition nonzero (o : option Z) : option Z :=
  match o with
  | Some n => if n =? 0 then None else Some n
  | None => None
  end.

Definition cookie (this : Response) (name value : string)
           (options : CookieOptions) : Response :=
  let opts_path := match path options with Some p => p | None => "/" end in
  let opts_httpOnly := default true (httpOnly options) in
  let cookieStr := name +:+ "=" +:+ value in
  let cookieStr :=
    match nonzero (maxAge options), nonempty (expires options) with
    | Some age, None => cookieStr +:+ "; Max-Age=" +:+ pretty age
    | None, Some date => cookieStr +:+ "; Expires=" +:+ date
    | _, _ => cookieStr
    end in
  let cookieStr :=
    if String.eqb opts_path EmptyString then cookieStr
    else cookieStr +:+ "; Path=" +:+ opts_path in
  let cookieStr := if opts_httpOnly then cookieStr +:+ "; HttpOnly" else cookieStr in
  let cookieStr := if secure options then cookieStr +:+ "; Secure" else cookieStr in
  let cookieStr :=
    match nonempty (sameSite options) with
    | Some policy => cookieStr +:+ "; SameSite=" +:+ policy
    | None => cookieStr
    end in
  setHeader this "Set-Cookie" cookieStr.

End Response.

(* ================================================================== *)
(** * database/Database.js and database/MySQLDatabase.js               *)
(* ================================================================== *)

Module Database.

(** A value bound to a placeholder: a plain value or a [Date] object. *)
Inductive Param : Type :=
| ParamValue (v : JsValue)
| ParamDate (d : JsDate).

Definition Statement : Type := (string * list Param)%type.

(** What the store answers: rows, or the header of a write. *)
Inductive QueryResult : Type :=
| Rows (rows : list JsValue)
| ResultSetHeader (affectedRows changedRows insertId : Z).

(** The [mysql2] driver and the store behind it: whether a connection can
    be opened, and the answer to a statement given those sent before. *)
Record Driver : Type := {
  createConnection : result unit;
  run : list Statement -> Statement -> result QueryResult
}.

Record Config : Type := {
  host : string;
  user : string;
  password : string;
  database : string
}.

(** [connection] is [None] until [connect] succeeds; an open connection
    is known by the statements it has been handed, oldest first. *)
Record MySQLDatabase : Type := {
  config : Config;
  connection : option (list Statement)
}.

Definition constructor (cfg : Config) : MySQLDatabase :=
  {| config := cfg; connection := None |}.

Definition injection_error : JsError :=
  Exceptions.new_Error "Potential SQL injection detected in parameter value".

(** [params.map(param => { ... throw ...; return param; })] *)
Fixpoint _sanitizeParams (params : list Param) : result (list Param) :=
  match params with
  | [] => Ok []
  | param :: rest =>
      match param with
      | ParamValue (JStr s) =>
          if InputSanitizer.detectSqlInjection (JStr s)
          then Throw injection_error
          else rest' ← _sanitizeParams rest; Ok (param :: rest')
      | _ => rest' ← _sanitizeParams rest; Ok (param :: rest')
      end
  end.

Section WithDriver.
Variable driver : Driver.

Definition empty (s : string) : bool := String.eqb s EmptyString.

Definition connect : Eff.Eff MySQLDatabase unit :=
  fun this =>
    let cfg := config this in
    if empty (host cfg) || empty (user cfg) || empty (password cfg)
       || empty (database cfg)
    then (Throw (Exceptions.new_Error
                   "Invalid database connection. Please provide connection parameters"),
          this)
    else match createConnection driver with
         | Ok tt => (Ok tt, {| config := cfg; connection := Some [] |})
         | Throw err => (Throw err, this)
         end.

(** [this.connection.query(sql, params)] *)
Definition connection_query (sql : string) (params : list Param)
  : Eff.Eff MySQLDatabase QueryResult :=
  fun this =>
    match connection this with
    | Some handed =>
        (run driver handed (sql, params),
         {| config := config this;
            connection := Some (handed ++ [(sql, params)]) |})
    | None =>
        (Throw (NativeError "TypeError" "Cannot read properties of undefined"),
         this)
    end.

Definition query (sql : string) (params : list Param)
  : Eff.Eff MySQLDatabase QueryResult :=
  do_ (fun this =>
         match connection this with
         | None => connect this
         | Some _ => (Ok tt, this)
         end);
  do sanitizedParams <- Eff.lift (_sanitizeParams params);
  connection_query sql params.

Definition execute (sql : string) (params : list Param)
  : Eff.Eff MySQLDatabase QueryResult :=
  query sql params.

(** [result?.length ? result[0] : null] *)
Definition fetchFirst (sql : string) (params : list Param)
  : Eff.Eff MySQLDatabase JsValue :=
  do result <- query sql params;
  Eff.ret (match result with
           | Rows (row :: _) => row
           | _ => JNull
           end).

(** The statements the store has been handed. *)
Definition handed (this : MySQLDatabase) : list Statement :=
  default [] (connection this).

End WithDriver.

End Database.

(* ================================================================== *)
(** * models/                                                          *)
(* ================================================================== *)

Module ProductsModel.
Import Database.

Section WithDriver.
Variable driver : Driver.

(** [`SELECT * FROM products LIMIT ${offset}, ${limit}`] *)
Definition readAll_sql (offset limit : JsValue) : string :=
  "SELECT * FROM products LIMIT " +:+ toString offset +:+ ", " +:+ toString limit.

Definition readAll (offset limit : JsValue) : Eff.Eff MySQLDatabase QueryResult :=
  query driver (readAll_sql offset limit) [].

Definition read (id : JsValue) : Eff.Eff MySQLDatabase JsValue :=
  fetchFirst driver "SELECT * FROM products WHERE id = ?" [ParamValue id].

Definition readCategory (name : string) : Eff.Eff MySQLDatabase QueryResult :=
  query driver "SELECT * FROM products WHERE LOWER(category) = ?"
        [ParamValue (JStr (toLowerCase name))].
End WithDriver.

End ProductsModel.

Module OrdersModel.
Import Database.

Section WithDriver.
Variable driver : Driver.

(** [`SELECT * FROM orders LIMIT ${offset}, ${limit}`] *)
Definition readAll_sql (offset limit : JsValue) : string :=
  "SELECT * FROM orders LIMIT " +:+ toString offset +:+ ", " +:+ toString limit.

Definition readAll (offset limit : JsValue) : Eff.Eff MySQLDatabase QueryResult :=
  query driver (readAll_sql offset limit) [].

Definition readStatus (name : string) : Eff.Eff MySQLDatabase QueryResult :=
  query driver "SELECT * FROM orders WHERE LOWER(status) = ?"
        [ParamValue (JStr (toLowerCase name))].
End WithDriver.

End OrdersModel.

Module AuthModel.
Import Database.

Section WithDriver.
Variable driver : Driver.

Definition createSession_sql : string :=
  "INSERT IGNORE INTO sessions (user_id, token, expires_at) VALUES (?, ?, ?) ON DUPLICATE KEY UPDATE token = ?, expires_at = ?".

(** [result?.affectedRows > 0] *)
Definition createSession (userId : JsValue) (token : string) (expiresAt : JsDate)
  : Eff.Eff MySQLDatabase bool :=
  do result <- execute driver createSession_sql
                 [ParamValue userId; ParamValue (JStr token); ParamDate expiresAt;
                  ParamValue (JStr token); ParamDate expiresAt];
  Eff.ret (match result with
           | ResultSetHeader affectedRows _ _ => 0 <? affectedRows
           | Rows _ => false
           end).
End WithDriver.

End AuthModel.

(* ================================================================== *)
(** * controllers/AuthController.js                                    *)
(* ================================================================== *)

Module AuthController.

(** The data fields of a controller; [db], [request], [response] and
    [authModel] are the components of [World] below. *)
Record AuthController : Type := {
  userId : JsValue;
  token : JsValue;
  cookieName : string;
  sessionTimeout : Z
}.

(** [token] is what [_getToken()] reads while the instance is built. *)
Definition constructor (token : JsValue) : AuthController :=
  {| userId := JNum 0;
     token := token;
     cookieName := "simple_app_cookie";
     sessionTimeout := 1000 * 60 * 60 * 24 * 14 |}.

(** [this[name]] for a data field; a name that is no field reads as
    [undefined]. *)
Definition field (this : AuthController) (name : string) : JsValue :=
  if String.eqb name "userId" then userId this
  else if String.eqb name "token" then token this
  else if String.eqb name "cookieName" then JStr (cookieName this)
  else if String.eqb name "sessionTimeout" then JNum (sessionTimeout this)
  else JUndefined.

Record World : Type := {
  this : AuthController;
  response : Response.Response;
  db : Database.MySQLDatabase
}.

Definition on_this {A} (m : Eff.Eff AuthController A) : Eff.Eff World A :=
  Eff.zoom this
    (fun t w => {| this := t; response := response w; db := db w |}) m.

Definition on_response {A} (m : Eff.Eff Response.Response A) : Eff.Eff World A :=
  Eff.zoom response
    (fun r w => {| this := this w; response := r; db := db w |}) m.

Definition on_db {A} (m : Eff.Eff Database.MySQLDatabase A) : Eff.Eff World A :=
  Eff.zoom db
    (fun d w => {| this := this w; response := response w; db := d |}) m.

Definition _setUserAndToken (userId token : JsValue) : Eff.Eff AuthController unit :=
  Eff.modify (fun this =>
    {| userId := userId; token := token; cookieName := cookieName this;
       sessionTimeout := sessionTimeout this |}).

Section WithHost.
(** The store, [Date.parse], and the text
    [crypto.randomBytes(64).toString('base64')] returns. *)
Variable driver : Database.Driver.
Variable Date_parse : string -> JsDate.
Variable random_base64 : string.

Definition _generateToken : string :=
  replace_char " " ":"
    (replace_char "\" "|"
       (replace_char "/" "_"
          (replace_char "+" "-" random_base64))).

(** [new Date(Date.now + this.sessionTimout)] *)
Definition _getSessionExpiration (this : AuthController) : JsDate :=
  Date_new Date_parse
    (add (NativeFunction "now") (Value (field this "sessionTimout"))).

Definition session_cookie_options (this : AuthController) : Response.CookieOptions :=
  {| Response.maxAge := Some (sessionTimeout this);
     Response.expires := None;
     Response.path := None;
     Response.httpOnly := None;
     Response.secure := true;
     Response.sameSite := Some "Lax" |}.

Definition createSession (userId : JsValue) : Eff.Eff World JsValue :=
  let token := _generateToken in
  do_ on_this (Eff.modify (fun this =>
        {| AuthController.userId := AuthController.userId this;
           AuthController.token := JStr token;
           cookieName := cookieName this;
           sessionTimeout := sessionTimeout this |}));
  do self <- on_this Eff.get;
  let expiresAt := _getSessionExpiration self in
  do result <- on_db (AuthModel.createSession driver userId token expiresAt);
  if result : bool then
    do_ on_this (_setUserAndToken userId (JStr token));
    do_ on_response (Eff.modify (fun response =>
          Response.cookie response (cookieName self) token
            (session_cookie_options self)));
    Eff.ret (JObj [("token", JStr token); ("userId", userId)])
  else
    Eff.throw (Exceptions.new_AuthenticationException
                 (Some "Unable to create user session.") None).

End WithHost.

End AuthController.

(* ================================================================== *)
(** * controllers/ReportController.js                                  *)
(* ================================================================== *)

Module ReportController.

(** A class: the methods its prototype defines and the class it extends. *)
#[warnings="-register-all"]
Inductive Class : Type :=
| Prototype (name : string) (methods : list string) (extends : option Class).

(** [Object.prototype]; its [__proto__] is an accessor, not a method. *)
Definition Object_ : Class :=
  Prototype "Object"
    ["constructor"; "hasOwnProperty"; "isPrototypeOf"; "propertyIsEnumerable";
     "toLocaleString"; "toString"; "valueOf"; "__defineGetter__";
     "__defineSetter__"; "__lookupGetter__"; "__lookupSetter__"]
    None.

Definition BaseController_ : Class :=
  Prototype "BaseController" ["constructor"] (Some Object_).

Definition AuthController_ : Class :=
  Prototype "AuthController"
    ["constructor"; "authenticate"; "createSession"; "deleteSession";
     "isAuthenticated"; "deleteCookie"; "_setUserAndToken"; "_getToken";
     "_getSessionExpiration"; "_generateToken"]
    (Some BaseController_).

Definition ReportController_ : Class :=
  Prototype "ReportController"
    ["constructor"; "index"; "orderStats"; "topProducts"; "recentOrders"]
    (Some AuthController_).

(** The own properties the constructors assign: none holds a function. *)
Definition fields : list string :=
  ["db"; "request"; "response"; "userId"; "token"; "cookieName";
   "sessionTimeout"; "authModel"; "model"].

Definition mem (name : string) (l : list string) : bool :=
  existsb (String.eqb name) l.

(** Whether the prototype chain from [cls] up defines method [name]. *)
Fixpoint has_method (cls : Class) (name : string) : bool :=
  match cls with
  | Prototype _ methods extends =>
      mem name methods
      || match extends with
         | Some parent => has_method parent name
         | None => false
         end
  end.

(** [typeof this[name] === 'function'] on an instance: an own field
    shadows the prototype chain. *)
Definition is_function (name : string) : bool :=
  negb (mem name fields) && has_method ReportController_ name.

(** What [index] does once it has decided: it calls a member. *)
Inductive Dispatch : Type :=
| Invoke (member : string).

Definition index (request : Request.Request) : result Dispatch :=
  reportId ← Request.getParam request "reportId" JNull;
  let member := toString reportId in
  if is_function member then Ok (Invoke member)
  else Throw (Exceptions.new_NotFoundException (Some "Report not found") None).

End ReportController.

(* ================================================================== *)
(** * server.js                                                        *)
(* ================================================================== *)

Module Server.

(** A controller action, as the dispatcher sees it: it reads the request
    and acts on the response, or throws. *)
Definition Action : Type := Request.Request -> Eff.Eff Response.Response unit.

Section WithEnvironment.
(** [process.env.NODE_ENV]; and [require(`./controllers/${name}`)]
    followed by [new ControllerClass(...)]: the function-valued members
    of the instance, by name. *)
Variable NODE_ENV : option string.
Variable load : string -> result (string -> option Action).

Definition development : bool :=
  match NODE_ENV with
  | Some mode => String.eqb mode "development"
  | None => false
  end.

(** [process.env.NODE_ENV === 'development' ? error.message : undefined] *)
Definition exposed_message (error : JsError) : JsValue :=
  if development then JStr (Exceptions.message error) else JUndefined.

(** [error.code || 500] *)
Definition code_or_500 (error : JsError) : JsValue :=
  if truthy (Exceptions.code error) then Exceptions.code error else JNum 500.

Definition status_of (code : JsValue) (this : Response.Response) : Response.Response :=
  match code with
  | JNum c => Response.status this c
  | _ => this
  end.

(** The body of the [try]; [parsed] is what [await request.parseBody()]
    gives once that promise is settled, the request or the error it was
    rejected with (see [listener] below for the call as a whole). *)
Definition try_block (router : Router.Router) (parsed : result Request.Request)
           (pathname : string) : Eff.Eff Response.Response unit :=
  do request <- Eff.lift parsed;
  match Router.match_ router (Request.method request) pathname with
  | None =>
      do_ Eff.modify (fun response => Response.status response 404);
      Response.json (JObj [("error", JStr "Route not found");
                           ("path", JStr pathname)])
  | Some route =>
      do controller <- Eff.lift (load (Router.match_controller route));
      match controller (Router.match_action route) with
      | None =>
          do_ Eff.modify (fun response => Response.status response 500);
          Response.json (JObj [("error", JStr "Controller action not found")])
      | Some action =>
          action (Request.setParams request (Router.match_params route))
      end
  end.

Definition catch_block (error : JsError) : Eff.Eff Response.Response unit :=
  if Exceptions.instanceof_ApiException error then
    do_ Eff.modify (status_of (Exceptions.code error));
    Response.json (JObj [("error", JStr (Exceptions.name error));
                         ("status", code_or_500 error);
                         ("message", exposed_message error)])
  else
    do_ Eff.modify (fun response => Response.status response 500);
    Response.json (JObj [("error", JStr "Internal Server Error");
                         ("status", JNum 500);
                         ("message", exposed_message error)]).

Definition handleRequest (router : Router.Router)
           (parsed : result Request.Request) (pathname : string)
  : Eff.Eff Response.Response unit :=
  Eff.try_catch (try_block router parsed pathname) catch_block.

(** What becomes of a call of the [async] function: it returns, it throws
    (its promise is rejected), or it stays suspended at an [await] whose
    promise is never settled, while an error leaves a stream listener. *)
Inductive Completion : Type :=
| Returned
| Threw (error : JsError)
| Suspended (escaped : JsError).

(** [handleRequest(req, res)] as the listener of [start] calls it.
    [parsedUrl] is the path name of [new URL(req.url, ...)], evaluated
    before the [try] (a [TypeError] for a URL that cannot be parsed);
    [settled] is what becomes of [request.parseBody()], awaited first thing
    inside the [try]: a rejection is thrown there, and nothing after the
    [await] runs when the promise is never settled. *)
Definition listener (router : Router.Router) (parsedUrl : result string)
           (settled : Request.Settled)
  : Response.Response -> Completion * Response.Response :=
  fun response =>
    let finish (run : result unit * Response.Response) :=
      (match fst run with
       | Ok _ => Returned
       | Throw error => Threw error
       end, snd run) in
    match parsedUrl with
    | Throw error => (Threw error, response)
    | Ok pathname =>
        match settled with
        | Request.Resolved request =>
            finish (handleRequest router (Ok request) pathname response)
        | Request.Rejected error =>
            finish (handleRequest router (Throw error) pathname response)
        | Request.Unsettled escaped => (Suspended escaped, response)
        end
    end.

End WithEnvironment.

(** [setupRoutes], for a given [API_PATH]. *)
Definition setupRoutes (API_PATH : string) : result Router.Router :=
  let at_ (p : string) := API_PATH +:+ p in
  r ← Router.get Router.constructor (at_ "/auth/session") "UserController" "session";
  r ← Router.delete r (at_ "/auth/session") "UserController" "session";
  r ← Router.post r (at_ "/auth/login") "UserController" "login";
  r ← Router.post r (at_ "/auth/logout") "UserController" "logout";
  r ← Router.post r (at_ "/user") "UserController" "create";
  r ← Router.get r (at_ "/user/:userId") "UserController" "read";
  r ← Router.put r (at_ "/user/:userId") "UserController" "update";
  r ← Router.delete r (at_ "/user/:userId") "UserController" "delete";
  r ← Router.post r (at_ "/user/sendMail") "UserController" "sendMail";
  r ← Router.get r (at_ "/products/categories") "ProductsController" "readCategories";
  r ← Router.get r (at_ "/products/category/:name") "ProductsController" "readCategory";
  r ← Router.get r (at_ "/products") "ProductsController" "readAll";
  r ← Router.get r (at_ "/products/:id") "ProductsController" "read";
  r ← Router.put r (at_ "/products/:id") "ProductsController" "update";
  r ← Router.delete r (at_ "/products/:id") "ProductsController" "delete";
  r ← Router.get r (at_ "/orders/statuses") "OrdersController" "readStatuses";
  r ← Router.get r (at_ "/orders/status/:name") "OrdersController" "readStatus";
  r ← Router.get r (at_ "/orders") "OrdersController" "readAll";
  r ← Router.get r (at_ "/orders/:id") "OrdersController" "read";
  Router.get r (at_ "/report/:reportId") "ReportController" "index".

End Server.

(* ================================================================== *)
(** * lib/Request.js: cookies                                          *)
(* ================================================================== *)

Module RequestCookies.

(** [s.split(sep)] for a one-code-unit separator: never empty. *)
Fixpoint split (sep : ascii) (s : string) : list string :=
  match s with
  | EmptyString => [EmptyString]
  | String c r =>
      if char_eqb c sep then EmptyString :: split sep r
      else match split sep r with
           | piece :: pieces => String c piece :: pieces
           | [] => [String c EmptyString]
           end
  end.

(** [s.indexOf(c)]; [None] is [-1]. *)
Fixpoint indexOf (c : ascii) (s : string) : option nat :=
  match s with
  | EmptyString => None
  | String d r => if char_eqb d c then Some O else S <$> indexOf c r
  end.

(** [cookie.substring(0, cookie.indexOf('=')).trim()]: a negative end
    counts as 0. *)
Definition pair_name (cookie : string) : string :=
  trim (match indexOf "=" cookie with
        | Some i => prefix i cookie
        | None => EmptyString
        end).

(** [cookie.substring(cookie.indexOf('=') + 1).trim()] *)
Definition pair_value (cookie : string) : string :=
  trim (match indexOf "=" cookie with
        | Some i => Router.drop (S i) cookie
        | None => cookie
        end).

Section WithHost.
(** [decodeURIComponent], which throws a [URIError] on a malformed escape. *)
Variable decodeURIComponent : string -> result string.

(** [cookiePairs.forEach(cookie => { ... cookies[name] = decodeURIComponent(value) })] *)
Fixpoint collect (cookiePairs : list string) (cookies : gmap string string)
  : result (gmap string string) :=
  match cookiePairs with
  | [] => Ok cookies
  | cookie :: rest =>
      match decodeURIComponent (pair_value cookie) with
      | Ok value => collect rest (<[pair_name cookie := value]> cookies)
      | Throw e => Throw e
      end
  end.

(** [cookieHeader] is [this.req.headers.cookie]; [None] is [undefined]. *)
Definition getCookies (cookieHeader : option string) : result (gmap string string) :=
  match cookieHeader with
  | Some header =>
      if String.eqb header EmptyString then Ok ∅
      else collect (split ";" header) ∅
  | None => Ok ∅
  end.

(** The properties every object has from [Object.prototype].  [cookies] is
    a plain object: for a key outside this list [cookies[key]] reads an own
    property, and an assignment defines one for every name but
    [__proto__]. *)
Definition inherited : list string :=
  ["constructor"; "hasOwnProperty"; "isPrototypeOf"; "propertyIsEnumerable";
   "toLocaleString"; "toString"; "valueOf"; "__defineGetter__";
   "__defineSetter__"; "__lookupGetter__"; "__lookupSetter__"; "__proto__"].

(** [cookies[key] || null], for a key that is not in [inherited] (the
    controllers ask for the session cookie). *)
Definition getCookie (cookieHeader : option string) (key : string) : result JsValue :=
  match getCookies cookieHeader with
  | Ok cookies =>
      Ok (match cookies !! key with
          | Some value => if String.eqb value EmptyString then JNull else JStr value
          | None => JNull
          end)
  | Throw e => Throw e
  end.

End WithHost.

End RequestCookies.

(* ================================================================== *)
(** * lib/Response.js: the helpers                                     *)
(* ================================================================== *)

Module ResponseHelpers.

Definition clearCookie (this : Response.Response) (name : string) : Response.Response :=
  Response.cookie this name EmptyString
    {| Response.maxAge := None;
       Response.expires := Some "Thu, 01 Jan 1970 00:00:00 GMT";
       Response.path := None;
       Response.httpOnly := None;
       Response.secure := false;
       Response.sameSite := None |}.

(** [success(data, message = '')] *)
Definition success (data : JsValue) (message : string) : Eff.Eff Response.Response unit :=
  Response.json (JObj [("status", JNum 200); ("success", JBool true);
                       ("message", JStr message); ("data", data)]).

(** [error(message, statusCode = 400, details = null)] *)
Definition error (message : string) (statusCode : Z) (details : JsValue)
  : Eff.Eff Response.Response unit :=
  do_ Eff.modify (fun this => Response.status this statusCode);
  Response.json
    (JObj ([("status", JNum statusCode); ("success", JBool false);
            ("error", JStr message)]
           ++ if truthy details then [("details", details)] else [])).

Definition validationError (errors : JsValue) : Eff.Eff Response.Response unit :=
  error "Validation failed" 422 errors.

Definition unauthorized (message : string) : Eff.Eff Response.Response unit :=
  error message 401 JNull.

Definition forbidden (message : string) : Eff.Eff Response.Response unit :=
  error message 403 JNull.

Definition notFound (message : string) : Eff.Eff Response.Response unit :=
  error message 404 JNull.

(** [redirect(url, statusCode = 302)] *)
Definition redirect (url : string) (statusCode : Z) : Eff.Eff Response.Response unit :=
  do_ Eff.modify (fun this =>
        Response.setHeader (Response.status this statusCode) "Location" url);
  Response.send EmptyString.

End ResponseHelpers.

(* ================================================================== *)
(** * lib/InputSanitizer.js: e-mail, password, integer, HTML           *)
(* ================================================================== *)

Module InputSanitizerTypes.
Import Regex.

(** A pattern between [^] and [$]: the whole text must match. *)
Definition at_end : Continuation := fun _ rest => String.eqb rest EmptyString.

Definition test_whole (r : regex) (s : string) : bool := matches r at_end None s.

Fixpoint filter_chars (keep : ascii -> bool) (s : string) : string :=
  match s with
  | EmptyString => EmptyString
  | String c r => if keep c then String c (filter_chars keep r) else filter_chars keep r
  end.

Fixpoint all_chars (p : ascii -> bool) (s : string) : bool :=
  match s with
  | EmptyString => true
  | String c r => p c && all_chars p r
  end.

Fixpoint some_char (p : ascii -> bool) (s : string) : bool :=
  match s with
  | EmptyString => false
  | String c r => p c || some_char p r
  end.

(** ** [sanitizeEmail] *)

(** [[a-z0-9@._+-]] *)
Definition email_char (c : ascii) : bool :=
  is_lower c || is_digit c || char_eqb c "@" || char_eqb c "." || char_eqb c "_"
  || char_eqb c "+" || char_eqb c "-".

(** [[^\s@]] *)
Definition email_part : regex :=
  Class (fun c => negb (is_space c) && negb (char_eqb c "@")).

(** [/^[^\s@]+@[^\s@]+\.[^\s@]+$/] *)
Definition email_shape : regex :=
  Cat (Plus email_part)
    (Cat (Chr "@") (Cat (Plus email_part) (Cat (Chr ".") (Plus email_part)))).

Definition sanitizeEmail (email : JsValue) : string :=
  if negb (truthy email) then EmptyString
  else
    let sanitized := toLowerCase (trim (toString email)) in
    let sanitized := filter_chars email_char sanitized in
    if negb (test_whole email_shape sanitized) then EmptyString
    else sanitized.

(** ** [sanitizePassword] *)

(** [.] without the [s] flag: any code unit but a line terminator. *)
Definition dot : regex :=
  Class (fun c => negb ((code c =? 10)%N || (code c =? 13)%N)).

(** [[!@#\-_~$%^&*()]] *)
Definition password_symbol (c : ascii) : bool :=
  existsb (char_eqb c)
    ["!"; "@"; "#"; "-"; "_"; "~"; "$"; "%"; "^"; "&"; "*"; "("; ")"]%char.

(** [r{n}] and [r{0,n}] *)
Fixpoint exactly (n : nat) (r : regex) : regex :=
  match n with
  | O => Eps
  | S n' => Cat r (exactly n' r)
  end.

Fixpoint up_to (n : nat) (r : regex) : regex :=
  match n with
  | O => Eps
  | S n' => Alt Eps (Cat r (up_to n' r))
  end.

(** A lookahead [(?=r)] at the start of the text: [r] matches some prefix. *)
Definition ahead (r : regex) (s : string) : bool :=
  matches r (fun _ _ => true) None s.

(** [/^(?=.*\d)(?=.*[A-Z])(?=.*[a-z])(?=.*[!@#\-_~$%^&*()])(?=\S*$).{8,20}$/]:
    the five lookaheads stand at the start of the text, where each asks
    for a match of its body, and [.{8,20}] must match the whole text. *)
Definition password_test (s : string) : bool :=
  ahead (Cat (Star dot) (Class is_digit)) s
  && ahead (Cat (Star dot) (Class is_upper)) s
  && ahead (Cat (Star dot) (Class is_lower)) s
  && ahead (Cat (Star dot) (Class password_symbol)) s
  && matches (Star (Class (fun c => negb (is_space c)))) at_end None s
  && test_whole (Cat (exactly 8 dot) (up_to 12 dot)) s.

Definition sanitizePassword (password : JsValue) : string :=
  if negb (truthy password) then EmptyString
  else
    let sanitized := trim (toString password) in
    if negb (password_test sanitized) then EmptyString
    else sanitized.

(** ** [escapeHtml] *)

Definition html_entity (c : ascii) : string :=
  if char_eqb c "&" then "&amp;"
  else if char_eqb c "<" then "&lt;"
  else if char_eqb c ">" then "&gt;"
  else if char_eqb c dquote then "&quot;"
  else if char_eqb c "'" then "&#x27;"
  else if char_eqb c "/" then "&#x2F;"
  else String c EmptyString.

(** [String(value).replace(..., char => map[char])], the pattern being the
    class of the ampersand, the angle brackets, the two quotes and the
    slash. *)
Fixpoint escape_text (s : string) : string :=
  match s with
  | EmptyString => EmptyString
  | String c r => html_entity c +:+ escape_text r
  end.

Definition escapeHtml (value : JsValue) : string :=
  if negb (truthy value) then EmptyString else escape_text (toString value).

(** ** [sanitizeInteger] *)

(** The digits at the start of a text and their value, most significant
    first; [None] when the text starts with no digit. *)
Fixpoint digits (acc : option Z) (s : string) : option Z :=
  match s with
  | String c r =>
      if is_digit c
      then digits (Some (10 * default 0 acc + (Z.of_N (code c) - 48))) r
      else acc
  | EmptyString => acc
  end.

(** [parseInt(text, 10)]: white space is skipped, then a sign, then the
    digits are read; what follows them is ignored.  [None] is [NaN].  The
    value is the integer the digits denote (exact as long as a number can
    hold it). *)
Definition parseInt_text (text : string) : option Z :=
  match trimStart text with
  | String "-" r => Z.opp <$> digits None r
  | String "+" r => digits None r
  | r => digits None r
  end.

Definition parseInt (value : JsValue) : option Z := parseInt_text (toString value).

(** The options of [sanitizeInteger]; [None] is a key left out. *)
Record IntegerOptions : Type := {
  int_min : option Z;
  int_max : option Z;
  int_default : JsValue
}.

Definition sanitizeInteger (value : JsValue) (options : IntegerOptions) : JsValue :=
  match parseInt value with
  | None =>
      match int_default options with
      | JUndefined => JNum 0
      | d => d
      end
  | Some parsed =>
      let sanitized := parsed in
      let sanitized :=
        match int_min options with
        | Some m => if sanitized <? m then m else sanitized
        | None => sanitized
        end in
      let sanitized :=
        match int_max options with
        | Some m => if m <? sanitized then m else sanitized
        | None => sanitized
        end in
      JNum sanitized
  end.

End InputSanitizerTypes.

(* ================================================================== *)
(** * database/DatabaseFactory.js                                      *)
(* ================================================================== *)

Module DatabaseFactory.

(** [process.env.NAME || fallback] *)
Definition env_or (env : gmap string string) (name fallback : string) : string :=
  match env !! name with
  | Some value => if String.eqb value EmptyString then fallback else value
  | None => fallback
  end.

(** [getInstance(type, config)]: every type gives a [MySQLDatabase], whose
    constructor keeps the host, the user, the password and the database
    name of the configuration. *)
Definition getInstance (type : string) (config : Database.Config)
  : Database.MySQLDatabase :=
  Database.constructor config.

Definition fromEnv (env : gmap string string) : Database.MySQLDatabase :=
  let config :=
    {| Database.host := env_or env "DB_HOST" "locahost";
       Database.user := env_or env "DB_USER" "root";
       Database.password := env_or env "DB_PASSWORD" EmptyString;
       Database.database := env_or env "DB_NAME" "api_database" |} in
  getInstance (env_or env "DB_TYPE" "mysql") config.

End DatabaseFactory.

(* ================================================================== *)
(** * models/: sessions, products, users                               *)
(* ================================================================== *)

Module AuthModelSessions.
Import Database.

Section WithDriver.
Variable driver : Driver.

Definition authenticate_sql : string :=
  "SELECT user_id FROM sessions WHERE token = ? LIMIT 1".

(** [result?.length > 0 ? result[0] : null] *)
Definition authenticate (token : string) : Eff.Eff MySQLDatabase JsValue :=
  do result <- query driver authenticate_sql [ParamValue (JStr token)];
  Eff.ret (match result with
           | Rows (row :: _) => row
           | _ => JNull
           end).

Definition deleteSession_sql : string := "DELETE FROM sessions WHERE token = ?".

Definition deleteSession (token : JsValue) : Eff.Eff MySQLDatabase bool :=
  do result <- execute driver deleteSession_sql [ParamValue token];
  Eff.ret (match result with
           | ResultSetHeader affectedRows _ _ => 0 <? affectedRows
           | Rows _ => false
           end).

End WithDriver.

End AuthModelSessions.

Module ProductsModelUpdate.
Import Database.

(** The loop of [update] over the properties of [product]: the assignments
    gathered so far and their values. *)
Fixpoint gather (product : list (string * JsValue)) (sql : string)
         (values : list JsValue) : string * list JsValue :=
  match product with
  | [] => (sql, values)
  | (key, value) :: rest =>
      match value with
      | JNull => gather rest sql values
      | _ =>
          gather rest
            (sql +:+ (if String.eqb sql EmptyString then EmptyString else ", ")
                 +:+ key +:+ " = ?")
            (values ++ [value])
      end
  end.

(** The statement [update] executes, if any. *)
Definition update_statement (id : JsValue) (product : list (string * JsValue))
  : option Statement :=
  let '(sql, values) := gather product EmptyString [] in
  if String.eqb sql EmptyString then None
  else Some ("UPDATE products SET " +:+ sql +:+ " WHERE id = ?",
             map ParamValue (values ++ [id])).

Section WithDriver.
Variable driver : Driver.

(** [result?.changedRows > 0], or [false] when no field is given. *)
Definition update (id : JsValue) (product : list (string * JsValue))
  : Eff.Eff MySQLDatabase bool :=
  match update_statement id product with
  | Some (sql, params) =>
      do result <- execute driver sql params;
      Eff.ret (match result with
               | ResultSetHeader _ changedRows _ => 0 <? changedRows
               | Rows _ => false
               end)
  | None => Eff.ret false
  end.

End WithDriver.

End ProductsModelUpdate.

Module UserModel.
Import Database.

Section WithDriver.
Variable driver : Driver.

Definition allowedFields : list string := ["id"; "email"; "name"].

(** [`SELECT * FROM users WHERE ${field} = ? LIMIT 1`] *)
Definition _getUserByField (field : string) (value : JsValue)
  : Eff.Eff MySQLDatabase QueryResult :=
  if negb (existsb (String.eqb field) allowedFields)
  then Eff.throw (Exceptions.new_ValidationException (Some "Invalid field name") None)
  else query driver ("SELECT * FROM users WHERE " +:+ field +:+ " = ? LIMIT 1")
             [ParamValue value].

(** [const { id, name, email } = result[0]; return { id, name, email }], or
    [{}] when there is no row. *)
Definition read (id : JsValue) : Eff.Eff MySQLDatabase JsValue :=
  do result <- _getUserByField "id" id;
  match result with
  | Rows (row :: _) =>
      do id_ <- Eff.lift (Request.get row "id");
      do name <- Eff.lift (Request.get row "name");
      do email <- Eff.lift (Request.get row "email");
      Eff.ret (JObj [("id", id_); ("name", name); ("email", email)])
  | _ => Eff.ret (JObj [])
  end.

(** [result?.affectedRows > 0] *)
Definition delete (id : JsValue) : Eff.Eff MySQLDatabase bool :=
  do result <- query driver "DELETE FROM users WHERE id = ?" [ParamValue id];
  Eff.ret (match result with
           | ResultSetHeader affectedRows _ _ => 0 <? affectedRows
           | Rows _ => false
           end).

End WithDriver.

End UserModel.

(* ================================================================== *)
(** * controllers/AuthController.js: reading and ending a session      *)
(* ================================================================== *)

Module AuthControllerSessions.
Import AuthController.

(** [[0-9a-zA-Z-_=|:]]: after the range [A-Z] the hyphen stands for
    itself. *)
Definition token_char (c : ascii) : bool :=
  is_digit c || is_lower c || is_upper c || char_eqb c "-" || char_eqb c "_"
  || char_eqb c "=" || char_eqb c "|" || char_eqb c ":".

(** [/^[0-9a-zA-Z-_=|:]*$/.test(token)] *)
Definition token_test (token : string) : bool :=
  InputSanitizerTypes.test_whole (Regex.Star (Regex.Class token_char)) token.

(** [this.token !== null && this.userId !== 0] *)
Definition isAuthenticated (this : AuthController) : bool :=
  negb (match token this with JNull => true | _ => false end)
  && negb (match userId this with JNum 0 => true | _ => false end).

(** A parameter with a default value: [undefined] takes the default. *)
Definition or_default (d : JsValue) (v : JsValue) : JsValue :=
  match v with JUndefined => d | _ => v end.

Section WithHost.
Variable driver : Database.Driver.
Variable decodeURIComponent : string -> result string.
Variable cookieHeader : option string.

(** [this.request.getCookie(this.cookieName) || ''] *)
Definition _getToken (this : AuthController) : result string :=
  match RequestCookies.getCookie decodeURIComponent cookieHeader (cookieName this) with
  | Ok (JStr value) => Ok value
  | Ok _ => Ok EmptyString
  | Throw e => Throw e
  end.

Definition invalid_token : JsError :=
  Exceptions.new_AuthenticationException
    (Some "Invalid or missing authentication token") None.

Definition session_not_found : JsError :=
  Exceptions.new_AuthenticationException (Some "Session not found.") None.

Definition authenticate : Eff.Eff World JsValue :=
  do self <- on_this Eff.get;
  do token <- Eff.lift (_getToken self);
  do_ on_this (_setUserAndToken (userId self) (JStr token));
  if String.eqb token EmptyString || negb (token_test token)
  then Eff.throw invalid_token
  else
    do result <- on_db (AuthModelSessions.authenticate driver token);
    if negb (truthy result) then Eff.throw session_not_found
    else
      do user_id <- Eff.lift (Request.get result "user_id");
      do_ on_this (_setUserAndToken (or_default (JNum 0) user_id) (JStr token));
      Eff.ret result.

Definition deleteSession : Eff.Eff World unit :=
  do self <- on_this Eff.get;
  do_ on_db (AuthModelSessions.deleteSession driver (token self));
  do_ on_response (Eff.modify (fun response =>
        ResponseHelpers.clearCookie response (cookieName self)));
  on_this (_setUserAndToken (JNum 0) JNull).

Definition deleteCookie : Eff.Eff World unit :=
  do self <- on_this Eff.get;
  on_response (Eff.modify (fun response =>
    ResponseHelpers.clearCookie response (cookieName self))).

End WithHost.

End AuthControllerSessions.

(* ================================================================== *)
(** * Properties                                                       *)
(* ================================================================== *)

(** ** Strings *)

Lemma append_nil (t : string) : EmptyString +:+ t = t.
Proof. reflexivity. Qed.

Lemma append_cons (c : ascii) (s t : string) :
  String c s +:+ t = String c (s +:+ t).
Proof. reflexivity. Qed.

(** Compute with [replace_char] and [+:+] on texts whose first code units
    are known. *)
Ltac unfold_strings :=
  repeat (progress cbn [replace_char char_eqb Ascii.eqb Bool.eqb]
          || rewrite append_cons
          || rewrite append_nil).

Lemma string_app_empty_r (a : string) : a +:+ EmptyString = a.
Proof. induction a as [| x a IH]; [reflexivity |]. by rewrite append_cons, IH. Qed.

Lemma all_chars_append p s t :
  InputSanitizerTypes.all_chars p (s +:+ t)
  = InputSanitizerTypes.all_chars p s && InputSanitizerTypes.all_chars p t.
Proof.
  induction s as [| c r IH]; [reflexivity |].
  rewrite append_cons. cbn [InputSanitizerTypes.all_chars].
  by rewrite IH, andb_assoc.
Qed.

Lemma all_chars_impl (p q : ascii -> bool) s :
  (∀ c, p c = true → q c = true) →
  InputSanitizerTypes.all_chars p s = true → InputSanitizerTypes.all_chars q s = true.
Proof.
  intros Hpq. induction s as [| c r IH]; [done |].
  cbn [InputSanitizerTypes.all_chars]. intros H. apply andb_prop in H as [Hc Hr].
  by rewrite (Hpq _ Hc), IH.
Qed.

(** ** Regular expressions *)

Section RegexSemantics.
Import Regex.

(** [derives r prev s prev' s']: the expression [r] matches the text that
    lies between [s] and its suffix [s']; [prev] and [prev'] are the code
    units just before the two positions. *)
Inductive derives : regex -> option ascii -> string -> option ascii -> string -> Prop :=
| derives_eps prev s :
    derives Eps prev s prev s
| derives_class (p : ascii -> bool) c prev s :
    p c = true -> derives (Class p) prev (String c s) (Some c) s
| derives_cat r1 r2 prev s prev1 s1 prev2 s2 :
    derives r1 prev s prev1 s1 -> derives r2 prev1 s1 prev2 s2 ->
    derives (Cat r1 r2) prev s prev2 s2
| derives_alt_l r1 r2 prev s prev' s' :
    derives r1 prev s prev' s' -> derives (Alt r1 r2) prev s prev' s'
| derives_alt_r r1 r2 prev s prev' s' :
    derives r2 prev s prev' s' -> derives (Alt r1 r2) prev s prev' s'
| derives_star_stop r prev s :
    derives (Star r) prev s prev s
| derives_star_step r prev s prev1 s1 prev2 s2 :
    derives r prev s prev1 s1 -> derives (Star r) prev1 s1 prev2 s2 ->
    derives (Star r) prev s prev2 s2
| derives_boundary prev s :
    xorb (word_before prev) (word_after s) = true ->
    derives WordBoundary prev s prev s.

Hint Constructors derives : core.

Lemma derives_shorter r prev s prev' s' :
  derives r prev s prev' s' → (String.length s' ≤ String.length s)%nat.
Proof. induction 1; cbn [String.length] in *; lia. Qed.

(** A match that consumes nothing ends where it starts. *)
Lemma derives_still r prev s prev' s' :
  derives r prev s prev' s' →
  String.length s' = String.length s → prev' = prev ∧ s' = s.
Proof.
  induction 1 as [| | r1 r2 prev s prev1 s1 prev2 s2 H1 IH1 H2 IH2 | | |
                  | r prev s prev1 s1 prev2 s2 H1 IH1 H2 IH2 |];
    intros Hlen; try done.
  - cbn [String.length] in Hlen. lia.
  - apply derives_shorter in H1 as Hs1. apply derives_shorter in H2 as Hs2.
    destruct IH1 as [-> ->]; [lia |]. apply IH2. lia.
  - auto.
  - auto.
  - apply derives_shorter in H1 as Hs1. apply derives_shorter in H2 as Hs2.
    destruct IH1 as [-> ->]; [lia |]. apply IH2. lia.
Qed.

Lemma iterate_sound (r : regex) (k : Continuation) :
  (∀ k' prev s, matches r k' prev s = true →
     ∃ prev' s', derives r prev s prev' s' ∧ k' prev' s' = true) →
  ∀ fuel prev s,
    iterate (matches r) k fuel prev s = true →
    ∃ prev' s', derives (Star r) prev s prev' s' ∧ k prev' s' = true.
Proof.
  intros Hr. induction fuel as [| fuel IH]; intros prev s; cbn [iterate].
  - eauto.
  - intros H. apply orb_prop in H as [H | H]; [| eauto].
    apply Hr in H as (prev1 & s1 & H1 & H).
    apply andb_prop in H as [_ H].
    apply IH in H as (prev2 & s2 & H2 & Hk). eauto.
Qed.

(** What the matcher accepts is a match. *)
Lemma matches_sound r :
  ∀ k prev s,
    matches r k prev s = true →
    ∃ prev' s', derives r prev s prev' s' ∧ k prev' s' = true.
Proof.
  induction r as [| p | r1 IH1 r2 IH2 | r1 IH1 r2 IH2 | r IH |];
    intros k prev s; cbn [matches].
  - eauto.
  - destruct s as [| c s]; [done |].
    intros H. apply andb_prop in H as [Hp Hk]. eauto.
  - intros H. apply IH1 in H as (prev1 & s1 & H1 & H).
    apply IH2 in H as (prev2 & s2 & H2 & Hk). eauto.
  - intros H. apply orb_prop in H as [H | H].
    + apply IH1 in H as (prev' & s' & H' & Hk). eauto.
    + apply IH2 in H as (prev' & s' & H' & Hk). eauto.
  - apply (iterate_sound r k IH).
  - intros H. apply andb_prop in H as [Hb Hk]. eauto.
Qed.

Lemma iterate_complete (r : regex) (k : Continuation) :
  (∀ k' prev s prev' s', derives r prev s prev' s' → k' prev' s' = true →
     matches r k' prev s = true) →
  ∀ prev s prev' s',
    derives (Star r) prev s prev' s' → k prev' s' = true →
    ∀ fuel, (String.length s ≤ fuel)%nat →
      iterate (matches r) k fuel prev s = true.
Proof.
  intros Hr prev s prev' s' Hstar.
  remember (Star r) as starred eqn:Hstarred.
  induction Hstar as [| | | | | r0 prev s
                      | r0 prev s prev1 s1 prev2 s2 H1 _ H2 IH2 |];
    try discriminate Hstarred; injection Hstarred as ->;
    intros Hk fuel Hfuel.
  - destruct fuel as [| fuel]; cbn [iterate]; [done |].
    rewrite Hk. apply orb_true_r.
  - pose proof (derives_shorter _ _ _ _ _ H1) as Hshort.
    destruct (decide (String.length s1 = String.length s)) as [Hsame | Hless].
    + destruct (derives_still _ _ _ _ _ H1 Hsame) as [-> ->]. by apply IH2.
    + destruct fuel as [| fuel]; [lia |]. cbn [iterate].
      apply orb_true_intro. left.
      apply (Hr _ _ _ _ _ H1). apply andb_true_intro. split.
      * apply Nat.ltb_lt. lia.
      * apply IH2; [done | done | lia].
Qed.

(** Every match is found, whatever the continuation asks of the rest. *)
Lemma matches_complete r :
  ∀ k prev s prev' s',
    derives r prev s prev' s' → k prev' s' = true → matches r k prev s = true.
Proof.
  induction r as [| p | r1 IH1 r2 IH2 | r1 IH1 r2 IH2 | r IH |];
    intros k prev s prev' s' Hd Hk; cbn [matches].
  - inversion Hd; subst. done.
  - inversion Hd; subst. apply andb_true_intro. done.
  - inversion Hd; subst. eapply IH1; [eassumption |]. eapply IH2; eassumption.
  - inversion Hd; subst; apply orb_true_intro; [left | right]; eauto.
  - by apply (iterate_complete r k IH prev s prev' s' Hd Hk).
  - inversion Hd; subst. apply andb_true_intro. done.
Qed.

(** The positions of a text: here, or further on. *)
Inductive position : option ascii -> string -> option ascii -> string -> Prop :=
| position_here prev s : position prev s prev s
| position_next prev c s prev' s' :
    position (Some c) s prev' s' -> position prev (String c s) prev' s'.

(** [test] answers [true] exactly when the expression matches somewhere
    in the text. *)
Lemma test_iff r s :
  test r s = true
  ↔ ∃ prev0 s0 prev' s', position None s prev0 s0 ∧ derives r prev0 s0 prev' s'.
Proof.
  unfold test. generalize (@None ascii) as prev. revert r.
  induction s as [| c s IH]; intros r prev; cbn [search]; split.
  - rewrite orb_false_r. intros H.
    apply matches_sound in H as (prev' & s' & Hd & _).
    exists prev, EmptyString, prev', s'. split; [constructor | done].
  - intros (prev0 & s0 & prev' & s' & Hpos & Hd).
    inversion Hpos; subst. rewrite orb_false_r.
    by apply (matches_complete r _ _ _ _ _ Hd).
  - intros H. apply orb_prop in H as [H | H].
    + apply matches_sound in H as (prev' & s' & Hd & _).
      exists prev, (String c s), prev', s'. split; [constructor | done].
    + apply IH in H as (prev0 & s0 & prev' & s' & Hpos & Hd).
      exists prev0, s0, prev', s'. split; [by constructor | done].
  - intros (prev0 & s0 & prev' & s' & Hpos & Hd).
    apply orb_true_intro. inversion Hpos; subst.
    + left. by apply (matches_complete r _ _ _ _ _ Hd).
    + right. apply IH. eauto 10.
Qed.

End RegexSemantics.

(** ** The data access layer *)

Example detectSqlInjection_examples :
  InputSanitizer.detectSqlInjection (JStr "x UNION  select y") = true
  ∧ InputSanitizer.detectSqlInjection (JStr "a -- b") = true
  ∧ InputSanitizer.detectSqlInjection (JStr "1 and a = b") = true
  ∧ InputSanitizer.detectSqlInjection (JStr "; drop") = true
  ∧ InputSanitizer.detectSqlInjection (JStr "call sp_help") = true
  ∧ InputSanitizer.detectSqlInjection (JStr "Sysobjects") = true
  ∧ InputSanitizer.detectSqlInjection (JStr "dropped selection") = false
  ∧ InputSanitizer.detectSqlInjection (JStr "wasp_nest") = false
  ∧ InputSanitizer.detectSqlInjection (JStr "a - b") = false
  ∧ InputSanitizer.detectSqlInjection (JStr EmptyString) = false
  ∧ InputSanitizer.detectSqlInjection (JNum 7) = false.
Proof. repeat split; vm_compute; reflexivity. Qed.

Section DataAccess.
Import Database.

(** A string parameter the injection heuristic flags. *)
Definition flagged (param : Param) : Prop :=
  ∃ s, param = ParamValue (JStr s)
       ∧ InputSanitizer.detectSqlInjection (JStr s) = true.

Lemma sanitizeParams_flagged params :
  Exists flagged params → _sanitizeParams params = Throw injection_error.
Proof.
  induction 1 as [param rest (s & -> & Hs) | param rest _ IH];
    cbn [_sanitizeParams].
  - by rewrite Hs.
  - rewrite IH.
    destruct param as [[| | | | | s | |] | ]; try reflexivity.
    by destruct (InputSanitizer.detectSqlInjection (JStr s)).
Qed.

Lemma sanitizeParams_clean params :
  Forall (fun param => ¬ flagged param) params → _sanitizeParams params = Ok params.
Proof.
  induction 1 as [| param rest Hp _ IH]; cbn [_sanitizeParams]; [done |].
  rewrite IH.
  destruct param as [[| | | | | s | |] | ]; try reflexivity.
  destruct (InputSanitizer.detectSqlInjection (JStr s)) eqn:Hs; [| done].
  exfalso. apply Hp. by exists s.
Qed.

Variable driver : Driver.

(** A clean statement on an open connection goes to the store as it is,
    and the store's answer comes back. *)
Lemma query_clean_is_handed sql params this sent :
  connection this = Some sent →
  Forall (fun param => ¬ flagged param) params →
  query driver sql params this
  = (run driver sent (sql, params),
     {| config := config this; connection := Some (sent ++ [(sql, params)]) |}).
Proof.
  intros Hc Hclean. unfold query, Eff.bind, Eff.lift, connection_query.
  rewrite Hc, (sanitizeParams_clean _ Hclean). simpl. by rewrite Hc.
Qed.

End DataAccess.

(** C2. Every string parameter of [query] and [execute] goes through the
    injection heuristic before the statement is bound: when a parameter is
    flagged the call throws and the store is handed nothing; the heuristic
    flags ["1; DROP TABLE users"] and ["' OR 1=1"] and not ["O'Brien"]. *)
Theorem query_rejects_flagged_parameters :
  ∀ (driver : Database.Driver) (sql : string) (params : list Database.Param)
    (this : Database.MySQLDatabase),
    Exists flagged params →
    (∃ e, (Database.query driver sql params this).1 = Throw e)
    ∧ Database.handed (Database.query driver sql params this).2 = Database.handed this
    ∧ (∃ e, (Database.execute driver sql params this).1 = Throw e)
    ∧ Database.handed (Database.execute driver sql params this).2 = Database.handed this
    ∧ InputSanitizer.detectSqlInjection (JStr "1; DROP TABLE users") = true
    ∧ InputSanitizer.detectSqlInjection (JStr "' OR 1=1") = true
    ∧ InputSanitizer.detectSqlInjection (JStr "O'Brien") = false.
Proof.
  intros driver sql params this Hflag.
  assert (Hq : (∃ e, (Database.query driver sql params this).1 = Throw e)
               ∧ Database.handed (Database.query driver sql params this).2
                 = Database.handed this).
  { unfold Database.query, Eff.bind, Eff.lift, Database.handed.
    rewrite (sanitizeParams_flagged _ Hflag).
    destruct (Database.connection this) as [sent |] eqn:Hc; simpl.
    - rewrite Hc. eauto.
    - unfold Database.connect.
      destruct (_ || _); simpl; [rewrite Hc; eauto |].
      destruct (Database.createConnection driver) as [[] | err]; simpl;
        [| rewrite Hc]; eauto. }
  destruct Hq as [Hthrow Hsame].
  repeat split; try assumption; vm_compute; reflexivity.
Qed.

Definition open_database : Database.MySQLDatabase :=
  {| Database.config :=
       {| Database.host := "localhost"; Database.user := "root";
          Database.password := "secret"; Database.database := "api_database" |};
     Database.connection := Some [] |}.

Definition accepting_driver : Database.Driver :=
  {| Database.createConnection := Ok tt;
     Database.run := fun _ _ => Ok (Database.ResultSetHeader 1 0 0) |}.

Lemma query_rejects_flagged_parameters_witness :
  Exists flagged [Database.ParamValue (JNum 7); Database.ParamValue (JStr "' OR 1=1")]
  ∧ Database.handed
      (Database.query accepting_driver "SELECT * FROM users WHERE id = ? AND name = ?"
         [Database.ParamValue (JNum 7); Database.ParamValue (JStr "' OR 1=1")]
         open_database).2 = [].
Proof.
  assert (H : Exists flagged
                [Database.ParamValue (JNum 7); Database.ParamValue (JStr "' OR 1=1")]).
  { apply Exists_cons_tl, Exists_cons_hd. exists "' OR 1=1". split; reflexivity. }
  split; [exact H |].
  exact (proj1 (proj2 (query_rejects_flagged_parameters accepting_driver _ _
                         open_database H))).
Defined.

(** ** The listing queries *)

(** On an open connection [readAll] hands the store the text built from
    its arguments, with no parameter. *)
Lemma ProductsModel_readAll_handed driver offset limit this sent :
  Database.connection this = Some sent →
  Database.handed (ProductsModel.readAll driver offset limit this).2
  = sent ++ [(ProductsModel.readAll_sql offset limit, [])].
Proof.
  intros Hc. unfold ProductsModel.readAll.
  rewrite (query_clean_is_handed driver _ [] this sent Hc); [done | constructor].
Qed.

Lemma OrdersModel_readAll_handed driver offset limit this sent :
  Database.connection this = Some sent →
  Database.handed (OrdersModel.readAll driver offset limit this).2
  = sent ++ [(OrdersModel.readAll_sql offset limit, [])].
Proof.
  intros Hc. unfold OrdersModel.readAll.
  rewrite (query_clean_is_handed driver _ [] this sent Hc); [done | constructor].
Qed.

(** C3. The claim is that the text handed to the store by the listing
    operations is the same for all pagination values.  In the code the
    values are written into the text: for (0, 10) and (5, 20) the two
    listings hand over different texts, each with an empty parameter
    list, while the sibling [read] binds its argument to a placeholder. *)
Theorem readAll_interpolates_pagination :
  Database.handed
    (ProductsModel.readAll accepting_driver (JNum 0) (JNum 10) open_database).2
  = [("SELECT * FROM products LIMIT 0, 10", [])]
  ∧ Database.handed
      (ProductsModel.readAll accepting_driver (JNum 5) (JNum 20) open_database).2
    = [("SELECT * FROM products LIMIT 5, 20", [])]
  ∧ Database.handed
      (OrdersModel.readAll accepting_driver (JNum 0) (JNum 10) open_database).2
    = [("SELECT * FROM orders LIMIT 0, 10", [])]
  ∧ Database.handed
      (OrdersModel.readAll accepting_driver (JNum 5) (JNum 20) open_database).2
    = [("SELECT * FROM orders LIMIT 5, 20", [])]
  ∧ Database.handed
      (ProductsModel.read accepting_driver (JNum 5) open_database).2
    = [("SELECT * FROM products WHERE id = ?", [Database.ParamValue (JNum 5)])].
Proof. repeat split; vm_compute; reflexivity. Qed.

(** ** Sessions *)

Section Sessions.
Variable Date_parse : string -> JsDate.
Variable random_base64 : string.

(** The argument of [new Date] is a text that mentions neither the clock
    nor the session duration. *)
Lemma getSessionExpiration_argument this :
  AuthController._getSessionExpiration Date_parse this
  = Date_parse "function now() { [native code] }undefined".
Proof. reflexivity. Qed.

Definition fresh_world : AuthController.World :=
  {| AuthController.this := AuthController.constructor (JStr EmptyString);
     AuthController.response := Response.constructor;
     AuthController.db := open_database |}.

Definition refusing_driver : Database.Driver :=
  {| Database.createConnection := Ok tt;
     Database.run := fun _ _ => Ok (Database.ResultSetHeader 0 0 0) |}.

End Sessions.

(** C4. The claim is that [createSession] stores an expiration 14 days
    after the creation time and sets a cookie whose max-age is that
    horizon.  For user 7 the code binds, as [expires_at], the date read
    from the text ["function now() { [native code] }undefined"], whatever
    the host's [Date.parse]; the cookie carries [Max-Age=1209600000], the
    duration in milliseconds.  When the store reports no affected row the
    call throws an [AuthenticationException] and sets no cookie. *)
Theorem createSession_expiration_is_not_computed :
  ∀ (Date_parse : string -> JsDate),
    let token := "q2-_dA==" in
    let expiresAt := Date_parse "function now() { [native code] }undefined" in
    let stored := AuthController.createSession accepting_driver Date_parse
                    "q2+/dA==" (JNum 7) fresh_world in
    let refused := AuthController.createSession refusing_driver Date_parse
                     "q2+/dA==" (JNum 7) fresh_world in
    stored.1 = Ok (JObj [("token", JStr token); ("userId", JNum 7)])
    ∧ Database.handed (AuthController.db stored.2)
      = [(AuthModel.createSession_sql,
          [Database.ParamValue (JNum 7); Database.ParamValue (JStr token);
           Database.ParamDate expiresAt;
           Database.ParamValue (JStr token); Database.ParamDate expiresAt])]
    ∧ Response.headers (AuthController.response stored.2) !! "Set-Cookie"
      = Some "simple_app_cookie=q2-_dA==; Max-Age=1209600000; Path=/; HttpOnly; Secure; SameSite=Lax"
    ∧ refused.1 = Throw (ApiError AuthenticationException
                           "Unable to create user session." None 401)
    ∧ Response.headers (AuthController.response refused.2) !! "Set-Cookie" = None.
Proof.
  intros Date_parse. repeat split; vm_compute; reflexivity.
Qed.

(** ** The dispatcher *)

Section Dispatcher.
Variable NODE_ENV : option string.

(** The status line an error is answered with. *)
Definition http_status (error : JsError) : Z :=
  match error with
  | ApiError _ _ _ code => code
  | NativeError _ _ => 500
  end.

(** The envelope an error is answered with: the message is a member only
    in development mode. *)
Definition envelope (error : JsError) : JsValue :=
  let label :=
    match error with
    | ApiError cls _ _ _ => Exceptions.class_name cls
    | NativeError _ _ => "Internal Server Error"
    end in
  let status :=
    match error with
    | ApiError _ _ _ code => if code =? 0 then 500 else code
    | NativeError _ _ => 500
    end in
  JObj ([("error", JStr label); ("status", JNum status)]
        ++ if Server.development NODE_ENV
           then [("message", JStr (Exceptions.message error))]
           else []).

Lemma catch_block_answers error response :
  Response.wire response = None →
  Server.catch_block NODE_ENV error response
  = (Ok tt,
     {| Response.statusCode := http_status error;
        Response.headers :=
          <["Content-Type" := "application/json"]> (Response.headers response);
        Response.wire :=
          Some (http_status error,
                <["Content-Type" := "application/json"]> (Response.headers response)
                  ∪ Response.cors_headers,
                default EmptyString (stringify (envelope error))) |}).
Proof.
  intros Hwire.
  unfold Server.catch_block, envelope, Server.exposed_message, Server.code_or_500.
  destruct error as [name message | cls message vars code];
    destruct (Server.development NODE_ENV);
    cbn -[stringify pretty]; unfold Response.json, Response.send;
    cbn -[stringify pretty]; rewrite Hwire;
    try (destruct (code =? 0); cbn -[pretty]); reflexivity.
Qed.

End Dispatcher.

(** C5. The claim is that every error thrown while a request is handled
    is answered with a JSON envelope.  A body that [JSON.parse] rejects,
    sent as [application/json] with a method other than [GET] and
    [DELETE], is not: the [end] listener of [parseBody] throws a
    [ReferenceError] of its own, the promise is never settled and
    [handleRequest] stays at its [await] with nothing written to the
    response; an address [new URL] rejects makes [handleRequest] throw
    before its [try], again with nothing written.  For an error that does
    come out of the [try] block before anything was written, the envelope
    is as claimed: the status line is the error's own code for the classes
    of [exceptions/] (401, 400, 422, 404, 404, 405) and 500 for any other
    error, and the message is part of the envelope in development mode
    only. *)
Theorem dispatcher_leaves_malformed_json_unanswered :
  ∀ (NODE_ENV : option string) (load : string -> result (string -> option Server.Action))
    (router : Router.Router) (JSON_parse : string -> result JsValue)
    (querystring_parse : string -> list (string * JsValue))
    (request : Request.Request) (contentType text pathname : string)
    (response : Response.Response) (syntax_error : JsError),
    Request.method request ∉ ["GET"; "DELETE"] →
    Request.includes "application/json" contentType = true →
    text ≠ EmptyString →
    (N.of_nat (String.length text) ≤ Request.maxBodySize)%N →
    JSON_parse text = Throw syntax_error →
    Server.listener NODE_ENV load router (Ok pathname)
      (Request.parseBody JSON_parse querystring_parse request (Some contentType)
         (Request.Complete text))
      response
    = (Server.Suspended (NativeError "ReferenceError" "error is not defined"), response)
    ∧ (∀ url_error settled,
         Server.listener NODE_ENV load router (Throw url_error) settled response
         = (Server.Threw url_error, response))
    ∧ (∀ parsed thrown_at error,
         Server.try_block load router parsed pathname response = (Throw error, thrown_at) →
         Response.wire thrown_at = None →
         ∃ answered,
           Server.handleRequest NODE_ENV load router parsed pathname response
           = (Ok tt, answered)
           ∧ Response.statusCode answered = http_status error
           ∧ Response.wire answered
             = Some (http_status error,
                     <["Content-Type" := "application/json"]> (Response.headers thrown_at)
                       ∪ Response.cors_headers,
                     default EmptyString (stringify (envelope NODE_ENV error))))
    ∧ (∀ name message, http_status (NativeError name message) = 500)
    ∧ (∀ message vars,
          http_status (Exceptions.new_AuthenticationException message vars) = 401
          ∧ http_status (Exceptions.new_MissingParametersException message vars) = 400
          ∧ http_status (Exceptions.new_ValidationException message vars) = 422
          ∧ http_status (Exceptions.new_NotFoundException message vars) = 404
          ∧ http_status (Exceptions.new_MethodNotFoundException message vars) = 404
          ∧ http_status (Exceptions.new_MethodNotAllowedException message vars) = 405)
    ∧ (∀ error, NODE_ENV = Some "development" →
       ∃ label status,
         envelope NODE_ENV error
         = JObj [("error", JStr label); ("status", JNum status);
                 ("message", JStr (Exceptions.message error))])
    ∧ (∀ error, NODE_ENV ≠ Some "development" →
       ∃ label status,
         envelope NODE_ENV error
         = JObj [("error", JStr label); ("status", JNum status)]).
Proof.
  intros NODE_ENV load router JSON_parse querystring_parse request contentType text
    pathname response syntax_error Hmethod Hjson Htext Hsize Hparse.
  split; [| split; [| split; [| split; [| split; [| split]]]]].
  - unfold Server.listener, Request.parseBody.
    rewrite !elem_of_cons, elem_of_nil in Hmethod.
    assert (String.eqb (Request.method request) "GET" = false) as ->
      by (apply String.eqb_neq; tauto).
    assert (String.eqb (Request.method request) "DELETE" = false) as ->
      by (apply String.eqb_neq; tauto).
    cbn [orb].
    change (default EmptyString (Some contentType)) with contentType.
    rewrite (proj2 (N.ltb_ge _ _) Hsize), Hjson,
      (proj2 (String.eqb_neq _ _) Htext), Hparse.
    reflexivity.
  - reflexivity.
  - intros parsed thrown_at error Htry Hwire.
    eexists. unfold Server.handleRequest, Eff.try_catch. rewrite Htry.
    rewrite (catch_block_answers NODE_ENV error thrown_at Hwire).
    repeat split; reflexivity.
  - reflexivity.
  - intros message vars. repeat split.
  - intros error ->. unfold envelope. cbn [Server.development].
    rewrite (proj2 (String.eqb_eq _ _) eq_refl). cbn [app]. eauto.
  - intros error Hmode. unfold envelope.
    assert (Server.development NODE_ENV = false) as ->; [| cbn [app]; eauto].
    unfold Server.development. destruct NODE_ENV as [mode |]; [| done].
    destruct (String.eqb mode "development") eqn:Heq; [| done].
    apply String.eqb_eq in Heq. congruence.
Qed.

Definition no_controllers : string -> result (string -> option Server.Action) :=
  fun _ => Throw (NativeError "Error" "Cannot find module").

(** A stand-in for [JSON.parse] on two texts: the empty object, and
    anything else taken as malformed. *)
Definition parse_empty_object (text : string) : result JsValue :=
  if String.eqb text "{}" then Ok (JObj [])
  else Throw (NativeError "SyntaxError" "Unexpected token in JSON").

Definition login_post : Request.Request :=
  {| Request.method := "POST"; Request.query := ∅; Request.params := ∅;
     Request.body := Request.BodyValue (JObj []) |}.

Lemma dispatcher_leaves_malformed_json_unanswered_witness :
  Server.listener (Some "production") no_controllers Router.constructor
    (Ok "/api/v1/auth/login")
    (Request.parseBody parse_empty_object (fun _ => []) login_post
       (Some "application/json") (Request.Complete "{email:"))
    Response.constructor
  = (Server.Suspended (NativeError "ReferenceError" "error is not defined"),
     Response.constructor).
Proof.
  apply (dispatcher_leaves_malformed_json_unanswered (Some "production") no_controllers
           Router.constructor parse_empty_object (fun _ => []) login_post
           "application/json" "{email:" "/api/v1/auth/login" Response.constructor
           (NativeError "SyntaxError" "Unexpected token in JSON")).
  - rewrite !elem_of_cons, elem_of_nil. intros [H | [H | []]]; discriminate H.
  - reflexivity.
  - discriminate.
  - vm_compute. discriminate.
  - reflexivity.
Defined.

(** ** [sanitizeBoolean] *)

(** The words that count as true. *)
Definition true_words : list string := ["true"; "1"; "yes"].

(** The claim about [sanitizeBoolean], as it is worded: [true] exactly for
    the boolean [true] and the three words, the caller's default for [null]
    and [undefined], [false] for anything else. *)
Definition sanitizeBoolean_claimed (value : JsValue) (options : InputSanitizer.Options)
  : Prop :=
  (InputSanitizer.sanitizeBoolean value options = JBool true
   ↔ value = JBool true ∨ ∃ s, value = JStr s ∧ toLowerCase s ∈ true_words)
  ∧ (is_nullish value = true
     → InputSanitizer.sanitizeBoolean value options = InputSanitizer.opt_default options)
  ∧ (is_nullish value = false
     → ¬ (value = JBool true ∨ ∃ s, value = JStr s ∧ toLowerCase s ∈ true_words)
     → InputSanitizer.sanitizeBoolean value options = JBool false).

Lemma true_word_test s :
  (String.eqb s "true" || String.eqb s "1" || String.eqb s "yes")
  = bool_decide (s ∈ true_words).
Proof.
  unfold true_words.
  destruct (String.eqb s "true") eqn:H1; [apply String.eqb_eq in H1 |
  destruct (String.eqb s "1") eqn:H2; [apply String.eqb_eq in H2 |
  destruct (String.eqb s "yes") eqn:H3; [apply String.eqb_eq in H3 |]]];
    subst; symmetry.
  - apply bool_decide_eq_true. set_solver.
  - apply bool_decide_eq_true. set_solver.
  - apply bool_decide_eq_true. set_solver.
  - apply bool_decide_eq_false.
    apply String.eqb_neq in H1, H2, H3.
    rewrite !elem_of_cons, elem_of_nil. intros [-> | [-> | [-> | []]]]; congruence.
Qed.

(** C7, counterexample to the claim as worded.  The number 1 is neither
    the boolean [true] nor one of the words, and
    [sanitizeBoolean] answers [true] for it. *)
Lemma sanitizeBoolean_number_counterexample :
  ¬ sanitizeBoolean_claimed (JNum 1) InputSanitizer.no_options.
Proof.
  intros [Hiff _].
  destruct (proj1 Hiff eq_refl) as [Heq | (s & Heq & _)]; discriminate Heq.
Qed.

(** C7, amended. [sanitizeBoolean] answers [true] for the boolean [true]
    and for a string that is "true", "1" or "yes" up to case, [false] for
    any other string, the truthiness of a number, an array or an object,
    and, for [null] and [undefined], the caller's default when that is
    truthy and [null] otherwise.  (Nothing is said of the boolean
    [false].) *)
Theorem sanitizeBoolean_by_design :
  ∀ (value : JsValue) (options : InputSanitizer.Options),
    value ≠ JBool false →
    match value with
    | JNull | JUndefined =>
        InputSanitizer.sanitizeBoolean value options
        = if truthy (InputSanitizer.opt_default options)
          then InputSanitizer.opt_default options else JNull
    | JStr s =>
        InputSanitizer.sanitizeBoolean value options
        = JBool (bool_decide (toLowerCase s ∈ true_words))
    | _ =>
        InputSanitizer.sanitizeBoolean value options = JBool (truthy value)
    end.
Proof.
  intros value options Hvalue.
  destruct value as [| | [|] | n | | s | items | props]; try reflexivity.
  - congruence.
  - cbn [InputSanitizer.sanitizeBoolean]. by rewrite true_word_test.
Qed.

Lemma sanitizeBoolean_by_design_witness :
  InputSanitizer.sanitizeBoolean (JStr "YES") InputSanitizer.no_options
  = JBool (bool_decide (toLowerCase "YES" ∈ true_words)).
Proof.
  apply (sanitizeBoolean_by_design (JStr "YES") InputSanitizer.no_options).
  discriminate.
Defined.

(** ** The typed lookup *)

(** C10. The claim is that [getSanitizedInput] with type ['string'] answers
    the empty string, not the default, for a key absent from the query,
    the route parameters and the body.  [getValue] decides absence by
    calling [hasOwnProperty] on the three objects, and the object
    [querystring.parse] makes of a form-encoded body has no such method:
    for every key absent from the query and the parameters the call
    throws a [TypeError], whatever the form holds.  On a JSON object body
    the result is the empty string as claimed, as long as no member of the
    three objects is itself named [hasOwnProperty]. *)
Theorem getSanitizedInput_absent_key_throws_on_form_body :
  ∀ (others : string -> JsValue -> InputSanitizer.Options -> JsValue)
    (req : Request.Request) (key : string) (defaultValue : JsValue)
    (options : InputSanitizer.Options),
    Request.query req !! "hasOwnProperty" = None →
    Request.query req !! key = None →
    Request.params req !! "hasOwnProperty" = None →
    Request.params req !! key = None →
    (∀ (JSON_parse : string -> result JsValue)
       (querystring_parse : string -> list (string * JsValue))
       (contentType text : string),
       Request.method req ∉ ["GET"; "DELETE"] →
       (N.of_nat (String.length text) ≤ Request.maxBodySize)%N →
       Request.includes "application/json" contentType = false →
       Request.includes "application/x-www-form-urlencoded" contentType = true →
       ∃ parsed,
         Request.parseBody JSON_parse querystring_parse req (Some contentType)
           (Request.Complete text)
         = Request.Resolved parsed
         ∧ Request.body parsed = Request.BodyForm (querystring_parse text)
         ∧ Request.getSanitizedInput others parsed key defaultValue "string" options
           = Throw (NativeError "TypeError" "this.body.hasOwnProperty is not a function"))
    ∧ (∀ fields,
         Request.getSanitizedInput others (Request.setBody req (Request.BodyForm fields))
           key defaultValue "string" options
         = Throw (NativeError "TypeError" "this.body.hasOwnProperty is not a function"))
    ∧ (∀ props,
         assoc "hasOwnProperty" props = None →
         assoc key props = None →
         Request.getSanitizedInput others
           (Request.setBody req (Request.BodyValue (JObj props)))
           key defaultValue "string" options
         = Ok (JStr EmptyString)).
Proof.
  intros others req key defaultValue options Hq0 Hq Hp0 Hp.
  assert (∀ b, Request.getValue (Request.setBody req b) key defaultValue
               = match Request.body_hasOwnProperty b key with
                 | Ok true => Request.getBody (Request.setBody req b) key defaultValue
                 | Ok false => Ok JUndefined
                 | Throw e => Throw e
                 end) as Hvalue.
  { intros b. unfold Request.getValue, Request.object_hasOwnProperty, Request.setBody.
    cbn [Request.query Request.params Request.body].
    rewrite Hq0, Hq, Hp0, Hp.
    rewrite !bool_decide_eq_false_2 by (intros [? ?]; discriminate).
    reflexivity. }
  split; [| split].
  - intros JSON_parse querystring_parse contentType text Hmethod Hsize Hjson Hform.
    exists (Request.setBody req (Request.BodyForm (querystring_parse text))).
    split; [| split; [reflexivity |]].
    + unfold Request.parseBody.
      rewrite !elem_of_cons, elem_of_nil in Hmethod.
      assert (String.eqb (Request.method req) "GET" = false) as ->
        by (apply String.eqb_neq; tauto).
      assert (String.eqb (Request.method req) "DELETE" = false) as ->
        by (apply String.eqb_neq; tauto).
      cbn [orb].
      change (default EmptyString (Some contentType)) with contentType.
      by rewrite (proj2 (N.ltb_ge _ _) Hsize), Hjson, Hform.
    + unfold Request.getSanitizedInput. by rewrite Hvalue.
  - intros fields. unfold Request.getSanitizedInput. by rewrite Hvalue.
  - intros props Hshadow Hkey. unfold Request.getSanitizedInput.
    rewrite Hvalue. cbn [Request.body_hasOwnProperty Request.hasOwnProperty].
    rewrite Hshadow, Hkey.
    rewrite !bool_decide_eq_false_2 by (intros [? ?]; discriminate).
    reflexivity.
Qed.

Definition empty_post : Request.Request :=
  {| Request.method := "POST"; Request.query := ∅; Request.params := ∅;
     Request.body := Request.BodyValue (JObj []) |}.

(** [querystring.parse] on one text. *)
Definition parse_one_form (text : string) : list (string * JsValue) :=
  if String.eqb text "email=a%40b.c" then [("email", JStr "a@b.c")] else [].

Lemma getSanitizedInput_absent_key_throws_on_form_body_witness :
  ∃ parsed,
    Request.parseBody (fun _ => Ok JNull) parse_one_form empty_post
      (Some "application/x-www-form-urlencoded") (Request.Complete "email=a%40b.c")
    = Request.Resolved parsed
    ∧ Request.body parsed = Request.BodyForm (parse_one_form "email=a%40b.c")
    ∧ Request.getSanitizedInput (fun _ value _ => value) parsed "name"
        (JStr "anonymous") "string" InputSanitizer.no_options
      = Throw (NativeError "TypeError" "this.body.hasOwnProperty is not a function").
Proof.
  apply (proj1 (getSanitizedInput_absent_key_throws_on_form_body
                  (fun _ value _ => value) empty_post "name" (JStr "anonymous")
                  InputSanitizer.no_options eq_refl eq_refl eq_refl eq_refl)).
  - rewrite !elem_of_cons, elem_of_nil. intros [H | [H | []]]; discriminate H.
  - vm_compute. discriminate.
  - reflexivity.
  - reflexivity.
Defined.

(** ** The report endpoint *)

Section Reports.
Import ReportController.

(** Every name a class of the chain defines. *)
Definition method_names : list string :=
  ["constructor"; "index"; "orderStats"; "topProducts"; "recentOrders";
   "authenticate"; "createSession"; "deleteSession"; "isAuthenticated";
   "deleteCookie"; "_setUserAndToken"; "_getToken"; "_getSessionExpiration";
   "_generateToken"; "hasOwnProperty"; "isPrototypeOf"; "propertyIsEnumerable";
   "toLocaleString"; "toString"; "valueOf"; "__defineGetter__";
   "__defineSetter__"; "__lookupGetter__"; "__lookupSetter__"].

Lemma is_function_named name : is_function name = true → In name method_names.
Proof.
  unfold is_function. intros H. apply andb_prop in H as [_ H].
  cbn [has_method ReportController_ AuthController_ BaseController_ Object_
       mem existsb] in H.
  repeat (apply orb_prop in H as [H | H]); try discriminate;
    apply String.eqb_eq in H; subst name; unfold method_names; simpl; tauto.
Qed.

(** The name of a function member has nothing [sanitize] would change. *)
Lemma function_name_unescaped name :
  is_function name = true → Request.escape name = name.
Proof.
  intros H. apply is_function_named in H. unfold method_names in H.
  simpl in H.
  repeat (destruct H as [<- | H]; [vm_compute; reflexivity |]).
  destruct H.
Qed.

Lemma index_decides req reportId :
  Request.params req !! "reportId" = Some (JStr reportId) →
  index req
  = if is_function (Request.escape reportId)
    then Ok (Invoke (Request.escape reportId))
    else Throw (Exceptions.new_NotFoundException (Some "Report not found") None).
Proof.
  intros Hp. unfold index, Request.getParam, Request.input, Request.source_get.
  cbn [String.eqb Ascii.eqb Bool.eqb]. unfold Request.read. rewrite Hp.
  reflexivity.
Qed.

End Reports.

(** C9. [index] goes by the [reportId] path parameter as [getParam] returns
    it, that is escaped and trimmed: when that text names a function
    member of the controller, [index] calls that member, be it a report, a
    method of [AuthController] such as [authenticate] or [deleteSession],
    or an inherited helper; when it does not, and only then, [index]
    throws a [NotFoundException] with code 404.  The name of a function
    member is left as it is by the escaping. *)
Theorem report_index_dispatches_any_function_member :
  ∀ (req : Request.Request) (reportId : string),
    Request.params req !! "reportId" = Some (JStr reportId) →
    (ReportController.is_function reportId = true
     → ReportController.index req = Ok (ReportController.Invoke reportId))
    ∧ (∀ e, ReportController.index req = Throw e
            → ReportController.is_function reportId = false
              ∧ e = ApiError NotFoundException "Report not found" None 404)
    ∧ (ReportController.is_function (Request.escape reportId) = true
       → ReportController.index req
         = Ok (ReportController.Invoke (Request.escape reportId)))
    ∧ (ReportController.is_function (Request.escape reportId) = false
       → ReportController.index req
         = Throw (ApiError NotFoundException "Report not found" None 404))
    ∧ ReportController.is_function "orderStats" = true
    ∧ ReportController.is_function "authenticate" = true
    ∧ ReportController.is_function "deleteSession" = true
    ∧ ReportController.is_function "createSession" = true
    ∧ ReportController.is_function "_generateToken" = true
    ∧ ReportController.is_function "toString" = true
    ∧ ReportController.is_function "sessionTimeout" = false
    ∧ ReportController.is_function "salesByRegion" = false.
Proof.
  intros req reportId Hp. rewrite (index_decides req reportId Hp).
  split; [| split; [| split; [| split]]].
  - intros Hf. rewrite (function_name_unescaped _ Hf), Hf. reflexivity.
  - intros e H. split.
    + destruct (ReportController.is_function reportId) eqn:Hf; [| reflexivity].
      rewrite (function_name_unescaped _ Hf), Hf in H. discriminate H.
    + destruct (ReportController.is_function (Request.escape reportId));
        [discriminate H |].
      injection H as <-. reflexivity.
  - intros ->. reflexivity.
  - intros ->. reflexivity.
  - repeat split; vm_compute; reflexivity.
Qed.

Definition report_request (reportId : string) : Request.Request :=
  {| Request.method := "GET"; Request.query := ∅;
     Request.params := {[ "reportId" := JStr reportId ]};
     Request.body := Request.BodyValue (JObj []) |}.

Lemma report_index_dispatches_any_function_member_witness :
  ReportController.index (report_request "deleteSession")
  = Ok (ReportController.Invoke "deleteSession")
  ∧ ReportController.index (report_request "salesByRegion")
    = Throw (ApiError NotFoundException "Report not found" None 404).
Proof.
  split.
  - apply (proj1 (report_index_dispatches_any_function_member
                    (report_request "deleteSession") "deleteSession" eq_refl)).
    reflexivity.
  - apply (proj1 (proj2 (proj2 (proj2
             (report_index_dispatches_any_function_member
                (report_request "salesByRegion") "salesByRegion" eq_refl))))).
    reflexivity.
Defined.

(** ** [input] *)

Section Input.

(** What [sanitize] makes of one code unit: a single quote is doubled, a
    backslash is doubled, a null code unit becomes a backslash and a
    zero; any other code unit is kept. *)
Definition escape_unit (c : ascii) : string :=
  if char_eqb c "'" then "''"
  else if char_eqb c "\" then "\\"
  else if char_eqb c "000" then "\0"
  else String c EmptyString.

Fixpoint expand (s : string) : string :=
  match s with
  | EmptyString => EmptyString
  | String c r => escape_unit c +:+ expand r
  end.

(** The three replacements in a row act as one pass over the text. *)
Lemma replacements_expand s :
  replace_char "000" "\0" (replace_char "\" "\\" (replace_char "'" "''" s))
  = expand s.
Proof.
  induction s as [| c r IH]; [reflexivity |].
  cbn [replace_char expand]. unfold escape_unit.
  destruct (char_eqb c "'") eqn:Hq.
  { apply Ascii.eqb_eq in Hq. subst c. unfold_strings. by rewrite IH. }
  cbn [replace_char]. destruct (char_eqb c "\") eqn:Hb.
  { apply Ascii.eqb_eq in Hb. subst c. unfold_strings. by rewrite IH. }
  cbn [replace_char]. destruct (char_eqb c "000") eqn:Hn.
  { apply Ascii.eqb_eq in Hn. subst c. unfold_strings. by rewrite IH. }
  unfold_strings. by rewrite IH.
Qed.

Lemma escape_expand s : Request.escape s = trim (expand s).
Proof. unfold Request.escape. by rewrite replacements_expand. Qed.

(** The sanitization the claim words: tags stripped, null code units
    removed, the text trimmed, through arrays and objects. *)
Fixpoint claimed_sanitize (value : JsValue) : JsValue :=
  match value with
  | JStr s =>
      JStr (trim (InputSanitizer.remove_nulls (InputSanitizer._stripHtmlTags s)))
  | JArr items => JArr (map claimed_sanitize items)
  | JObj props => JObj (map (fun kv => (fst kv, claimed_sanitize (snd kv))) props)
  | _ => value
  end.

Definition input_claimed (req : Request.Request) (key : string)
           (defaultValue : JsValue) (source : string) : Prop :=
  ∀ value,
    Request.source_get req source key = Ok value →
    is_nullish value = false →
    Request.input req key defaultValue source = Ok (claimed_sanitize value).

(** The sources [input] reads a property of: the query and the route
    parameters, which are plain objects, and a body that is one, the
    object of a JSON text or the fields of a form. *)
Definition object_source (req : Request.Request) (source : string) : Prop :=
  source = "query" ∨ source = "params"
  ∨ match Request.body req with
    | Request.BodyForm _ | Request.BodyValue (JObj _) => True
    | _ => False
    end.

Definition markup_post : Request.Request :=
  {| Request.method := "POST"; Request.query := ∅; Request.params := ∅;
     Request.body := Request.BodyValue (JObj [("name", JStr "<b>Al</b>")]) |}.

End Input.




(** ** [sanitizeString] *)

Example sanitizeString_examples :
  InputSanitizer.sanitizeString (JStr "  <script>alert(1)</script> hi ")
    InputSanitizer.no_options = "alert(1) hi"
  ∧ InputSanitizer.sanitizeString (JStr "a < b and c > d") InputSanitizer.no_options
    = "a  d"
  ∧ InputSanitizer.sanitizeString (JStr "2 > 1 <") InputSanitizer.no_options
    = "2 > 1 <"
  ∧ InputSanitizer.sanitizeString (JNum 42) InputSanitizer.no_options = "42"
  ∧ InputSanitizer.sanitizeString JNull InputSanitizer.no_options = EmptyString
  ∧ InputSanitizer.sanitizeString (JStr "abcdef")
      {| InputSanitizer.opt_trim := true; InputSanitizer.opt_allowHtml := false;
         InputSanitizer.opt_maxLength := Some 3%nat;
         InputSanitizer.opt_default := JUndefined |} = "abc".
Proof. repeat split; vm_compute; reflexivity. Qed.

Section SanitizeString.
Import InputSanitizer.

(** [t] is [s] with some code units left out. *)
Inductive subtext : string -> string -> Prop :=
| subtext_nil : subtext EmptyString EmptyString
| subtext_skip c t s : subtext t s -> subtext t (String c s)
| subtext_keep c t s : subtext t s -> subtext (String c t) (String c s).

Hint Constructors subtext : core.

Lemma subtext_refl s : subtext s s.
Proof. induction s; auto. Qed.

Lemma subtext_empty s : subtext EmptyString s.
Proof. induction s; auto. Qed.

Lemma subtext_trans t u s : subtext t u → subtext u s → subtext t s.
Proof.
  intros H1 H2. revert t H1.
  induction H2 as [| c u s _ IH | c u s _ IH]; intros t H1; [done | auto |].
  inversion H1; subst; auto.
Qed.

Lemma subtext_contains c t s :
  subtext t s → contains_char c t = true → contains_char c s = true.
Proof.
  induction 1 as [| d t s _ IH | d t s _ IH]; cbn [contains_char]; [done | |].
  - intros H. rewrite (IH H). apply orb_true_r.
  - intros H. apply orb_prop in H as [-> | H]; [done |].
    rewrite (IH H). apply orb_true_r.
Qed.

Lemma subtext_length t s : subtext t s → (String.length t ≤ String.length s)%nat.
Proof. induction 1; simpl; lia. Qed.

Lemma subtext_replace_empty c s : subtext (replace_char c EmptyString s) s.
Proof.
  induction s as [| d r IH]; cbn [replace_char]; [auto |].
  destruct (char_eqb d c); [rewrite append_nil |]; auto.
Qed.

Lemma subtext_prefix n s : subtext (prefix n s) s.
Proof.
  revert s. induction n as [| n IH]; intros [| c r]; cbn [prefix]; auto.
  apply subtext_empty.
Qed.

Lemma subtext_trimStart s : subtext (trimStart s) s.
Proof.
  induction s as [| c r IH]; cbn [trimStart]; [auto |].
  destruct (is_space c); [auto | apply subtext_refl].
Qed.

Lemma subtext_trimEnd s : subtext (trimEnd s) s.
Proof.
  induction s as [| c r IH]; cbn [trimEnd]; [auto |].
  destruct (trimEnd r) as [| d r'].
  - destruct (is_space c); [apply subtext_empty | auto].
  - auto.
Qed.

(** No [<] of the text has a [>] after it: the pattern of
    [_stripHtmlTags] matches nowhere. *)
Fixpoint tagless (s : string) : bool :=
  match s with
  | EmptyString => true
  | String c r => negb (char_eqb c "<" && contains_char ">" r) && tagless r
  end.

Lemma strip_contains b s :
  contains_char ">" (strip_from b s) = true → contains_char ">" s = true.
Proof.
  revert b. induction s as [| c r IH]; intros b; cbn [strip_from contains_char];
    [by destruct b |].
  destruct b.
  - destruct (char_eqb c ">"); [done |].
    intros H. by rewrite (IH _ H).
  - destruct (char_eqb c "<" && contains_char ">" r) eqn:Htag.
    + intros H. rewrite (IH _ H). apply orb_true_r.
    + cbn [contains_char]. intros H.
      apply orb_prop in H as [-> | H]; [done |].
      rewrite (IH _ H). apply orb_true_r.
Qed.

Lemma strip_tagless b s : tagless (strip_from b s) = true.
Proof.
  revert b. induction s as [| c r IH]; intros b; cbn [strip_from];
    [by destruct b |].
  destruct b.
  - destruct (char_eqb c ">"); apply IH.
  - destruct (char_eqb c "<" && contains_char ">" r) eqn:Htag; [apply IH |].
    cbn [tagless]. rewrite IH, andb_true_r.
    apply negb_true_iff, andb_false_iff.
    apply andb_false_iff in Htag as [Hc | Hr]; [by left | right].
    destruct (contains_char ">" (strip_from false r)) eqn:Hs; [| done].
    by rewrite (strip_contains _ _ Hs) in Hr.
Qed.

Lemma tagless_strip s : tagless s = true → _stripHtmlTags s = s.
Proof.
  unfold _stripHtmlTags.
  induction s as [| c r IH]; cbn [tagless strip_from]; [done |].
  intros H. apply andb_prop in H as [Hc Hr].
  apply negb_true_iff in Hc. rewrite Hc. by rewrite (IH Hr).
Qed.

Lemma tagless_subtext t s : subtext t s → tagless s = true → tagless t = true.
Proof.
  induction 1 as [| c t s _ IH | c t s Hsub IH]; cbn [tagless]; [done | |].
  - intros H. apply andb_prop in H as [_ Hs]. auto.
  - intros H. apply andb_prop in H as [Hc Hs].
    rewrite (IH Hs), andb_true_r.
    apply negb_true_iff, andb_false_iff.
    apply negb_true_iff, andb_false_iff in Hc as [Hc | Hr]; [by left | right].
    destruct (contains_char ">" t) eqn:Ht; [| done].
    by rewrite (subtext_contains _ _ _ Hsub Ht) in Hr.
Qed.

(** Null code units. *)
Lemma remove_nulls_clean s : contains_char "000" (remove_nulls s) = false.
Proof.
  unfold remove_nulls.
  induction s as [| c r IH]; cbn [replace_char contains_char]; [done |].
  destruct (char_eqb c "000") eqn:Hc; [by rewrite append_nil |].
  cbn [contains_char]. by rewrite Hc.
Qed.

Lemma clean_remove_nulls s :
  contains_char "000" s = false → remove_nulls s = s.
Proof.
  unfold remove_nulls.
  induction s as [| c r IH]; cbn [replace_char contains_char]; [done |].
  intros H. apply orb_false_elim in H as [Hc Hr].
  rewrite Hc. by rewrite (IH Hr).
Qed.

Lemma clean_subtext c t s :
  subtext t s → contains_char c s = false → contains_char c t = false.
Proof.
  intros Hsub Hs. destruct (contains_char c t) eqn:Ht; [| done].
  by rewrite (subtext_contains _ _ _ Hsub Ht) in Hs.
Qed.

(** Truncation. *)
Lemma length_prefix n s : String.length (prefix n s) = (n `min` String.length s)%nat.
Proof.
  revert s. induction n as [| n IH]; intros [| c r]; cbn [prefix String.length];
    [done | done | done |].
  rewrite IH. lia.
Qed.

Lemma subtext_truncate m s : subtext (truncate m s) s.
Proof.
  unfold truncate. destruct m as [m |]; [| apply subtext_refl].
  destruct (_ && _); [apply subtext_prefix | apply subtext_refl].
Qed.

Lemma truncate_short m t s :
  (String.length t ≤ String.length (truncate m s))%nat → truncate m t = t.
Proof.
  unfold truncate. destruct m as [m |]; [| done].
  destruct ((0 <? m)%nat && (m <? String.length s)%nat) eqn:Hs.
  - rewrite length_prefix. intros Hlen.
    assert ((m <? String.length t)%nat = false) as ->
      by (apply Nat.ltb_ge; lia).
    by rewrite andb_false_r.
  - intros Hlen.
    destruct ((0 <? m)%nat && (m <? String.length t)%nat) eqn:Ht; [| done].
    apply andb_prop in Ht as [Hm Ht].
    rewrite Hm in Hs. cbn [andb] in Hs.
    apply Nat.ltb_lt in Ht. apply Nat.ltb_ge in Hs. lia.
Qed.

(** What a second pass does to the result of a first one. *)
Lemma sanitizeString_again x options :
  sanitizeString (JStr (sanitizeString (JStr x) options)) options
  = if opt_trim options
    then trim (sanitizeString (JStr x) options)
    else sanitizeString (JStr x) options.
Proof.
  unfold sanitizeString at 1. cbn [is_nullish toString].
  set (once := sanitizeString (JStr x) options).
  set (again := if opt_trim options then trim once else once).
  assert (Hsub : subtext again once).
  { unfold again. destruct (opt_trim options); [| apply subtext_refl].
    unfold trim. eapply subtext_trans;
      [apply subtext_trimEnd | apply subtext_trimStart]. }
  assert (Hnul : contains_char "000" once = false).
  { unfold once, sanitizeString. cbn [is_nullish toString].
    eapply clean_subtext; [apply subtext_truncate | apply remove_nulls_clean]. }
  assert (Hlen : (String.length again ≤ String.length once)%nat)
    by (by apply subtext_length).
  assert (Hstrip : (if opt_allowHtml options then again else _stripHtmlTags again)
                   = again).
  { destruct (opt_allowHtml options) eqn:Hhtml; [done |].
    apply tagless_strip, (tagless_subtext _ _ Hsub).
    unfold once, sanitizeString. cbn [is_nullish toString]. rewrite Hhtml.
    eapply tagless_subtext; [apply subtext_truncate |].
    eapply tagless_subtext; [apply subtext_replace_empty |].
    apply strip_tagless. }
  fold again. rewrite Hstrip.
  rewrite (clean_remove_nulls again (clean_subtext _ _ _ Hsub Hnul)).
  unfold once, sanitizeString in Hlen. cbn [is_nullish toString] in Hlen.
  exact (truncate_short _ _ _ Hlen).
Qed.

End SanitizeString.

(** C8, counterexample to the claim as worded.  With the default options
    the text ["<b> x"] is sanitized to [" x"],
    and [" x"] to ["x"]. *)
Lemma sanitizeString_idempotence_counterexample :
  InputSanitizer.sanitizeString
    (JStr (InputSanitizer.sanitizeString (JStr "<b> x") InputSanitizer.no_options))
    InputSanitizer.no_options
  ≠ InputSanitizer.sanitizeString (JStr "<b> x") InputSanitizer.no_options.
Proof. vm_compute. discriminate. Qed.

(** C8, amended. Sanitizing a sanitized string only trims it:
    [sanitizeString(sanitizeString(x))] is [sanitizeString(x).trim()] when
    trimming is on and [sanitizeString(x)] when [options.trim] is [false];
    so the second pass changes nothing when trimming is off or the first
    result has no white space at either end. *)
Theorem sanitizeString_idempotent_up_to_trim :
  ∀ (x : string) (options : InputSanitizer.Options),
    let once := InputSanitizer.sanitizeString (JStr x) options in
    InputSanitizer.sanitizeString (JStr once) options
    = (if InputSanitizer.opt_trim options then trim once else once)
    ∧ (InputSanitizer.opt_trim options = false
       → InputSanitizer.sanitizeString (JStr once) options = once)
    ∧ (trim once = once
       → InputSanitizer.sanitizeString (JStr once) options = once).
Proof.
  intros x options once. unfold once.
  rewrite sanitizeString_again. repeat split.
  - by intros ->.
  - intros ->. by destruct (InputSanitizer.opt_trim options).
Qed.

Lemma sanitizeString_idempotent_up_to_trim_witness :
  InputSanitizer.sanitizeString
    (JStr (InputSanitizer.sanitizeString (JStr " <i>a</i> b ") InputSanitizer.no_options))
    InputSanitizer.no_options
  = InputSanitizer.sanitizeString (JStr " <i>a</i> b ") InputSanitizer.no_options.
Proof.
  apply (proj2 (proj2 (sanitizeString_idempotent_up_to_trim " <i>a</i> b "
                         InputSanitizer.no_options))).
  reflexivity.
Defined.

(** ** The router *)

Section Routing.
Import Router.

(** *** Patterns and keys *)

(** The number of groups of a pattern. *)
Fixpoint segments (pattern : list token) : nat :=
  match pattern with
  | [] => O
  | Segment :: pattern' => S (segments pattern')
  | Literal _ :: pattern' => segments pattern'
  end.

Lemma word_is_no_colon c : is_word c = true → char_eqb c ":" = false.
Proof.
  destruct c as [[] [] [] [] [] [] [] []]; vm_compute; congruence.
Qed.

(** A pattern has one group for each key of its path. *)
Lemma segments_keys in_name path :
  segments (compile_from in_name path) = length (_extractParamKeys path).
Proof.
  revert in_name.
  induction path as [| c r IH]; intros in_name; [reflexivity |].
  cbn [compile_from _extractParamKeys].
  destruct (in_name && is_word c) eqn:Hname.
  - apply andb_prop in Hname as [_ Hw].
    rewrite (word_is_no_colon _ Hw). cbn [andb]. apply IH.
  - destruct (char_eqb c ":" && word_next r); cbn [segments length].
    + f_equal. apply IH.
    + apply IH.
Qed.

(** *** Matching *)

Lemma backtrack_inv rest n s caps :
  backtrack rest n s = Some caps →
  ∃ k caps', (1 ≤ k ≤ n)%nat ∧ rest (drop k s) = Some caps'
             ∧ caps = prefix k s :: caps'.
Proof.
  induction n as [| n IH]; cbn [backtrack]; [done |].
  destruct (rest (drop (S n) s)) as [caps' |] eqn:Hrest.
  - intros [= <-]. exists (S n), caps'. split; [lia | done].
  - intros H. destruct (IH H) as (k & caps' & Hk & Hr & ->).
    exists k, caps'. split; [lia | done].
Qed.

(** A match has one capture for each group. *)
Lemma captures_length pattern s caps :
  captures pattern s = Some caps → length caps = segments pattern.
Proof.
  revert s caps.
  induction pattern as [| [c |] pattern IH]; intros s caps; cbn [captures].
  - destruct (String.eqb s EmptyString); [intros [= <-]; reflexivity | done].
  - destruct s as [| d r]; [done |].
    destruct (char_eqb d c); [| done].
    intros H. cbn [segments]. apply (IH _ _ H).
  - intros H. apply backtrack_inv in H as (k & caps' & _ & Hrest & ->).
    cbn [segments length]. f_equal. apply (IH _ _ Hrest).
Qed.

(** The text a pattern stands for once its groups are given values. *)
Fixpoint instantiate (pattern : list token) (caps : list string) : string :=
  match pattern, caps with
  | [], _ => EmptyString
  | Literal c :: pattern', _ => String c (instantiate pattern' caps)
  | Segment :: pattern', cap :: caps' => cap +:+ instantiate pattern' caps'
  | Segment :: pattern', [] => instantiate pattern' []
  end.

(** A capture is a run of one or more code units other than [/]. *)
Definition segment_text (cap : string) : Prop :=
  cap ≠ EmptyString ∧ contains_char "/" cap = false.

Lemma prefix_drop n s : prefix n s +:+ drop n s = s.
Proof.
  revert s. induction n as [| n IH]; intros [| c r]; cbn [prefix drop];
    try reflexivity.
  rewrite append_cons. by rewrite IH.
Qed.

Lemma prefix_run n s :
  (1 ≤ n ≤ run_length s)%nat → segment_text (prefix n s).
Proof.
  revert s. induction n as [| n IH]; intros s Hn; [lia |].
  destruct s as [| c r]; cbn [run_length] in Hn; [lia |].
  destruct (char_eqb c "/") eqn:Hc; [lia |].
  cbn [prefix]. split; [done |].
  cbn [contains_char]. rewrite Hc. cbn [orb].
  destruct n as [| n']; [by destruct r |].
  apply IH. lia.
Qed.

(** What the matcher accepts is an instance of the pattern, and the
    captures are the values of its groups. *)
Lemma captures_sound pattern s caps :
  captures pattern s = Some caps →
  instantiate pattern caps = s ∧ Forall segment_text caps.
Proof.
  revert s caps.
  induction pattern as [| [c |] pattern IH]; intros s caps; cbn [captures].
  - destruct (String.eqb s EmptyString) eqn:Hs; [| done].
    intros [= <-]. apply String.eqb_eq in Hs. by subst.
  - destruct s as [| d r]; [done |].
    destruct (char_eqb d c) eqn:Hc; [| done].
    apply Ascii.eqb_eq in Hc. subst d.
    intros H. destruct (IH _ _ H) as [Hi Hf].
    split; [| done]. destruct caps; cbn [instantiate]; by rewrite Hi.
  - intros H. apply backtrack_inv in H as (k & caps' & Hk & Hrest & ->).
    destruct (IH _ _ Hrest) as [Hi Hf].
    split.
    + cbn [instantiate]. rewrite Hi. apply prefix_drop.
    + constructor; [by apply prefix_run | done].
Qed.

(** *** Binding the captures to the keys *)

Lemma bind_params_other i keys m params key :
  key ∉ keys → bind_params i keys m params !! key = params !! key.
Proof.
  revert i params.
  induction keys as [| k keys IH]; intros i params Hkey; [reflexivity |].
  cbn [bind_params]. apply not_elem_of_cons in Hkey as [Hne Hkey].
  rewrite IH by done. by rewrite lookup_insert_ne.
Qed.

Lemma bind_params_at i keys m params j key :
  keys !! j = Some key →
  key ∉ List.skipn (S j) keys →
  bind_params i keys m params !! key
  = Some (default JUndefined (JStr <$> m !! (i + j + 1)%nat)).
Proof.
  revert i params j.
  induction keys as [| k keys IH]; intros i params j Hj Hlast; [done |].
  cbn [bind_params]. destruct j as [| j].
  - injection Hj as ->. cbn [List.skipn] in Hlast.
    rewrite bind_params_other by done.
    rewrite lookup_insert_eq. by rewrite Nat.add_0_r.
  - cbn [lookup list_lookup] in Hj. cbn [List.skipn] in Hlast.
    rewrite (IH (S i) _ j Hj Hlast).
    by replace (S i + j + 1)%nat with (i + S j + 1)%nat by lia.
Qed.

End Routing.

(** *** Registration *)

(** The verbs a route can be registered for, one per registering method of
    the router. *)
Inductive Verb : Type := GET | POST | PUT | DELETE | PATCH.

Definition verb_name (v : Verb) : string :=
  match v with
  | GET => "GET"
  | POST => "POST"
  | PUT => "PUT"
  | DELETE => "DELETE"
  | PATCH => "PATCH"
  end.

Record Registration : Type := {
  reg_verb : Verb;
  reg_path : string;
  reg_controller : string;
  reg_action : string
}.

(** One call of [get], [post], [put], [delete] or [patch]. *)
Definition register (this : Router.Router) (reg : Registration) : result Router.Router :=
  let call :=
    match reg_verb reg with
    | GET => Router.get
    | POST => Router.post
    | PUT => Router.put
    | DELETE => Router.delete
    | PATCH => Router.patch
    end in
  call this (reg_path reg) (reg_controller reg) (reg_action reg).

(** The calls of a start-up sequence, in order. *)
Fixpoint register_all (this : Router.Router) (regs : list Registration)
  : result Router.Router :=
  match regs with
  | [] => Ok this
  | reg :: rest => this' ← register this reg; register_all this' rest
  end.

Definition route_of (reg : Registration) : Router.Route :=
  {| Router.path := reg_path reg;
     Router.pattern := Router._pathToRegex (reg_path reg);
     Router.keys := Router._extractParamKeys (reg_path reg);
     Router.controller := reg_controller reg;
     Router.action := reg_action reg |}.

(** The routes of the registrations for one method, in registration order. *)
Fixpoint routes_of (method : string) (regs : list Registration) : list Router.Route :=
  match regs with
  | [] => []
  | reg :: rest =>
      if String.eqb (verb_name (reg_verb reg)) method
      then route_of reg :: routes_of method rest
      else routes_of method rest
  end.

Lemma register_routes this reg :
  (∀ v, is_Some (Router.routes this !! verb_name v)) →
  ∃ this',
    register this reg = Ok this'
    ∧ (∀ v, is_Some (Router.routes this' !! verb_name v))
    ∧ ∀ method,
        Router.routes this' !! method
        = (fun l => l ++ routes_of method [reg]) <$> Router.routes this !! method.
Proof.
  intros Hverbs.
  destruct (Hverbs (reg_verb reg)) as [l Hl].
  exists {| Router.routes :=
              <[verb_name (reg_verb reg) := l ++ [route_of reg]]> (Router.routes this) |}.
  split; [| split].
  - unfold register.
    destruct (reg_verb reg) eqn:Hv;
      unfold Router.get, Router.post, Router.put, Router.delete, Router.patch,
        Router._addRoute; cbn [verb_name] in Hl; rewrite Hl; reflexivity.
  - intros v. cbn [Router.routes]. rewrite lookup_insert.
    case_decide; [eauto | apply Hverbs].
  - intros method. cbn [Router.routes routes_of]. rewrite lookup_insert.
    case_decide as Hm.
    + subst method. rewrite Hl. cbn [fmap option_fmap option_map].
      by rewrite (proj2 (String.eqb_eq _ _) eq_refl).
    + apply String.eqb_neq in Hm. rewrite Hm.
      destruct (Router.routes this !! method) as [l' |];
        cbn [fmap option_fmap option_map]; [| done].
      by rewrite app_nil_r.
Qed.

Lemma routes_of_cons method reg regs :
  routes_of method (reg :: regs) = routes_of method [reg] ++ routes_of method regs.
Proof. cbn [routes_of]. by destruct (String.eqb _ _). Qed.

Lemma register_all_routes regs this :
  (∀ v, is_Some (Router.routes this !! verb_name v)) →
  ∃ this',
    register_all this regs = Ok this'
    ∧ ∀ method,
        Router.routes this' !! method
        = (fun l => l ++ routes_of method regs) <$> Router.routes this !! method.
Proof.
  revert this. induction regs as [| reg regs IH]; intros this Hverbs.
  - exists this. split; [done |]. intros method.
    destruct (Router.routes this !! method);
      cbn [fmap option_fmap option_map routes_of]; [| done].
    by rewrite app_nil_r.
  - destruct (register_routes this reg Hverbs) as (mid & Hreg & Hverbs' & Hmid).
    destruct (IH mid Hverbs') as (this' & Hall & Hthis').
    exists this'. split.
    + cbn [register_all]. rewrite Hreg. exact Hall.
    + intros method. rewrite Hthis', Hmid, (routes_of_cons method reg regs).
      destruct (Router.routes this !! method);
        cbn [fmap option_fmap option_map]; [| done].
      by rewrite app_assoc.
Qed.

Lemma constructor_verbs v : is_Some (Router.routes Router.constructor !! verb_name v).
Proof. destruct v; vm_compute; eauto. Qed.

(** After start-up the array of a method holds the routes registered for
    it, in order; a method that is none of the five has no array. *)
Lemma registered_routes regs :
  ∃ this,
    register_all Router.constructor regs = Ok this
    ∧ ∀ method,
        default [] (Router.routes this !! method) = routes_of method regs.
Proof.
  destruct (register_all_routes regs Router.constructor constructor_verbs)
    as (this & Hall & Hthis).
  exists this. split; [done |]. intros method. rewrite Hthis.
  destruct (Router.routes Router.constructor !! method) as [l |] eqn:Hl; cbn.
  - assert (l = []) as ->; [| done].
    unfold Router.constructor in Hl. cbn [Router.routes] in Hl.
    repeat (rewrite lookup_insert in Hl; case_decide; [by injection Hl |]).
    by rewrite lookup_empty in Hl.
  - clear Hthis Hall. induction regs as [| reg regs IH]; [done |].
    cbn [routes_of].
    destruct (String.eqb (verb_name (reg_verb reg)) method) eqn:Hm; [| done].
    apply String.eqb_eq in Hm. subst method.
    destruct (constructor_verbs (reg_verb reg)) as [l' Hl']. congruence.
Qed.

(** The first match among the routes of a method is the first registration
    for that method whose pattern matches. *)
Lemma first_match_registered regs method pathname :
  match Router.first_match (routes_of method regs) pathname with
  | Some found =>
      ∃ before reg after caps,
        regs = before ++ reg :: after
        ∧ verb_name (reg_verb reg) = method
        ∧ (∀ earlier, earlier ∈ before → verb_name (reg_verb earlier) = method →
             Router.captures (Router._pathToRegex (reg_path earlier)) pathname = None)
        ∧ Router.captures (Router._pathToRegex (reg_path reg)) pathname = Some caps
        ∧ found = {| Router.match_controller := reg_controller reg;
                     Router.match_action := reg_action reg;
                     Router.match_params :=
                       Router.bind_params 0 (Router._extractParamKeys (reg_path reg))
                         (pathname :: caps) ∅ |}
  | None =>
      ∀ reg, reg ∈ regs → verb_name (reg_verb reg) = method →
        Router.captures (Router._pathToRegex (reg_path reg)) pathname = None
  end.
Proof.
  induction regs as [| reg regs IH]; cbn [routes_of Router.first_match].
  - intros reg Hin. by apply elem_of_nil in Hin.
  - destruct (String.eqb (verb_name (reg_verb reg)) method) eqn:Hm.
    + apply String.eqb_eq in Hm. cbn [Router.first_match].
      unfold Router.String_match. cbn [route_of Router.pattern].
      destruct (Router.captures (Router._pathToRegex (reg_path reg)) pathname)
        as [caps |] eqn:Hcaps; cbn [fmap option_fmap option_map].
      * exists [], reg, regs, caps. repeat split; try done.
        intros earlier Hin. by apply elem_of_nil in Hin.
      * destruct (Router.first_match (routes_of method regs) pathname) as [found |].
        -- destruct IH as (before & reg' & after & caps & -> & Hv & Hbefore & Hc & ->).
           exists (reg :: before), reg', after, caps. repeat split; try done.
           intros earlier Hin Hverb. apply elem_of_cons in Hin as [-> | Hin]; auto.
        -- intros reg' Hin Hverb. apply elem_of_cons in Hin as [-> | Hin]; auto.
    + apply String.eqb_neq in Hm.
      destruct (Router.first_match (routes_of method regs) pathname) as [found |].
      * destruct IH as (before & reg' & after & caps & -> & Hv & Hbefore & Hc & ->).
        exists (reg :: before), reg', after, caps. repeat split; try done.
        intros earlier Hin Hverb. apply elem_of_cons in Hin as [-> | Hin]; auto.
        congruence.
      * intros reg' Hin Hverb. apply elem_of_cons in Hin as [-> | Hin]; auto.
        congruence.
Qed.

(** *** What a pattern accepts *)

Lemma backtrack_complete rest n s k :
  (1 ≤ k ≤ n)%nat → is_Some (rest (Router.drop k s)) →
  is_Some (Router.backtrack rest n s).
Proof.
  induction n as [| n IH]; intros Hk Hrest; [lia |].
  cbn [Router.backtrack].
  destruct (rest (Router.drop (S n) s)) eqn:Hlong; [eauto |].
  destruct (decide (k = S n)) as [-> | Hne].
  - rewrite Hlong in Hrest. by destruct Hrest.
  - apply IH; [lia | done].
Qed.

Lemma drop_append cap rest : Router.drop (String.length cap) (cap +:+ rest) = rest.
Proof. induction cap as [| c cap IH]; [done |]. by rewrite append_cons. Qed.

Lemma run_length_append cap rest :
  contains_char "/" cap = false →
  (String.length cap ≤ Router.run_length (cap +:+ rest))%nat.
Proof.
  induction cap as [| c cap IH]; intros Hcap; [cbn; lia |].
  cbn [contains_char] in Hcap. apply orb_false_elim in Hcap as [Hc Hcap].
  rewrite append_cons. cbn [Router.run_length String.length]. rewrite Hc.
  specialize (IH Hcap). lia.
Qed.

(** The matcher accepts every instance of the pattern: with [captures_sound],
    a pattern accepts a path exactly when the path is the pattern with each
    group replaced by one or more code units other than [/]. *)
Lemma captures_complete pattern caps :
  length caps = segments pattern →
  Forall segment_text caps →
  is_Some (Router.captures pattern (instantiate pattern caps)).
Proof.
  revert caps.
  induction pattern as [| [c |] pattern IH]; intros caps Hlen Hcaps.
  - by eexists.
  - cbn [segments] in Hlen.
    assert (instantiate (Router.Literal c :: pattern) caps
            = String c (instantiate pattern caps)) as -> by by destruct caps.
    cbn [Router.captures]. unfold char_eqb. rewrite Ascii.eqb_refl. by apply IH.
  - destruct caps as [| cap caps]; [done |].
    cbn [segments length] in Hlen. injection Hlen as Hlen.
    apply Forall_cons in Hcaps as [[Hne Hslash] Hcaps].
    cbn [instantiate Router.captures].
    apply (backtrack_complete _ _ _ (String.length cap)).
    + split; [destruct cap; [done | cbn; lia] | by apply run_length_append].
    + rewrite drop_append. by apply IH.
Qed.

(** The code units of the routes of the server: letters, digits, the
    underscore, the slash, the colon and the hyphen, none of which is
    special in a regular expression once the slash is escaped. *)
Definition route_char (c : ascii) : bool :=
  is_word c || char_eqb c "/" || char_eqb c ":" || char_eqb c "-".

Definition plain_route (route : string) : Prop :=
  InputSanitizerTypes.all_chars route_char route = true.

(** *** Routes, by their parts *)

(** A route is a sequence of literal code units and of parameters
    [:name]. *)
Inductive part : Type :=
| Lit (c : ascii)
| Name (name : string).

(** The text of a route, as it is passed to [get], [post] and the like. *)
Fixpoint route_text (parts : list part) : string :=
  match parts with
  | [] => EmptyString
  | Lit c :: rest => String c (route_text rest)
  | Name name :: rest => String ":" (name +:+ route_text rest)
  end.

(** The names of its parameters, in order. *)
Fixpoint names (parts : list part) : list string :=
  match parts with
  | [] => []
  | Lit _ :: rest => names rest
  | Name name :: rest => name :: names rest
  end.

(** The route with its parameters replaced by values, in order. *)
Fixpoint fill (parts : list part) (values : list string) : string :=
  match parts, values with
  | [], _ => EmptyString
  | Lit c :: rest, _ => String c (fill rest values)
  | Name _ :: rest, value :: values' => value +:+ fill rest values'
  | Name _ :: rest, [] => fill rest []
  end.

(** The parts are those the text is read as: a literal is a code unit of a
    plain route, and a literal colon is not followed by a word code unit
    (the two would start a parameter); a name is a non-empty word, and
    what follows it does not go on with a word code unit (it would belong
    to the name). *)
Fixpoint well_formed (parts : list part) : bool :=
  match parts with
  | [] => true
  | Lit c :: rest =>
      route_char c
      && negb (char_eqb c ":" && Router.word_next (route_text rest))
      && well_formed rest
  | Name name :: rest =>
      negb (String.eqb name EmptyString)
      && InputSanitizerTypes.all_chars is_word name
      && negb (Router.word_next (route_text rest))
      && well_formed rest
  end.

(** A path is the route with the given values for its parameters, each a
    non-empty text without a slash. *)
Definition accepts (parts : list part) (pathname : string) (values : list string)
  : Prop :=
  length values = length (names parts)
  ∧ Forall segment_text values
  ∧ fill parts values = pathname.

(** The pattern of a route given by its parts. *)
Fixpoint tokens (parts : list part) : list Router.token :=
  match parts with
  | [] => []
  | Lit c :: rest => Router.Literal c :: tokens rest
  | Name _ :: rest => Router.Segment :: tokens rest
  end.

Lemma compile_word name :
  InputSanitizerTypes.all_chars is_word name = true →
  ∀ s, Router.compile_from true (name +:+ s) = Router.compile_from true s.
Proof.
  induction name as [| c r IH]; [done |]. cbn [InputSanitizerTypes.all_chars].
  intros H s. apply andb_prop in H as [Hc Hr].
  rewrite append_cons. cbn [Router.compile_from]. rewrite Hc. cbn [andb].
  by apply IH.
Qed.

Lemma compile_after_name s :
  Router.word_next s = false →
  Router.compile_from true s = Router.compile_from false s.
Proof.
  destruct s as [| c r]; [done |]. cbn [Router.word_next Router.compile_from].
  by intros ->.
Qed.

Lemma word_next_name name s :
  name ≠ EmptyString →
  InputSanitizerTypes.all_chars is_word name = true →
  Router.word_next (name +:+ s) = true.
Proof.
  destruct name as [| c r]; [done |]. intros _ H.
  cbn [InputSanitizerTypes.all_chars] in H. apply andb_prop in H as [Hc _].
  by rewrite append_cons.
Qed.

Lemma well_formed_name name rest :
  well_formed (Name name :: rest) = true →
  name ≠ EmptyString
  ∧ InputSanitizerTypes.all_chars is_word name = true
  ∧ Router.word_next (route_text rest) = false
  ∧ well_formed rest = true.
Proof.
  cbn [well_formed]. intros H.
  apply andb_prop in H as [H Hrest]. apply andb_prop in H as [H Hnext].
  apply andb_prop in H as [Hname Hword].
  apply negb_true_iff in Hname, Hnext. apply String.eqb_neq in Hname. done.
Qed.

Lemma well_formed_lit c rest :
  well_formed (Lit c :: rest) = true →
  route_char c = true
  ∧ char_eqb c ":" && Router.word_next (route_text rest) = false
  ∧ well_formed rest = true.
Proof.
  cbn [well_formed]. intros H.
  apply andb_prop in H as [H Hrest]. apply andb_prop in H as [Hc Hcolon].
  apply negb_true_iff in Hcolon. done.
Qed.

(** The pattern compiled from the text of a route is that of its parts:
    one literal for each literal code unit, one group for each name. *)
Lemma compile_parts parts :
  well_formed parts = true →
  Router._pathToRegex (route_text parts) = tokens parts.
Proof.
  unfold Router._pathToRegex.
  induction parts as [| [c | name] rest IH]; intros Hwf; [reflexivity | |].
  - apply well_formed_lit in Hwf as (_ & Hcolon & Hrest).
    cbn [route_text tokens Router.compile_from andb]. rewrite Hcolon.
    by rewrite (IH Hrest).
  - apply well_formed_name in Hwf as (Hname & Hword & Hnext & Hrest).
    cbn [route_text tokens Router.compile_from andb].
    rewrite (word_next_name name _ Hname Hword).
    assert (char_eqb ":" ":" = true) as -> by reflexivity. cbn [andb].
    by rewrite (compile_word name Hword), (compile_after_name _ Hnext), (IH Hrest).
Qed.

Lemma keys_word name :
  InputSanitizerTypes.all_chars is_word name = true →
  ∀ s, Router._extractParamKeys (name +:+ s) = Router._extractParamKeys s.
Proof.
  induction name as [| c r IH]; [done |]. cbn [InputSanitizerTypes.all_chars].
  intros H s. apply andb_prop in H as [Hc Hr].
  rewrite append_cons. cbn [Router._extractParamKeys].
  rewrite (word_is_no_colon c Hc). cbn [andb]. by apply IH.
Qed.

Lemma take_word_name name s :
  InputSanitizerTypes.all_chars is_word name = true →
  Router.word_next s = false →
  Router.take_word (name +:+ s) = name.
Proof.
  intros Hword Hnext.
  induction name as [| c r IH].
  - rewrite append_nil. destruct s as [| d s']; [done |].
    cbn [Router.word_next] in Hnext. cbn [Router.take_word]. by rewrite Hnext.
  - cbn [InputSanitizerTypes.all_chars] in Hword.
    apply andb_prop in Hword as [Hc Hr].
    rewrite append_cons. cbn [Router.take_word]. by rewrite Hc, (IH Hr).
Qed.

(** The keys extracted from the text of a route are the names of its
    parts, in order. *)
Lemma keys_parts parts :
  well_formed parts = true →
  Router._extractParamKeys (route_text parts) = names parts.
Proof.
  induction parts as [| [c | name] rest IH]; intros Hwf; [reflexivity | |].
  - apply well_formed_lit in Hwf as (_ & Hcolon & Hrest).
    cbn [route_text names Router._extractParamKeys]. rewrite Hcolon.
    by apply IH.
  - apply well_formed_name in Hwf as (Hname & Hword & Hnext & Hrest).
    cbn [route_text names Router._extractParamKeys].
    rewrite (word_next_name name _ Hname Hword).
    assert (char_eqb ":" ":" = true) as -> by reflexivity. cbn [andb].
    by rewrite (take_word_name name _ Hword Hnext), (keys_word name Hword), (IH Hrest).
Qed.

Lemma instantiate_tokens parts values :
  instantiate (tokens parts) values = fill parts values.
Proof.
  revert values. induction parts as [| [c | name] rest IH]; intros values.
  - by destruct values.
  - assert (instantiate (tokens (Lit c :: rest)) values
            = String c (instantiate (tokens rest) values)) as ->
      by by destruct values.
    assert (fill (Lit c :: rest) values = String c (fill rest values))
      as -> by by destruct values.
    by rewrite IH.
  - destruct values as [| value values]; cbn [tokens instantiate fill]; by rewrite IH.
Qed.

(** What a match of the compiled route says of the path: it is the route
    with the captures in the place of the parameters. *)
Lemma captures_parts parts pathname caps :
  well_formed parts = true →
  Router.captures (Router._pathToRegex (route_text parts)) pathname = Some caps →
  accepts parts pathname caps.
Proof.
  intros Hwf Hcaps. unfold accepts.
  rewrite <- (keys_parts parts Hwf), <- (segments_keys false (route_text parts)).
  fold (Router._pathToRegex (route_text parts)).
  rewrite <- (captures_length _ _ _ Hcaps).
  destruct (captures_sound _ _ _ Hcaps) as [Hfill Hvalues].
  rewrite (compile_parts parts Hwf), instantiate_tokens in Hfill. done.
Qed.

(** A path the compiled route does not match is no instance of it. *)
Lemma rejects_parts parts pathname :
  well_formed parts = true →
  Router.captures (Router._pathToRegex (route_text parts)) pathname = None →
  ∀ values, ¬ accepts parts pathname values.
Proof.
  intros Hwf Hnone values (Hlen & Hvalues & Hfill).
  destruct (captures_complete (tokens parts) values) as [caps Hcaps];
    [| exact Hvalues |].
  - rewrite Hlen, <- (keys_parts parts Hwf), <- (compile_parts parts Hwf).
    symmetry. apply segments_keys.
  - rewrite instantiate_tokens, Hfill, <- (compile_parts parts Hwf), Hnone in Hcaps.
    discriminate Hcaps.
Qed.

(** C1. Once plain routes are registered, [match] answers, for every method
    and path, with the first route registered for that method whose pattern
    accepts the path: the controller and the action are those of that
    registration and each key of its path is bound, by position, to the
    text its group captured (should a key occur twice, its last occurrence
    counts; a key named [__proto__] is left out, the assignment to it
    defines no property); when no route registered for the method accepts
    the path, which includes a method with no route at all, it answers
    [null].  The method is one of an HTTP request: it names no property the
    routes object inherits.  Read by its parts, the route that answers has the names of its
    parameters for keys and the path is that route with the captured texts
    in their place, while the path is no instance of a route that was
    passed over. *)
Theorem router_match_first_registered :
  ∀ (regs : list Registration) (method pathname : string),
    Forall (fun reg => plain_route (reg_path reg)) regs →
    method ∉ Request.inherited_names →
    ∃ router,
      register_all Router.constructor regs = Ok router
      ∧ match Router.match_ router method pathname with
        | Some found =>
            ∃ before reg after caps,
              regs = before ++ reg :: after
              ∧ verb_name (reg_verb reg) = method
              ∧ (∀ earlier, earlier ∈ before →
                   verb_name (reg_verb earlier) = method →
                   Router.captures (Router._pathToRegex (reg_path earlier)) pathname
                   = None)
              ∧ Router.captures (Router._pathToRegex (reg_path reg)) pathname
                = Some caps
              ∧ Router.match_controller found = reg_controller reg
              ∧ Router.match_action found = reg_action reg
              ∧ length caps = length (Router._extractParamKeys (reg_path reg))
              ∧ (∀ i key,
                   Router._extractParamKeys (reg_path reg) !! i = Some key →
                   key ∉ List.skipn (S i) (Router._extractParamKeys (reg_path reg)) →
                   key ≠ "__proto__" →
                   ∃ cap, caps !! i = Some cap
                          ∧ Router.match_params found !! key = Some (JStr cap))
              ∧ (∀ key,
                   key ∉ Router._extractParamKeys (reg_path reg) →
                   Router.match_params found !! key = None)
              ∧ (∀ parts, well_formed parts = true → reg_path reg = route_text parts →
                   Router._extractParamKeys (reg_path reg) = names parts
                   ∧ accepts parts pathname caps)
              ∧ (∀ earlier parts values, earlier ∈ before →
                   verb_name (reg_verb earlier) = method →
                   well_formed parts = true → reg_path earlier = route_text parts →
                   ¬ accepts parts pathname values)
        | None =>
            ∀ reg, reg ∈ regs → verb_name (reg_verb reg) = method →
              Router.captures (Router._pathToRegex (reg_path reg)) pathname = None
              ∧ ∀ parts values,
                  well_formed parts = true → reg_path reg = route_text parts →
                  ¬ accepts parts pathname values
        end.
Proof.
  intros regs method pathname _ _.
  destruct (registered_routes regs) as (router & Hall & Hroutes).
  exists router. split; [exact Hall |].
  unfold Router.match_. rewrite Hroutes.
  pose proof (first_match_registered regs method pathname) as Hfirst.
  destruct (Router.first_match (routes_of method regs) pathname) as [found |].
  - destruct Hfirst
      as (before & reg & after & caps & Hsplit & Hverb & Hbefore & Hcaps & ->).
    assert (Hlen : length caps = length (Router._extractParamKeys (reg_path reg))).
    { rewrite (captures_length _ _ _ Hcaps). apply segments_keys. }
    exists before, reg, after, caps.
    cbn [Router.match_controller Router.match_action Router.match_params].
    do 7 (split; [done |]). split; [| split; [| split]].
    + intros i key Hkey Hlast _.
      destruct (lookup_lt_is_Some_2 caps i) as [cap Hcap].
      { rewrite Hlen. by apply lookup_lt_Some in Hkey. }
      exists cap. split; [done |].
      rewrite (bind_params_at 0 _ _ _ i key Hkey Hlast).
      replace (0 + i + 1)%nat with (S i) by lia.
      change ((pathname :: caps) !! S i) with (caps !! i). by rewrite Hcap.
    + intros key Hkey. by rewrite bind_params_other.
    + intros parts Hwf Hpath. rewrite Hpath in Hcaps |- *.
      split; [by apply keys_parts | by apply captures_parts].
    + intros earlier parts values Hin Hmethod Hwf Hpath.
      apply rejects_parts; [done |]. rewrite <- Hpath. by apply Hbefore.
  - intros reg Hin Hmethod. split; [by apply Hfirst |].
    intros parts values Hwf Hpath.
    apply rejects_parts; [done |]. rewrite <- Hpath. by apply Hfirst.
Qed.

(** Two routes of the server, the literal one first. *)
Definition product_routes : list Registration :=
  [{| reg_verb := GET; reg_path := "/api/v1/products/categories";
      reg_controller := "ProductsController"; reg_action := "readCategories" |};
   {| reg_verb := GET; reg_path := "/api/v1/products/:id";
      reg_controller := "ProductsController"; reg_action := "read" |}].

Lemma router_match_first_registered_witness :
  ∃ router,
    register_all Router.constructor product_routes = Ok router
    ∧ Router.match_ router "GET" "/api/v1/products/17"
      = Some {| Router.match_controller := "ProductsController";
                Router.match_action := "read";
                Router.match_params := {[ "id" := JStr "17" ]} |}
    ∧ accepts [Lit "/"; Lit "a"; Lit "p"; Lit "i"; Lit "/"; Lit "v"; Lit "1"; Lit "/";
               Lit "p"; Lit "r"; Lit "o"; Lit "d"; Lit "u"; Lit "c"; Lit "t"; Lit "s";
               Lit "/"; Name "id"]
        "/api/v1/products/17" ["17"].
Proof.
  destruct (router_match_first_registered product_routes "GET" "/api/v1/products/17")
    as (router & Hall & Hmatch).
  { repeat constructor. }
  { unfold Request.inherited_names. rewrite !elem_of_cons, elem_of_nil.
    intros H. decompose [or] H; discriminate || done. }
  exists router. split; [exact Hall |].
  assert (Router.match_ router "GET" "/api/v1/products/17"
          = Some {| Router.match_controller := "ProductsController";
                    Router.match_action := "read";
                    Router.match_params := {[ "id" := JStr "17" ]} |}) as Hfound.
  { vm_compute in Hall. injection Hall as <-. vm_compute. reflexivity. }
  split; [exact Hfound |].
  rewrite Hfound in Hmatch.
  destruct Hmatch as (before & reg & after & caps & Hsplit & _ & _ & Hcaps & _ & Haction
                      & _ & _ & _ & Hparts & _).
  assert (reg = {| reg_verb := GET; reg_path := "/api/v1/products/:id";
                   reg_controller := "ProductsController"; reg_action := "read" |})
    as ->.
  { unfold product_routes in Hsplit.
    destruct before as [| r0 [| r1 [| r2 before]]]; cbn [app] in Hsplit;
      injection Hsplit; intros; subst; try discriminate; try reflexivity.
    all: by destruct before. }
  assert (caps = ["17"]) as -> by (vm_compute in Hcaps; by injection Hcaps).
  apply (Hparts [Lit "/"; Lit "a"; Lit "p"; Lit "i"; Lit "/"; Lit "v"; Lit "1"; Lit "/";
                 Lit "p"; Lit "r"; Lit "o"; Lit "d"; Lit "u"; Lit "c"; Lit "t"; Lit "s";
                 Lit "/"; Name "id"]); reflexivity.
Defined.

(** *** The routes of the server *)

Definition resolved (found : option Router.ResolvedMatch)
  : option (string * string * list (string * JsValue)) :=
  (fun m => (Router.match_controller m, Router.match_action m,
             map_to_list (Router.match_params m))) <$> found.

(** The literal routes registered before [/products/:id] and [/orders/:id]
    keep their handlers; a path with one more segment, or for a method
    without routes, resolves to nothing. *)
Example server_routes_resolve :
  ∃ router,
    Server.setupRoutes "/api/v1" = Ok router
    ∧ resolved (Router.match_ router "GET" "/api/v1/products/categories")
      = Some ("ProductsController", "readCategories", [])
    ∧ resolved (Router.match_ router "GET" "/api/v1/products/42")
      = Some ("ProductsController", "read", [("id", JStr "42")])
    ∧ resolved (Router.match_ router "DELETE" "/api/v1/user/7")
      = Some ("UserController", "delete", [("userId", JStr "7")])
    ∧ resolved (Router.match_ router "GET" "/api/v1/orders/status/open")
      = Some ("OrdersController", "readStatus", [("name", JStr "open")])
    ∧ resolved (Router.match_ router "GET" "/api/v1/products/42/reviews") = None
    ∧ resolved (Router.match_ router "HEAD" "/api/v1/products") = None.
Proof. eexists. split; [reflexivity |]. repeat split; vm_compute; reflexivity. Qed.

(* ================================================================== *)
(** * Further properties                                               *)
(* ================================================================== *)

(** ** What a route accepts *)

(** The parts a plain route is read as. *)
Fixpoint parts_from (in_name : bool) (route : string) : list part :=
  match route with
  | EmptyString => []
  | String c r =>
      if in_name && is_word c then parts_from true r
      else if char_eqb c ":" && Router.word_next r
           then Name (Router.take_word r) :: parts_from true r
           else Lit c :: parts_from false r
  end.

Lemma parts_text route :
  route_text (parts_from false route) = route
  ∧ Router.take_word route +:+ route_text (parts_from true route) = route.
Proof.
  induction route as [| c r [IHtext IHname]]; [done |].
  assert (route_text (parts_from false (String c r)) = String c r) as Htext.
  { cbn [parts_from andb].
    destruct (char_eqb c ":" && Router.word_next r) eqn:Hparam; cbn [route_text].
    - apply andb_prop in Hparam as [Hc _]. apply Ascii.eqb_eq in Hc. subst c.
      by rewrite IHname.
    - by rewrite IHtext. }
  split; [exact Htext |].
  cbn [parts_from Router.take_word andb]. destruct (is_word c) eqn:Hc.
  - rewrite append_cons. by rewrite IHname.
  - rewrite append_nil. cbn [parts_from andb] in Htext. exact Htext.
Qed.

Lemma parts_next route :
  Router.word_next (route_text (parts_from true route)) = false.
Proof.
  induction route as [| c r IH]; [done |].
  cbn [parts_from andb]. destruct (is_word c) eqn:Hc; [exact IH |].
  destruct (char_eqb c ":" && Router.word_next r); cbn [route_text Router.word_next];
    [reflexivity | exact Hc].
Qed.

Lemma take_word_word s :
  InputSanitizerTypes.all_chars is_word (Router.take_word s) = true.
Proof.
  induction s as [| c r IH]; [done |]. cbn [Router.take_word].
  destruct (is_word c) eqn:Hc; [| done].
  cbn [InputSanitizerTypes.all_chars]. by rewrite Hc, IH.
Qed.

Lemma take_word_nonempty s :
  Router.word_next s = true → String.eqb (Router.take_word s) EmptyString = false.
Proof.
  destruct s as [| c r]; [done |]. cbn [Router.word_next Router.take_word].
  by intros ->.
Qed.

Lemma parts_well_formed route :
  plain_route route → ∀ in_name, well_formed (parts_from in_name route) = true.
Proof.
  unfold plain_route.
  induction route as [| c r IH]; intros Hplain in_name; [done |].
  cbn [InputSanitizerTypes.all_chars] in Hplain.
  apply andb_prop in Hplain as [Hc Hr].
  cbn [parts_from]. destruct (in_name && is_word c); [by apply IH |].
  destruct (char_eqb c ":" && Router.word_next r) eqn:Hparam; cbn [well_formed].
  - apply andb_prop in Hparam as [_ Hnext].
    by rewrite (take_word_nonempty r Hnext), take_word_word, parts_next, (IH Hr).
  - by rewrite Hc, (proj1 (parts_text r)), Hparam, (IH Hr).
Qed.

Lemma well_formed_plain parts : well_formed parts = true → plain_route (route_text parts).
Proof.
  unfold plain_route.
  induction parts as [| [c | name] rest IH]; intros Hwf; [done | |].
  - apply well_formed_lit in Hwf as (Hc & _ & Hrest).
    cbn [route_text InputSanitizerTypes.all_chars]. by rewrite Hc, (IH Hrest).
  - apply well_formed_name in Hwf as (_ & Hword & _ & Hrest).
    cbn [route_text InputSanitizerTypes.all_chars].
    rewrite all_chars_append, (IH Hrest), andb_true_r.
    assert (route_char ":" = true) as -> by reflexivity.
    revert Hword. apply all_chars_impl. intros c Hc. unfold route_char. by rewrite Hc.
Qed.

(** X1. A route accepts a path exactly when the path is the route with
    each [:name] replaced by a text of one or more code units, none of
    them a slash; the keys of the route are the names, in order.  The
    route is given by its parts, literal code units and names; every plain
    route is the text of such parts, and conversely. *)
Theorem route_accepts_its_instances :
  ∀ (parts : list part) (pathname : string),
    well_formed parts = true →
    Router._extractParamKeys (route_text parts) = names parts
    ∧ (is_Some (Router.String_match pathname (Router._pathToRegex (route_text parts)))
       ↔ ∃ values, accepts parts pathname values)
    ∧ plain_route (route_text parts)
    ∧ (∀ route, plain_route route →
         ∃ parts', well_formed parts' = true ∧ route_text parts' = route).
Proof.
  intros parts pathname Hwf.
  split; [by apply keys_parts |]. split; [| split; [by apply well_formed_plain |]].
  - unfold Router.String_match. split.
    + intros [m Hm].
      destruct (Router.captures (Router._pathToRegex (route_text parts)) pathname)
        as [caps |] eqn:Hcaps; [| discriminate Hm].
      exists caps. by apply captures_parts.
    + intros [values Haccepts].
      destruct (Router.captures (Router._pathToRegex (route_text parts)) pathname)
        as [caps |] eqn:Hcaps; [by eexists |].
      by destruct (rejects_parts parts pathname Hwf Hcaps values).
  - intros route Hplain. exists (parts_from false route).
    split; [by apply parts_well_formed | apply parts_text].
Qed.

(** The parts of [/api/v1/user/:userId]. *)
Definition user_route : list part :=
  [Lit "/"; Lit "a"; Lit "p"; Lit "i"; Lit "/"; Lit "v"; Lit "1"; Lit "/";
   Lit "u"; Lit "s"; Lit "e"; Lit "r"; Lit "/"; Name "userId"].

Lemma route_accepts_its_instances_witness :
  route_text user_route = "/api/v1/user/:userId"
  ∧ Router._extractParamKeys "/api/v1/user/:userId" = ["userId"]
  ∧ is_Some (Router.String_match "/api/v1/user/42"
               (Router._pathToRegex "/api/v1/user/:userId"))
  ∧ ¬ is_Some (Router.String_match "/api/v1/user/42/orders"
                 (Router._pathToRegex "/api/v1/user/:userId")).
Proof.
  split; [reflexivity |].
  destruct (route_accepts_its_instances user_route "/api/v1/user/42" eq_refl)
    as (Hkeys & Haccepts & _).
  split; [exact Hkeys |]. split.
  - apply Haccepts. exists ["42"]. split; [reflexivity |]. split; [| reflexivity].
    constructor; [| constructor]. split; [discriminate | reflexivity].
  - destruct (route_accepts_its_instances user_route "/api/v1/user/42/orders" eq_refl)
      as (_ & Hrejects & _).
    intros Hsome. apply Hrejects in Hsome as (values & Hlen & Hvalues & Hfill).
    destruct values as [| value [| ? ?]]; try discriminate Hlen.
    apply Forall_cons in Hvalues as [[_ Hslash] _].
    cbn [fill user_route] in Hfill. injection Hfill as Hfill.
    rewrite string_app_empty_r in Hfill. subst value. discriminate Hslash.
Defined.

(** A route without a colon is compiled to its own code units. *)
Lemma static_route_captures route :
  contains_char ":" route = false →
  ∀ pathname,
    Router.captures (Router._pathToRegex route) pathname
    = if String.eqb pathname route then Some [] else None.
Proof.
  unfold Router._pathToRegex.
  induction route as [| c r IH]; intros Hcolon pathname.
  - cbn [Router.compile_from Router.captures]. reflexivity.
  - cbn [contains_char] in Hcolon. apply orb_false_elim in Hcolon as [Hc Hr].
    cbn [Router.compile_from andb]. rewrite Hc. cbn [andb Router.captures].
    destruct pathname as [| d p]; [reflexivity |].
    cbn [String.eqb]. unfold char_eqb.
    destruct (Ascii.eqb d c); [by apply IH | reflexivity].
Qed.

(** X2. A route without parameters accepts its own path and no other, and
    binds nothing. *)
Theorem static_route_matches_itself_only :
  ∀ (verb : Verb) (route controller action pathname : string),
    plain_route route →
    contains_char ":" route = false →
    ∃ router,
      register_all Router.constructor
        [{| reg_verb := verb; reg_path := route; reg_controller := controller;
            reg_action := action |}] = Ok router
      ∧ Router.match_ router (verb_name verb) pathname
        = if String.eqb pathname route
          then Some {| Router.match_controller := controller;
                       Router.match_action := action;
                       Router.match_params := ∅ |}
          else None.
Proof.
  intros verb route controller action pathname _ Hcolon.
  destruct (registered_routes
              [{| reg_verb := verb; reg_path := route; reg_controller := controller;
                  reg_action := action |}]) as (router & Hreg & Hroutes).
  exists router. split; [exact Hreg |].
  unfold Router.match_. rewrite Hroutes. cbn [routes_of reg_verb].
  rewrite (proj2 (String.eqb_eq _ _) eq_refl).
  cbn [Router.first_match route_of Router.pattern Router.keys Router.controller
       Router.action reg_path reg_controller reg_action].
  unfold Router.String_match. rewrite (static_route_captures route Hcolon).
  assert (Router._extractParamKeys route = []) as ->.
  { clear -Hcolon. induction route as [| c r IH]; [done |].
    cbn [contains_char] in Hcolon. apply orb_false_elim in Hcolon as [Hc Hr].
    cbn [Router._extractParamKeys]. rewrite Hc. cbn [andb]. by apply IH. }
  destruct (String.eqb pathname route); reflexivity.
Qed.

Lemma static_route_matches_itself_only_witness :
  ∃ router,
    register_all Router.constructor
      [{| reg_verb := GET; reg_path := "/api/v1/products";
          reg_controller := "ProductsController"; reg_action := "readAll" |}]
    = Ok router
    ∧ Router.match_ router "GET" "/api/v1/products/"
      = if String.eqb "/api/v1/products/" "/api/v1/products"
        then Some {| Router.match_controller := "ProductsController";
                     Router.match_action := "readAll";
                     Router.match_params := ∅ |}
        else None.
Proof.
  apply (static_route_matches_itself_only GET "/api/v1/products"
           "ProductsController" "readAll" "/api/v1/products/").
  - vm_compute. reflexivity.
  - reflexivity.
Defined.

(** The slashes of a text. *)
Fixpoint count_char (c : ascii) (s : string) : nat :=
  match s with
  | EmptyString => O
  | String d r => (if char_eqb d c then 1 else 0) + count_char c r
  end.

Lemma count_char_append c s t :
  count_char c (s +:+ t) = (count_char c s + count_char c t)%nat.
Proof.
  induction s as [| d r IH]; [reflexivity |].
  rewrite append_cons. cbn [count_char]. rewrite IH. lia.
Qed.

Lemma count_char_absent c s : contains_char c s = false → count_char c s = O.
Proof.
  induction s as [| d r IH]; [done |]. cbn [contains_char count_char].
  intros H. apply orb_false_elim in H as [-> Hr]. by rewrite IH.
Qed.

(** The literal slashes of a pattern. *)
Fixpoint literal_slashes (pattern : list Router.token) : nat :=
  match pattern with
  | [] => O
  | Router.Literal c :: pattern' =>
      (if char_eqb c "/" then 1 else 0) + literal_slashes pattern'
  | Router.Segment :: pattern' => literal_slashes pattern'
  end.

Lemma word_is_no_slash c : is_word c = true → char_eqb c "/" = false.
Proof. destruct c as [[] [] [] [] [] [] [] []]; vm_compute; congruence. Qed.

Lemma compile_slashes in_name route :
  literal_slashes (Router.compile_from in_name route) = count_char "/" route.
Proof.
  revert in_name. induction route as [| c r IH]; intros in_name; [reflexivity |].
  cbn [Router.compile_from count_char].
  destruct (in_name && is_word c) eqn:Hname.
  - apply andb_prop in Hname as [_ Hw]. rewrite (word_is_no_slash _ Hw). apply IH.
  - destruct (char_eqb c ":" && Router.word_next r) eqn:Hparam.
    + apply andb_prop in Hparam as [Hc _]. apply Ascii.eqb_eq in Hc. subst c.
      cbn [literal_slashes]. rewrite IH. reflexivity.
    + cbn [literal_slashes]. by rewrite IH.
Qed.

Lemma instantiate_slashes pattern values :
  Forall segment_text values →
  length values = segments pattern →
  count_char "/" (instantiate pattern values) = literal_slashes pattern.
Proof.
  revert values. induction pattern as [| [c |] pattern IH]; intros values Hv Hlen.
  - by destruct values.
  - assert (instantiate (Router.Literal c :: pattern) values
            = String c (instantiate pattern values)) as -> by by destruct values.
    cbn [count_char literal_slashes]. by rewrite IH.
  - destruct values as [| value values]; [done |].
    apply Forall_cons in Hv as [[_ Hslash] Hv].
    cbn [segments length] in Hlen. injection Hlen as Hlen.
    cbn [instantiate literal_slashes].
    rewrite count_char_append, (count_char_absent _ _ Hslash). by apply IH.
Qed.

(** X3. A route only accepts paths with as many slashes as it has itself:
    a path with more or fewer segments never matches. *)
Theorem route_accepts_same_segment_count :
  ∀ (route pathname : string) (m : list string),
    plain_route route →
    Router.String_match pathname (Router._pathToRegex route) = Some m →
    count_char "/" pathname = count_char "/" route.
Proof.
  intros route pathname m _ Hm. unfold Router.String_match in Hm.
  destruct (Router.captures (Router._pathToRegex route) pathname)
    as [caps |] eqn:Hcaps; [| discriminate Hm].
  destruct (captures_sound _ _ _ Hcaps) as [<- Hf].
  rewrite (instantiate_slashes _ _ Hf (captures_length _ _ _ Hcaps)).
  apply compile_slashes.
Qed.

Lemma route_accepts_same_segment_count_witness :
  count_char "/" "/api/v1/user/42" = count_char "/" "/api/v1/user/:userId".
Proof.
  apply (route_accepts_same_segment_count "/api/v1/user/:userId" "/api/v1/user/42"
           ["/api/v1/user/42"; "42"]).
  - vm_compute. reflexivity.
  - reflexivity.
Defined.

(** ** The data access layer *)

Section DataAccessFurther.
Import Database.

(** X4. The parameter check never changes a parameter: when it returns, it
    returns the very list it was given (it only ever throws). *)
Theorem sanitizeParams_returns_its_argument :
  ∀ (params checked : list Param),
    _sanitizeParams params = Ok checked → checked = params.
Proof.
  induction params as [| param rest IH]; intros checked; cbn [_sanitizeParams].
  - by intros [= <-].
  - assert ((rest' ← _sanitizeParams rest; Ok (param :: rest')) = Ok checked
            → checked = param :: rest) as Hrest.
    { destruct (_sanitizeParams rest) as [rest' | e]; [| done].
      intros [= <-]. by rewrite (IH rest' eq_refl). }
    destruct param as [[| | | | | s | |] | ]; try exact Hrest.
    by destruct (InputSanitizer.detectSqlInjection (JStr s)).
Qed.

Lemma sanitizeParams_returns_its_argument_witness :
  [ParamValue (JStr "alice"); ParamValue (JNum 3)]
  = [ParamValue (JStr "alice"); ParamValue (JNum 3)].
Proof.
  apply (sanitizeParams_returns_its_argument
           [ParamValue (JStr "alice"); ParamValue (JNum 3)]
           [ParamValue (JStr "alice"); ParamValue (JNum 3)]).
  vm_compute. reflexivity.
Defined.

(** A configuration with its four settings. *)
Definition complete (cfg : Config) : Prop :=
  host cfg ≠ EmptyString ∧ user cfg ≠ EmptyString
  ∧ password cfg ≠ EmptyString ∧ database cfg ≠ EmptyString.

Lemma empty_false s : s ≠ EmptyString → empty s = false.
Proof. intros H. unfold empty. by apply String.eqb_neq. Qed.

(** X5. The connection is opened by the first query and kept: on a new
    database object with a complete configuration and a reachable store,
    two clean statements reach the store in call order, and the second is
    answered by the store that has seen the first. *)
Theorem query_connects_once_and_keeps_order :
  ∀ (driver : Driver) (cfg : Config) (sql1 sql2 : string)
    (params1 params2 : list Param) (answer1 : QueryResult) (this1 : MySQLDatabase),
    complete cfg →
    createConnection driver = Ok () →
    Forall (fun param => ¬ flagged param) params1 →
    Forall (fun param => ¬ flagged param) params2 →
    query driver sql1 params1 (constructor cfg) = (Ok answer1, this1) →
    run driver [] (sql1, params1) = Ok answer1
    ∧ query driver sql2 params2 this1
      = (run driver [(sql1, params1)] (sql2, params2),
         {| config := cfg;
            connection := Some [(sql1, params1); (sql2, params2)] |}).
Proof.
  intros driver cfg sql1 sql2 params1 params2 answer1 this1
    (Hh & Hu & Hp & Hd) Hopen Hclean1 Hclean2.
  unfold query at 1. unfold Eff.bind, Eff.lift, connection_query, constructor, connect.
  cbn [connection config].
  rewrite (empty_false _ Hh), (empty_false _ Hu), (empty_false _ Hp),
    (empty_false _ Hd), Hopen.
  cbn [orb connection config]. rewrite (sanitizeParams_clean _ Hclean1).
  cbn [connection config app]. intros [= Hanswer <-].
  split; [done |].
  exact (query_clean_is_handed driver sql2 params2
           {| config := cfg; connection := Some [(sql1, params1)] |}
           [(sql1, params1)] eq_refl Hclean2).
Qed.

Lemma query_connects_once_and_keeps_order_witness :
  run accepting_driver [] ("SELECT * FROM products WHERE id = ?", [ParamValue (JNum 7)])
  = Ok (ResultSetHeader 1 0 0)
  ∧ query accepting_driver "SELECT * FROM orders WHERE id = ?" [ParamValue (JNum 8)]
      {| config := config open_database;
         connection := Some [("SELECT * FROM products WHERE id = ?",
                              [ParamValue (JNum 7)])] |}
    = (run accepting_driver
         [("SELECT * FROM products WHERE id = ?", [ParamValue (JNum 7)])]
         ("SELECT * FROM orders WHERE id = ?", [ParamValue (JNum 8)]),
       {| config := config open_database;
          connection :=
            Some [("SELECT * FROM products WHERE id = ?", [ParamValue (JNum 7)]);
                  ("SELECT * FROM orders WHERE id = ?", [ParamValue (JNum 8)])] |}).
Proof.
  apply (query_connects_once_and_keeps_order accepting_driver (config open_database)
           "SELECT * FROM products WHERE id = ?" "SELECT * FROM orders WHERE id = ?"
           [ParamValue (JNum 7)] [ParamValue (JNum 8)]).
  - repeat split; discriminate.
  - reflexivity.
  - constructor; [| constructor]. intros (s & Hs & _). discriminate Hs.
  - constructor; [| constructor]. intros (s & Hs & _). discriminate Hs.
  - vm_compute. reflexivity.
Defined.

(** X6. A database object made from an environment that sets no password
    (or an empty one) never reaches the store: every query throws the
    configuration error before the driver is asked for a connection and
    before the parameters are looked at. *)
Theorem fromEnv_without_password_never_connects :
  ∀ (driver : Driver) (env : gmap string string) (sql : string) (params : list Param),
    (env !! "DB_PASSWORD" = None ∨ env !! "DB_PASSWORD" = Some EmptyString) →
    query driver sql params (DatabaseFactory.fromEnv env)
    = (Throw (Exceptions.new_Error
                "Invalid database connection. Please provide connection parameters"),
       DatabaseFactory.fromEnv env)
    ∧ handed (DatabaseFactory.fromEnv env) = [].
Proof.
  intros driver env sql params Hpassword. split; [| reflexivity].
  unfold query, Eff.bind, DatabaseFactory.fromEnv, DatabaseFactory.getInstance,
    constructor, connect.
  cbn [connection config host user password database].
  assert (DatabaseFactory.env_or env "DB_PASSWORD" EmptyString = EmptyString) as ->.
  { unfold DatabaseFactory.env_or. destruct Hpassword as [-> | ->]; reflexivity. }
  assert (empty EmptyString = true) as -> by reflexivity.
  by rewrite orb_true_r.
Qed.

Lemma fromEnv_without_password_never_connects_witness :
  query accepting_driver "SELECT 1" []
    (DatabaseFactory.fromEnv {[ "DB_HOST" := "db.internal"; "DB_USER" := "api" ]})
  = (Throw (Exceptions.new_Error
              "Invalid database connection. Please provide connection parameters"),
     DatabaseFactory.fromEnv {[ "DB_HOST" := "db.internal"; "DB_USER" := "api" ]})
  ∧ handed (DatabaseFactory.fromEnv {[ "DB_HOST" := "db.internal"; "DB_USER" := "api" ]})
    = [].
Proof.
  apply (fromEnv_without_password_never_connects accepting_driver
           {[ "DB_HOST" := "db.internal"; "DB_USER" := "api" ]} "SELECT 1" []).
  left. vm_compute. reflexivity.
Defined.

End DataAccessFurther.

(** ** The response *)

Section ResponseFurther.
Import Response.

(** X7. A response carries one cookie: a second call of [cookie] replaces
    the [Set-Cookie] header of the first, whatever the two names are. *)
Theorem cookie_replaces_earlier_cookie :
  ∀ (this : Response) (name1 value1 name2 value2 : string)
    (options1 options2 : CookieOptions),
    cookie (cookie this name1 value1 options1) name2 value2 options2
    = cookie this name2 value2 options2
    ∧ headers (cookie (cookie this name1 value1 options1) name2 value2 options2)
        !! "Set-Cookie"
      = headers (cookie Response.constructor name2 value2 options2) !! "Set-Cookie".
Proof.
  intros this name1 value1 name2 value2 options1 options2.
  unfold cookie, setHeader. cbn [statusCode headers wire].
  rewrite insert_insert_eq. split; [reflexivity |].
  by rewrite !lookup_insert_eq.
Qed.

(** The options with both life times set. *)
Definition with_lifetimes (options : CookieOptions) (age : option Z)
           (date : option string) : CookieOptions :=
  {| maxAge := age; expires := date; path := path options;
     httpOnly := httpOnly options; secure := secure options;
     sameSite := sameSite options |}.

(** X8. A cookie given both a maximal age and an expiration date is
    written with neither: it is the cookie of the same options without
    any life time, a session cookie. *)
Theorem cookie_with_both_lifetimes_has_none :
  ∀ (this : Response) (name value : string) (options : CookieOptions)
    (age : Z) (date : string),
    age ≠ 0 → date ≠ EmptyString →
    cookie this name value (with_lifetimes options (Some age) (Some date))
    = cookie this name value (with_lifetimes options None None).
Proof.
  intros this name value options age date Hage Hdate.
  unfold cookie, with_lifetimes. cbn [maxAge expires path httpOnly secure sameSite].
  unfold nonzero, nonempty.
  rewrite (proj2 (Z.eqb_neq age 0) Hage), (proj2 (String.eqb_neq date _) Hdate).
  reflexivity.
Qed.

Lemma cookie_with_both_lifetimes_has_none_witness :
  headers (cookie Response.constructor "simple_app_cookie" "abc"
             {| maxAge := Some 3600; expires := Some "Thu, 01 Jan 2099 00:00:00 GMT";
                path := None; httpOnly := None; secure := false; sameSite := None |})
    !! "Set-Cookie"
  = Some "simple_app_cookie=abc; Path=/; HttpOnly".
Proof.
  change {| maxAge := Some 3600; expires := Some "Thu, 01 Jan 2099 00:00:00 GMT";
            path := None; httpOnly := None; secure := false; sameSite := None |}
    with (with_lifetimes
            {| maxAge := None; expires := None; path := None; httpOnly := None;
               secure := false; sameSite := None |}
            (Some 3600) (Some "Thu, 01 Jan 2099 00:00:00 GMT")).
  rewrite (cookie_with_both_lifetimes_has_none Response.constructor
             "simple_app_cookie" "abc"
             {| maxAge := None; expires := None; path := None; httpOnly := None;
                secure := false; sameSite := None |}
             3600 "Thu, 01 Jan 2099 00:00:00 GMT");
    [vm_compute; reflexivity | lia | discriminate].
Defined.

(** X9. A response is sent once: after the head has been written, each of
    [send], [json], [success], [error] and [redirect] throws, and what went
    over the wire stays as it was. *)
Theorem sent_response_is_final :
  ∀ (this : Response) (sent : Z * gmap string string * string)
    (data : JsValue) (text message url : string) (code : Z),
    wire this = Some sent →
    Forall (fun helper : Eff.Eff Response unit =>
              (∃ e, (helper this).1 = Throw e) ∧ wire (helper this).2 = Some sent)
      [send text; json data; ResponseHelpers.success data message;
       ResponseHelpers.error message code data;
       ResponseHelpers.redirect url code].
Proof.
  intros this sent data text message url code Hsent.
  assert (∀ text' this', wire this' = Some sent →
            (∃ e, (send text' this').1 = Throw e) ∧ wire (send text' this').2 = Some sent)
    as Hsend.
  { intros text' this' H. unfold send. rewrite H. cbn [fst snd]. eauto. }
  repeat constructor; try (apply Hsend; exact Hsent);
    unfold ResponseHelpers.success, ResponseHelpers.error, ResponseHelpers.redirect,
      json, Eff.bind, Eff.modify;
    apply Hsend; exact Hsent.
Qed.

Lemma sent_response_is_final_witness :
  Forall (fun helper : Eff.Eff Response unit =>
            (∃ e, (helper (send "first" Response.constructor).2).1 = Throw e)
            ∧ wire (helper (send "first" Response.constructor).2).2
              = Some (200, headers Response.constructor ∪ cors_headers, "first"))
    [send "second"; json (JStr "second");
     ResponseHelpers.success (JStr "second") "done";
     ResponseHelpers.error "done" 500 (JStr "second");
     ResponseHelpers.redirect "/login" 500].
Proof.
  apply (sent_response_is_final (send "first" Response.constructor).2
           (200, headers Response.constructor ∪ cors_headers, "first")
           (JStr "second") "second" "done" "/login" 500).
  reflexivity.
Defined.

End ResponseFurther.

(** ** Starred classes

    [q*] followed by a continuation, read off the text. *)

Section ClassStar.
Import Regex InputSanitizerTypes.

Fixpoint star_class (q : ascii -> bool) (k : Continuation)
         (prev : option ascii) (s : string) : bool :=
  k prev s
  || match s with
     | String c r => q c && star_class q k (Some c) r
     | EmptyString => false
     end.

Lemma iterate_class q k s :
  ∀ fuel prev, (String.length s ≤ fuel)%nat →
    iterate (matches (Class q)) k fuel prev s = star_class q k prev s.
Proof.
  induction s as [| c r IH]; intros fuel prev Hfuel.
  - destruct fuel; cbn [iterate matches star_class orb]; by rewrite orb_false_r.
  - cbn [String.length] in Hfuel. destruct fuel as [| fuel]; [lia |].
    cbn [iterate matches star_class String.length].
    rewrite IH by lia. rewrite (proj2 (Nat.ltb_lt _ _)) by lia.
    cbn [andb]. apply orb_comm.
Qed.

Lemma star_class_matches q k prev s :
  matches (Star (Class q)) k prev s = star_class q k prev s.
Proof. cbn [matches]. by apply iterate_class. Qed.

Lemma star_class_at_end q prev s : star_class q at_end prev s = all_chars q s.
Proof.
  revert prev. induction s as [| c r IH]; intros prev; cbn [star_class all_chars].
  - reflexivity.
  - by rewrite IH.
Qed.

Lemma test_whole_star_class q s : test_whole (Star (Class q)) s = all_chars q s.
Proof. unfold test_whole. by rewrite star_class_matches, star_class_at_end. Qed.

End ClassStar.


(** A replacement by one code unit, seen from a class. *)
Lemma all_chars_replace p a b s :
  InputSanitizerTypes.all_chars p (replace_char a (String b EmptyString) s)
  = InputSanitizerTypes.all_chars (fun c => p (if char_eqb c a then b else c)) s.
Proof.
  induction s as [| c r IH]; [reflexivity |].
  cbn [replace_char InputSanitizerTypes.all_chars].
  destruct (char_eqb c a); rewrite ?append_cons, ?append_nil;
    cbn [InputSanitizerTypes.all_chars]; by rewrite IH.
Qed.


Lemma replace_char_append c by_ s t :
  replace_char c by_ (s +:+ t) = replace_char c by_ s +:+ replace_char c by_ t.
Proof.
  induction s as [| d r IH]; [reflexivity |].
  rewrite append_cons. cbn [replace_char]. rewrite IH.
  destruct (char_eqb d c); [| by rewrite append_cons].
  generalize (replace_char c by_ r) (replace_char c by_ t). clear.
  intros x y. induction by_ as [| b bs IHb]; [reflexivity |].
  rewrite !append_cons. by rewrite IHb.
Qed.

(** ** Sessions *)

Section SessionsFurther.
Import AuthController AuthControllerSessions.

(** The alphabet of [toString('base64')]. *)
Definition base64_char (c : ascii) : bool :=
  is_upper c || is_lower c || is_digit c || char_eqb c "+" || char_eqb c "/"
  || char_eqb c "=".

Lemma token_test_all_chars token :
  token_test token = InputSanitizerTypes.all_chars token_char token.
Proof. apply test_whole_star_class. Qed.

Lemma generated_char_is_token_char c :
  base64_char c = true →
  token_char
    (let c1 := if char_eqb c "+" then "-"%char else c in
     let c2 := if char_eqb c1 "/" then "_"%char else c1 in
     let c3 := if char_eqb c2 "\" then "|"%char else c2 in
     if char_eqb c3 " " then ":"%char else c3) = true.
Proof. destruct c as [[] [] [] [] [] [] [] []]; vm_compute; congruence. Qed.

(** X10. Every token [_generateToken] makes from base64 text passes the
    filter [authenticate] applies to the cookie: it is written in
    [[0-9a-zA-Z-_=|:]], and it is empty only if the random text is. *)
Theorem generated_token_passes_authenticate_filter :
  ∀ (random_base64 : string),
    InputSanitizerTypes.all_chars base64_char random_base64 = true →
    token_test (_generateToken random_base64) = true
    ∧ (random_base64 ≠ EmptyString → _generateToken random_base64 ≠ EmptyString).
Proof.
  intros random Hrandom. split.
  - rewrite token_test_all_chars. unfold _generateToken.
    rewrite !all_chars_replace.
    revert Hrandom. apply all_chars_impl. intros c Hc.
    exact (generated_char_is_token_char c Hc).
  - destruct random as [| c r]; [done |]. intros _.
    unfold _generateToken. cbn [InputSanitizerTypes.all_chars] in Hrandom.
    apply andb_prop in Hrandom as [Hc _].
    destruct c as [[] [] [] [] [] [] [] []]; try discriminate Hc;
      unfold_strings; discriminate.
Qed.

Lemma generated_token_passes_authenticate_filter_witness :
  token_test (_generateToken "q2+/dA==") = true
  ∧ ("q2+/dA==" ≠ EmptyString → _generateToken "q2+/dA==" ≠ EmptyString).
Proof.
  apply (generated_token_passes_authenticate_filter "q2+/dA==").
  vm_compute. reflexivity.
Defined.

Lemma position_append prev u t :
  ∃ prev0, position prev (u +:+ t) prev0 t.
Proof.
  revert prev. induction u as [| c r IH]; intros prev.
  - exists prev. rewrite append_nil. constructor.
  - destruct (IH (Some c)) as [prev0 H]. exists prev0.
    rewrite append_cons. by constructor.
Qed.

(** A text with two hyphens in a row is flagged as an injection. *)
Lemma double_hyphen_flagged u v :
  InputSanitizer.detectSqlInjection (JStr (u +:+ "--" +:+ v)) = true.
Proof.
  unfold InputSanitizer.detectSqlInjection.
  assert (String.eqb (u +:+ "--" +:+ v) EmptyString = false) as ->.
  { destruct u; rewrite ?append_cons, ?append_nil; reflexivity. }
  apply existsb_exists. exists InputSanitizer.pattern_comment. split.
  { right. right. left. reflexivity. }
  apply test_iff. destruct (position_append None u ("--" +:+ v)) as [prev0 Hpos].
  exists prev0, ("--" +:+ v), (Some "-"%char), v. split; [exact Hpos |].
  rewrite !append_cons, append_nil.
  apply derives_alt_l. eapply derives_cat; apply derives_class; reflexivity.
Qed.

Lemma generateToken_double_plus u v :
  ∃ u' v', _generateToken (u +:+ "++" +:+ v) = u' +:+ "--" +:+ v'.
Proof.
  unfold _generateToken.
  exists (_generateToken u), (_generateToken v). unfold _generateToken.
  rewrite !replace_char_append. reflexivity.
Qed.

(** A flagged parameter stops a query, whatever the connection is. *)
Lemma query_flagged_throws driver sql params this :
  Exists flagged params →
  ∃ e this',
    Database.query driver sql params this = (Throw e, this')
    ∧ Database.handed this' = Database.handed this
    ∧ (is_Some (Database.connection this) →
       e = Database.injection_error ∧ this' = this).
Proof.
  intros Hflag. unfold Database.query, Eff.bind, Eff.lift, Database.handed.
  rewrite (sanitizeParams_flagged _ Hflag).
  destruct (Database.connection this) as [sent |] eqn:Hc.
  - exists Database.injection_error, this. by rewrite Hc.
  - unfold Database.connect.
    destruct (_ || _).
    + eexists _, this. rewrite Hc.
      split; [reflexivity | split; [reflexivity | by intros [? ?]]].
    + destruct (Database.createConnection driver) as [[] | err].
      * eexists _, _. cbn [Database.connection].
        split; [reflexivity | split; [reflexivity | by intros [? ?]]].
      * eexists _, this. rewrite Hc.
        split; [reflexivity | split; [reflexivity | by intros [? ?]]].
Qed.

(** X11. A random text with two plus signs in a row makes a token with
    two hyphens in a row, which the data access layer takes for an
    injection: [createSession] then throws, the store is handed nothing
    and no cookie is set.  On an open connection the error is the plain
    [Error] of the parameter check. *)
Theorem createSession_fails_on_double_plus :
  ∀ (driver : Database.Driver) (Date_parse : string -> JsDate) (u v : string)
    (userId : JsValue) (world : World),
    let outcome := createSession driver Date_parse (u +:+ "++" +:+ v) userId world in
    (∃ e, outcome.1 = Throw e)
    ∧ (is_Some (Database.connection (db world)) →
       outcome.1 = Throw Database.injection_error)
    ∧ Database.handed (db outcome.2) = Database.handed (db world)
    ∧ response outcome.2 = response world.
Proof.
  intros driver Date_parse u v userId world.
  destruct (generateToken_double_plus u v) as (u' & v' & Htoken).
  pose proof (double_hyphen_flagged u' v') as Hflag. rewrite <- Htoken in Hflag.
  cbv zeta. unfold createSession, AuthModel.createSession, Database.execute,
    Eff.bind, on_this, on_db, on_response, Eff.zoom, Eff.modify, Eff.get.
  cbn [this db response].
  match goal with
  | |- context [Database.query driver ?sql ?params ?d] =>
      destruct (query_flagged_throws driver sql params d)
        as (e & this' & -> & Hhanded & Hopen)
  end.
  { apply Exists_cons_tl, Exists_cons_hd. eexists. split; [reflexivity | exact Hflag]. }
  cbn [this db response fst snd].
  split; [by eexists |]. split; [| done].
  intros Hsome. by destruct (Hopen Hsome) as [-> _].
Qed.

(** The controller with another token. *)
Definition with_token (this : AuthController) (token : JsValue) : AuthController :=
  {| userId := userId this; token := token; cookieName := cookieName this;
     sessionTimeout := sessionTimeout this |}.

(** X12. [authenticate] turns down an empty cookie value and any value with
    a code unit outside [[0-9a-zA-Z-_=|:]] with the 401 of a missing token,
    before the store is asked anything: the database object and the
    response are left as they were. *)
Theorem authenticate_rejects_bad_token_before_store :
  ∀ (driver : Database.Driver) (decodeURIComponent : string -> result string)
    (cookieHeader : option string) (world : World) (token : string),
    cookieName (this world) = "simple_app_cookie" →
    _getToken decodeURIComponent cookieHeader (this world) = Ok token →
    token = EmptyString ∨ InputSanitizerTypes.all_chars token_char token = false →
    authenticate driver decodeURIComponent cookieHeader world
    = (Throw (ApiError AuthenticationException
                "Invalid or missing authentication token" None 401),
       {| this := with_token (this world) (JStr token);
          response := response world; db := db world |}).
Proof.
  intros driver decode header world token _ Htoken Hbad.
  unfold authenticate, Eff.bind, on_this, Eff.zoom, Eff.get, Eff.lift,
    _setUserAndToken, Eff.modify, Eff.throw.
  cbn [this db response]. rewrite Htoken. cbn [this db response].
  assert (String.eqb token EmptyString || negb (token_test token) = true) as ->.
  { destruct Hbad as [-> | Hbad]; [reflexivity |].
    rewrite token_test_all_chars, Hbad. apply orb_true_r. }
  reflexivity.
Qed.

Lemma authenticate_rejects_bad_token_before_store_witness :
  authenticate accepting_driver Ok (Some "simple_app_cookie=a' OR 1=1") fresh_world
  = (Throw (ApiError AuthenticationException
              "Invalid or missing authentication token" None 401),
     {| this := with_token (this fresh_world) (JStr "a' OR 1=1");
        response := response fresh_world; db := db fresh_world |}).
Proof.
  apply (authenticate_rejects_bad_token_before_store accepting_driver Ok
           (Some "simple_app_cookie=a' OR 1=1") fresh_world "a' OR 1=1").
  - reflexivity.
  - vm_compute. reflexivity.
  - right. vm_compute. reflexivity.
Defined.

(** X13. For a well-formed token that is no injection, on an open
    connection, [authenticate] asks the store for the session of that
    token with the token bound to the placeholder.  When the store answers
    with a row, the row is returned and its [user_id] becomes the user of
    the controller (0 when the row has none); when it answers without a
    row, the call throws the 401 of a missing session and the user stays
    as it was. *)
Theorem authenticate_binds_session_user :
  ∀ (driver : Database.Driver) (decodeURIComponent : string -> result string)
    (cookieHeader : option string) (world : World) (token : string)
    (sent : list Database.Statement) (rows : list JsValue),
    cookieName (this world) = "simple_app_cookie" →
    _getToken decodeURIComponent cookieHeader (this world) = Ok token →
    token ≠ EmptyString →
    InputSanitizerTypes.all_chars token_char token = true →
    InputSanitizer.detectSqlInjection (JStr token) = false →
    Database.connection (db world) = Some sent →
    Database.run driver sent
      (AuthModelSessions.authenticate_sql, [Database.ParamValue (JStr token)])
    = Ok (Database.Rows rows) →
    let outcome := authenticate driver decodeURIComponent cookieHeader world in
    Database.handed (db outcome.2)
    = sent ++ [(AuthModelSessions.authenticate_sql, [Database.ParamValue (JStr token)])]
    ∧ AuthController.token (this outcome.2) = JStr token
    ∧ response outcome.2 = response world
    ∧ match rows with
      | JObj props :: _ =>
          outcome.1 = Ok (JObj props)
          ∧ userId (this outcome.2)
            = or_default (JNum 0) (default JUndefined (assoc "user_id" props))
      | [] =>
          outcome.1 = Throw (ApiError AuthenticationException
                               "Session not found." None 401)
          ∧ userId (this outcome.2) = userId (this world)
      | _ => True
      end.
Proof.
  intros driver decode header world token sent rows _ Htoken Hfull Hchars Hclean
    Hopen Hrun.
  assert (Forall (fun param => ¬ flagged param) [Database.ParamValue (JStr token)])
    as Hparams.
  { constructor; [| constructor]. intros (s & [= <-] & Hs). congruence. }
  cbv zeta. unfold authenticate, AuthModelSessions.authenticate, Eff.bind, on_this,
    on_db, Eff.zoom, Eff.get, Eff.lift, _setUserAndToken, Eff.modify, Eff.throw.
  cbn [this db response]. rewrite Htoken. cbn [this db response].
  rewrite token_test_all_chars, Hchars, (proj2 (String.eqb_neq _ _) Hfull).
  cbn [orb negb].
  rewrite (query_clean_is_handed driver _ _ (db world) sent Hopen Hparams), Hrun.
  cbn [this db response Eff.ret].
  destruct rows as [| [| | b | n | | s | items | props] rest];
    cbn [truthy negb this db response fst snd Database.handed Database.connection
         default AuthController.token userId Request.get Eff.ret];
    try done.
  - by destruct b.
  - by destruct (n =? 0).
  - destruct (String.eqb s EmptyString); [done |].
    cbn [negb]. by destruct (Request.get (JStr s) "user_id").
Qed.

(** A store with one session, of user 7. *)
Definition session_driver : Database.Driver :=
  {| Database.createConnection := Ok tt;
     Database.run := fun _ _ => Ok (Database.Rows [JObj [("user_id", JNum 7)]]) |}.

Lemma authenticate_binds_session_user_witness :
  let outcome :=
    authenticate session_driver Ok (Some "theme=dark; simple_app_cookie=q2-_dA==")
      fresh_world in
  Database.handed (db outcome.2)
  = [] ++ [(AuthModelSessions.authenticate_sql, [Database.ParamValue (JStr "q2-_dA==")])]
  ∧ AuthController.token (this outcome.2) = JStr "q2-_dA=="
  ∧ response outcome.2 = response fresh_world
  ∧ outcome.1 = Ok (JObj [("user_id", JNum 7)])
  ∧ userId (this outcome.2)
    = or_default (JNum 0) (default JUndefined (assoc "user_id" [("user_id", JNum 7)])).
Proof.
  apply (authenticate_binds_session_user session_driver Ok
           (Some "theme=dark; simple_app_cookie=q2-_dA==") fresh_world "q2-_dA=="
           [] [JObj [("user_id", JNum 7)]]).
  - reflexivity.
  - vm_compute. reflexivity.
  - discriminate.
  - vm_compute. reflexivity.
  - vm_compute. reflexivity.
  - reflexivity.
  - reflexivity.
Defined.

(** The header [clearCookie] writes for a cookie name. *)
Definition cleared_cookie (name : string) : string :=
  name +:+ "=; Expires=Thu, 01 Jan 1970 00:00:00 GMT; Path=/; HttpOnly".

(** X14. [deleteSession] binds the current token to the placeholder of the
    delete statement.  When the store call returns, whatever the number of
    rows it deleted, the cookie is replaced by an expired one, the user is
    reset to 0 and the token to null, so that [isAuthenticated] is false.
    When the store call throws, the error is passed on and neither the
    cookie nor the controller is touched. *)
Theorem deleteSession_clears_cookie_and_user :
  ∀ (driver : Database.Driver) (world : World),
    let stored := AuthModelSessions.deleteSession driver (token (this world)) (db world) in
    let outcome := deleteSession driver world in
    db outcome.2 = stored.2
    ∧ match stored.1 with
      | Ok _ =>
          outcome.1 = Ok ()
          ∧ Response.headers (response outcome.2) !! "Set-Cookie"
            = Some (cleared_cookie (cookieName (this world)))
          ∧ userId (this outcome.2) = JNum 0
          ∧ token (this outcome.2) = JNull
          ∧ isAuthenticated (this outcome.2) = false
      | Throw e =>
          outcome.1 = Throw e
          ∧ response outcome.2 = response world
          ∧ this outcome.2 = this world
      end.
Proof.
  intros driver world. cbv zeta.
  unfold deleteSession, Eff.bind, on_this, on_db, on_response, Eff.zoom, Eff.get,
    _setUserAndToken, Eff.modify.
  cbn [this db response].
  destruct (AuthModelSessions.deleteSession driver (token (this world)) (db world))
    as [[deleted | e] db'].
  - cbn [this db response fst snd userId token isAuthenticated negb andb].
    repeat split.
    unfold ResponseHelpers.clearCookie, Response.cookie, Response.setHeader,
      cleared_cookie.
    cbn [Response.headers Response.maxAge Response.expires Response.path
         Response.httpOnly Response.secure Response.sameSite Response.nonzero
         Response.nonempty default String.eqb Ascii.eqb Bool.eqb].
    rewrite lookup_insert_eq. f_equal.
    generalize (cookieName (this world)). intros name.
    induction name as [| c name IH]; [reflexivity |].
    rewrite !append_cons. f_equal. exact IH.
  - cbn [this db response fst snd]. by destruct (this world).
Qed.

End SessionsFurther.

(** ** The cookies of a request *)

Section Cookies.
Import RequestCookies.

(** A [Cookie] header as a browser writes it: [name=value] pairs separated
    by a semicolon and a space. *)
Definition pair_text (entry : string * string) : string := entry.1 +:+ "=" +:+ entry.2.

Definition cookie_header (pairs : list (string * string)) : string :=
  join "; " (map pair_text pairs).

(** A name without semicolon, equals sign or outer white space, and a
    value without semicolon or outer white space. *)
Definition plain (entry : string * string) : Prop :=
  contains_char ";" entry.1 = false ∧ contains_char "=" entry.1 = false
  ∧ trim entry.1 = entry.1
  ∧ contains_char ";" entry.2 = false ∧ trim entry.2 = entry.2.

Lemma contains_char_append c s t :
  contains_char c (s +:+ t) = contains_char c s || contains_char c t.
Proof.
  induction s as [| d r IH]; [reflexivity |].
  rewrite append_cons. cbn [contains_char]. by rewrite IH, orb_assoc.
Qed.

Lemma split_plain s : contains_char ";" s = false → split ";" s = [s].
Proof.
  induction s as [| c r IH]; [done |]. cbn [contains_char split].
  intros H. apply orb_false_elim in H as [-> Hr]. by rewrite IH.
Qed.

Lemma split_append a b :
  contains_char ";" a = false → split ";" (a +:+ String ";" b) = a :: split ";" b.
Proof.
  induction a as [| c r IH]; [done |]. cbn [contains_char].
  intros H. apply orb_false_elim in H as [Hc Hr].
  rewrite append_cons. cbn [split]. by rewrite Hc, IH.
Qed.

Lemma split_space t :
  split ";" (String " " t)
  = match split ";" t with
    | piece :: pieces => String " " piece :: pieces
    | [] => [String " " EmptyString]
    end.
Proof. reflexivity. Qed.

(** The pieces [split(';')] cuts the header into. *)
Definition pieces_of (pairs : list (string * string)) : list string :=
  match pairs with
  | [] => [EmptyString]
  | entry :: rest => pair_text entry :: map (fun p => String " " (pair_text p)) rest
  end.

Lemma pair_text_plain entry : plain entry → contains_char ";" (pair_text entry) = false.
Proof.
  intros (Hn & _ & _ & Hv & _). unfold pair_text.
  rewrite !contains_char_append, Hn, Hv. reflexivity.
Qed.

Lemma split_cookie_header pairs :
  Forall plain pairs → split ";" (cookie_header pairs) = pieces_of pairs.
Proof.
  unfold cookie_header.
  induction 1 as [| entry rest Hpair Hrest IH]; [reflexivity |].
  destruct rest as [| entry' rest'].
  - cbn [map join pieces_of]. by apply split_plain, pair_text_plain.
  - change (join "; " (map pair_text (entry :: entry' :: rest')))
      with (pair_text entry
            +:+ String ";" (String " " (join "; " (map pair_text (entry' :: rest'))))).
    rewrite (split_append _ _ (pair_text_plain _ Hpair)), split_space, IH.
    reflexivity.
Qed.

Lemma indexOf_name n v :
  contains_char "=" n = false → indexOf "=" (n +:+ "=" +:+ v) = Some (String.length n).
Proof.
  induction n as [| c r IH]; [done |]. cbn [contains_char].
  intros H. apply orb_false_elim in H as [Hc Hr].
  rewrite append_cons. cbn [indexOf String.length]. by rewrite Hc, IH.
Qed.

Lemma prefix_append n t : prefix (String.length n) (n +:+ t) = n.
Proof.
  induction n as [| c r IH]; [by destruct t |].
  rewrite append_cons. cbn [String.length prefix]. by rewrite IH.
Qed.

Lemma drop_name n v : Router.drop (S (String.length n)) (n +:+ "=" +:+ v) = v.
Proof.
  induction n as [| c r IH]; [reflexivity |]. rewrite append_cons. exact IH.
Qed.

Lemma pair_name_value entry :
  plain entry →
  (pair_name (pair_text entry) = entry.1 ∧ pair_value (pair_text entry) = entry.2)
  ∧ (pair_name (String " " (pair_text entry)) = entry.1
     ∧ pair_value (String " " (pair_text entry)) = entry.2).
Proof.
  destruct entry as [n v]. intros (_ & Hn & Htn & _ & Htv). cbn [fst snd] in *.
  assert (∀ t, indexOf "=" (String " " t) = S <$> indexOf "=" t) as Hspace
    by reflexivity.
  unfold pair_name, pair_value, pair_text. cbn [fst snd].
  rewrite Hspace, (indexOf_name n v Hn). cbn [fmap option_fmap option_map].
  assert (∀ k t, Router.drop (S k) (String " " t) = Router.drop k t) as Hdrop
    by reflexivity.
  assert (∀ k t, prefix (S k) (String " " t) = String " " (prefix k t)) as Hprefix
    by reflexivity.
  rewrite Hdrop, Hprefix, prefix_append, drop_name.
  repeat split; done.
Qed.

Section WithHost.
Variable decodeURIComponent : string -> result string.

Lemma collect_lookup pairs :
  Forall plain pairs →
  Forall (fun entry => decodeURIComponent entry.2 = Ok entry.2) pairs →
  NoDup pairs.*1 →
  ∀ pieces cookies,
    Forall2 (fun piece entry =>
               pair_name piece = entry.1 ∧ pair_value piece = entry.2) pieces pairs →
    ∃ cookies',
      collect decodeURIComponent pieces cookies = Ok cookies'
      ∧ (∀ entry, entry ∈ pairs → cookies' !! entry.1 = Some entry.2)
      ∧ (∀ name, name ∉ pairs.*1 → cookies' !! name = cookies !! name).
Proof.
  intros Hplain Hdecode Hdup pieces cookies Hpieces. revert cookies.
  induction Hpieces as [| piece entry pieces pairs [Hname Hvalue] _ IH];
    intros cookies.
  - exists cookies. split; [reflexivity |]. split; [| done].
    intros entry Hin. by apply elem_of_nil in Hin.
  - apply Forall_cons in Hplain as [_ Hplain].
    apply Forall_cons in Hdecode as [Hd Hdecode].
    cbn [fmap list_fmap] in Hdup. apply NoDup_cons in Hdup as [Hfresh Hdup].
    destruct (IH Hplain Hdecode Hdup (<[entry.1 := entry.2]> cookies))
      as (cookies' & Hcollect & Hin & Hout).
    exists cookies'. cbn [collect]. rewrite Hvalue, Hd, Hname.
    split; [exact Hcollect |]. split.
    + intros entry' Hpair'. apply elem_of_cons in Hpair' as [-> | Hpair'].
      * rewrite (Hout _ Hfresh). apply lookup_insert_eq.
      * by apply Hin.
    + intros name Hname'. cbn [fmap list_fmap] in Hname'.
      apply not_elem_of_cons in Hname' as [Hne Hname'].
      rewrite (Hout _ Hname'). by apply lookup_insert_ne.
Qed.

(** X15. A cookie is read back from the header a browser sends: for a
    header of distinct [name=value] pairs separated by semicolon and space,
    with plain names and values that [decodeURIComponent] leaves alone,
    [getCookie(name)] is the value of that name, and null when the value is
    empty (for a name that is no property of [Object.prototype]). *)
Theorem getCookie_reads_header_pairs :
  ∀ (pairs : list (string * string)) (name value : string),
    Forall plain pairs →
    Forall (fun entry => decodeURIComponent entry.2 = Ok entry.2) pairs →
    NoDup pairs.*1 →
    (name, value) ∈ pairs →
    name ∉ inherited →
    getCookie decodeURIComponent (Some (cookie_header pairs)) name
    = Ok (if String.eqb value EmptyString then JNull else JStr value).
Proof.
  intros pairs name value Hplain Hdecode Hdup Hin _.
  unfold getCookie, getCookies.
  assert (String.eqb (cookie_header pairs) EmptyString = false) as ->.
  { destruct pairs as [| [n v] rest]; [by apply elem_of_nil in Hin |].
    unfold cookie_header, pair_text. cbn [map fst snd].
    destruct n, rest; cbn [map join]; rewrite ?append_cons, ?append_nil; reflexivity. }
  rewrite (split_cookie_header _ Hplain).
  destruct (collect_lookup pairs Hplain Hdecode Hdup (pieces_of pairs) ∅)
    as (cookies & -> & Hfound & _).
  - destruct Hplain as [| entry rest Hpair Hrest]; [by apply elem_of_nil in Hin |].
    cbn [pieces_of]. constructor; [apply (pair_name_value entry Hpair) |].
    clear -Hrest. induction Hrest as [| entry' rest' Hpair' _ IH]; [constructor |].
    cbn [map]. constructor; [apply (pair_name_value entry' Hpair') | exact IH].
  - pose proof (Hfound (name, value) Hin) as Hvalue. cbn [fst snd] in Hvalue.
    by rewrite Hvalue.
Qed.

End WithHost.

Lemma getCookie_reads_header_pairs_witness :
  getCookie Ok
    (Some (cookie_header [("theme", "dark"); ("simple_app_cookie", "q2-_dA==")]))
    "simple_app_cookie"
  = Ok (if String.eqb "q2-_dA==" EmptyString then JNull else JStr "q2-_dA==").
Proof.
  apply (getCookie_reads_header_pairs Ok
           [("theme", "dark"); ("simple_app_cookie", "q2-_dA==")]
           "simple_app_cookie" "q2-_dA==").
  - repeat constructor.
  - repeat constructor.
  - cbn [fmap list_fmap fst]. apply NoDup_cons. split.
    + rewrite elem_of_cons, elem_of_nil. intros [H | []]. discriminate H.
    + apply NoDup_singleton.
  - rewrite !elem_of_cons. right. left. reflexivity.
  - unfold inherited. rewrite !elem_of_cons, elem_of_nil.
    intros H. decompose [or] H; discriminate || done.
Defined.

End Cookies.

(** ** The typed sanitizers *)

Section TypedSanitizers.
Import Regex InputSanitizerTypes.

Lemma html_entity_safe c d :
  d ∈ ["<"; ">"; dquote; "'"; "/"]%char → contains_char d (html_entity c) = false.
Proof.
  rewrite !elem_of_cons, elem_of_nil. unfold html_entity.
  intros H.
  destruct (char_eqb c "&") eqn:H1; [by decompose [or] H; subst |].
  destruct (char_eqb c "<") eqn:H2; [by decompose [or] H; subst |].
  destruct (char_eqb c ">") eqn:H3; [by decompose [or] H; subst |].
  destruct (char_eqb c dquote) eqn:H4; [by decompose [or] H; subst |].
  destruct (char_eqb c "'") eqn:H5; [by decompose [or] H; subst |].
  destruct (char_eqb c "/") eqn:H6; [by decompose [or] H; subst |].
  cbn [contains_char]. rewrite orb_false_r.
  decompose [or] H; subst; try done.
Qed.

(** X16. What [escapeHtml] returns has no angle bracket, no quote of
    either kind and no slash, whatever the value. *)
Theorem escapeHtml_leaves_no_markup :
  ∀ (value : JsValue) (d : ascii),
    d ∈ ["<"; ">"; dquote; "'"; "/"]%char →
    contains_char d (escapeHtml value) = false.
Proof.
  intros value d Hd. unfold escapeHtml.
  destruct (negb (truthy value)); [reflexivity |].
  induction (toString value) as [| c r IH]; [reflexivity |].
  cbn [escape_text]. by rewrite contains_char_append, IH, (html_entity_safe c d Hd).
Qed.

Lemma escapeHtml_leaves_no_markup_witness :
  contains_char "<" (escapeHtml (JStr "<script>alert('x')</script>")) = false.
Proof.
  apply (escapeHtml_leaves_no_markup (JStr "<script>alert('x')</script>") "<").
  rewrite !elem_of_cons. left. reflexivity.
Defined.

Lemma all_chars_filter p s : all_chars p (filter_chars p s) = true.
Proof.
  induction s as [| c r IH]; [reflexivity |]. cbn [filter_chars].
  destruct (p c) eqn:Hc; [| exact IH]. cbn [all_chars]. by rewrite Hc, IH.
Qed.

Lemma filter_chars_all p s : all_chars p s = true → filter_chars p s = s.
Proof.
  induction s as [| c r IH]; [done |]. cbn [all_chars filter_chars].
  intros H. apply andb_prop in H as [-> Hr]. by rewrite IH.
Qed.

Lemma email_char_plain c :
  email_char c = true → is_space c = false ∧ lower_char c = c.
Proof. destruct c as [[] [] [] [] [] [] [] []]; vm_compute; intuition congruence. Qed.

Lemma toLowerCase_email s : all_chars email_char s = true → toLowerCase s = s.
Proof.
  induction s as [| c r IH]; [done |]. cbn [all_chars toLowerCase].
  intros H. apply andb_prop in H as [Hc Hr].
  by rewrite (proj2 (email_char_plain c Hc)), IH.
Qed.

Lemma trimEnd_spaceless s :
  all_chars (fun c => negb (is_space c)) s = true → trimEnd s = s.
Proof.
  induction s as [| c r IH]; [done |]. cbn [all_chars trimEnd].
  intros H. apply andb_prop in H as [Hc Hr]. rewrite (IH Hr).
  destruct r; [| reflexivity]. apply negb_true_iff in Hc. by rewrite Hc.
Qed.

Lemma trim_spaceless s :
  all_chars (fun c => negb (is_space c)) s = true → trim s = s.
Proof.
  intros H. unfold trim.
  assert (trimStart s = s) as ->; [| by apply trimEnd_spaceless].
  destruct s as [| c r]; [done |]. cbn [all_chars] in H.
  apply andb_prop in H as [Hc _]. apply negb_true_iff in Hc.
  cbn [trimStart]. by rewrite Hc.
Qed.

(** X17. What [sanitizeEmail] returns is written in [[a-z0-9@._+-]], and
    sanitizing it again gives it back: the function is idempotent. *)
Theorem sanitizeEmail_is_canonical :
  ∀ (email : JsValue),
    all_chars email_char (sanitizeEmail email) = true
    ∧ sanitizeEmail (JStr (sanitizeEmail email)) = sanitizeEmail email.
Proof.
  intros email.
  assert (∀ s, all_chars email_char s = true →
               test_whole email_shape s = true → sanitizeEmail (JStr s) = s)
    as Hfixed.
  { intros s Hs Hshape. unfold sanitizeEmail. cbn [truthy toString].
    destruct (String.eqb s EmptyString) eqn:Hempty.
    - apply String.eqb_eq in Hempty. by subst s.
    - cbn [negb].
      rewrite (trim_spaceless s), (toLowerCase_email s Hs), (filter_chars_all _ _ Hs),
        Hshape; [reflexivity |].
      revert Hs. apply all_chars_impl. intros c Hc.
      by rewrite (proj1 (email_char_plain c Hc)). }
  unfold sanitizeEmail at 1 3 4.
  destruct (negb (truthy email)); [done |].
  destruct (test_whole email_shape _) eqn:Hshape; cbn [negb]; [| done].
  split; [apply all_chars_filter |].
  apply Hfixed; [apply all_chars_filter | exact Hshape].
Qed.

Lemma derives_star_class p prev s prev' s' :
  derives (Star (Class p)) prev s prev' s' →
  ∃ u, s = u +:+ s' ∧ all_chars p u = true.
Proof.
  intros H. remember (Star (Class p)) as r eqn:Hr.
  induction H as [| | | | | r0 prev s
                  | r0 prev s prev1 s1 prev2 s2 H1 _ H2 IH2 |];
    try discriminate Hr; injection Hr as ->.
  - by exists EmptyString.
  - destruct (IH2 eq_refl) as (u & -> & Hu).
    inversion H1; subst. exists (String c u). split; [reflexivity |].
    cbn [all_chars]. by apply andb_true_intro.
Qed.

Lemma derives_plus_class p prev s prev' s' :
  derives (Plus (Class p)) prev s prev' s' →
  ∃ u, s = u +:+ s' ∧ u ≠ EmptyString ∧ all_chars p u = true.
Proof.
  unfold Plus. intros H. inversion H as [| | r1 r2 p0 t0 prev1 s1 p2 t2 H1 H2 | | | | |];
    subst.
  inversion H1; subst.
  destruct (derives_star_class _ _ _ _ _ H2) as (u & -> & Hu).
  exists (String c u). split; [reflexivity |]. split; [done |].
  cbn [all_chars]. by apply andb_true_intro.
Qed.

Lemma email_part_no_at u :
  all_chars (fun c => negb (is_space c) && negb (char_eqb c "@")) u = true →
  contains_char "@" u = false.
Proof.
  induction u as [| c r IH]; [done |]. cbn [all_chars contains_char].
  intros H. apply andb_prop in H as [Hc Hr]. apply andb_prop in Hc as [_ Hc].
  apply negb_true_iff in Hc. by rewrite Hc, IH.
Qed.

(** X18. What [sanitizeEmail] returns is empty or has the shape
    [local@domain.tld]: three non-empty parts, none of which has an at
    sign, so that the address has exactly one. *)
Theorem sanitizeEmail_shape :
  ∀ (email : JsValue),
    sanitizeEmail email = EmptyString
    ∨ ∃ local domain tld,
        sanitizeEmail email = local +:+ "@" +:+ domain +:+ "." +:+ tld
        ∧ local ≠ EmptyString ∧ domain ≠ EmptyString ∧ tld ≠ EmptyString
        ∧ contains_char "@" local = false
        ∧ contains_char "@" domain = false
        ∧ contains_char "@" tld = false.
Proof.
  intros email. unfold sanitizeEmail.
  destruct (negb (truthy email)); [by left |].
  destruct (test_whole email_shape _) eqn:Hshape; cbn [negb]; [| by left].
  right. unfold test_whole in Hshape.
  apply matches_sound in Hshape as (prev' & s' & Hd & Hend).
  unfold at_end in Hend. apply String.eqb_eq in Hend. subst s'.
  unfold email_shape, email_part, Chr in Hd.
  inversion Hd as [| | r1 r2 p0 t0 prev1 s1 p2 t2 Hlocal Hd1 | | | | |]; subst.
  inversion Hd1 as [| | r1 r2 p0 t0 prev2 s2 p2 t2 Hat Hd2 | | | | |]; subst.
  inversion Hd2 as [| | r1 r2 p0 t0 prev3 s3 p2 t2 Hdomain Hd3 | | | | |]; subst.
  inversion Hd3 as [| | r1 r2 p0 t0 prev4 s4 p2 t2 Hdot Htld | | | | |]; subst.
  apply derives_plus_class in Hlocal as (local & Hs & Hlocal & Hlocal').
  apply derives_plus_class in Hdomain as (domain & -> & Hdomain & Hdomain').
  apply derives_plus_class in Htld as (tld & -> & Htld & Htld').
  inversion Hat as [| p c prev s Hc | | | | | |]; subst.
  inversion Hdot as [| p c' prev s Hc' | | | | | |]; subst.
  apply Ascii.eqb_eq in Hc, Hc'. subst c c'.
  exists local, domain, tld. rewrite Hs.
  assert (tld +:+ EmptyString = tld) as ->.
  { clear. induction tld as [| c r IH]; [done |]. by rewrite append_cons, IH. }
  repeat split; try done; by apply email_part_no_at.
Qed.

(** The requirements of a password, one by one. *)
Definition password_ok (s : string) : bool :=
  (8 <=? String.length s)%nat && (String.length s <=? 20)%nat
  && all_chars (fun c => negb (is_space c)) s
  && some_char is_digit s && some_char is_upper s && some_char is_lower s
  && some_char password_symbol s.

Definition dot_char (c : ascii) : bool := negb ((code c =? 10)%N || (code c =? 13)%N).

Lemma spaceless_dot c : negb (is_space c) = true → dot_char c = true.
Proof. destruct c as [[] [] [] [] [] [] [] []]; vm_compute; congruence. Qed.

Lemma matches_cat r1 r2 k prev s :
  matches (Cat r1 r2) k prev s = matches r1 (matches r2 k) prev s.
Proof. reflexivity. Qed.

(** [(?=.*[p])] on a text without white space. *)
Lemma ahead_some_char p s :
  all_chars (fun c => negb (is_space c)) s = true →
  ahead (Cat (Star dot) (Class p)) s = some_char p s.
Proof.
  unfold ahead, dot. fold dot_char.
  rewrite matches_cat, star_class_matches. generalize (@None ascii).
  induction s as [| c r IH]; intros prev Hs; [reflexivity |].
  cbn [all_chars] in Hs. apply andb_prop in Hs as [Hc Hr].
  cbn [star_class some_char matches]. rewrite (IH _ Hr), (spaceless_dot c Hc).
  by rewrite andb_true_r.
Qed.

Lemma up_to_length q m :
  ∀ prev s, all_chars q s = true →
    matches (up_to m (Class q)) at_end prev s = (String.length s <=? m)%nat.
Proof.
  induction m as [| m IH]; intros prev s Hs; cbn [up_to matches].
  - by destruct s.
  - destruct s as [| c r]; [reflexivity |].
    cbn [all_chars] in Hs. apply andb_prop in Hs as [Hc Hr].
    unfold at_end at 1. cbn [String.eqb orb String.length].
    by rewrite Hc, (IH _ _ Hr).
Qed.

Lemma exactly_up_to_length q n m :
  ∀ prev s, all_chars q s = true →
    matches (exactly n (Class q)) (matches (up_to m (Class q)) at_end) prev s
    = (n <=? String.length s)%nat && (String.length s <=? n + m)%nat.
Proof.
  induction n as [| n IH]; intros prev s Hs; cbn [exactly matches].
  - by rewrite (up_to_length q m prev s Hs).
  - destruct s as [| c r]; [reflexivity |].
    cbn [all_chars] in Hs. apply andb_prop in Hs as [Hc Hr].
    by rewrite Hc, (IH _ _ Hr).
Qed.

Lemma password_test_ok s : password_test s = password_ok s.
Proof.
  unfold password_test, password_ok.
  rewrite star_class_matches, star_class_at_end.
  destruct (all_chars (fun c => negb (is_space c)) s) eqn:Hs.
  - rewrite !(ahead_some_char _ s Hs).
    unfold test_whole, dot. fold dot_char.
    rewrite matches_cat, (exactly_up_to_length dot_char 8 12 None s).
    + cbn [Nat.add].
      destruct (8 <=? String.length s)%nat, (String.length s <=? 20)%nat,
        (some_char is_digit s), (some_char is_upper s), (some_char is_lower s),
        (some_char password_symbol s); reflexivity.
    + revert Hs. apply all_chars_impl. exact spaceless_dot.
  - rewrite !andb_false_r. by rewrite !andb_false_l.
Qed.

(** X19. [sanitizePassword] returns the trimmed text when it has 8 to 20
    code units, no white space, a digit, an upper-case letter, a
    lower-case letter and one of the symbols [!@#-_~$%^&*()], and the
    empty string in every other case. *)
Theorem sanitizePassword_accepts_exactly_valid :
  ∀ (password : JsValue),
    sanitizePassword password
    = if truthy password && password_ok (trim (toString password))
      then trim (toString password)
      else EmptyString.
Proof.
  intros password. unfold sanitizePassword. rewrite password_test_ok.
  destruct (truthy password); cbn [negb andb]; [| reflexivity].
  by destruct (password_ok _).
Qed.

(** X20. A value [parseInt] can read is returned as a number clamped to
    the bounds: with bounds [lo ≤ hi] the result lies between them, and it
    is the parsed integer itself when that already does. *)
Theorem sanitizeInteger_within_bounds :
  ∀ (value : JsValue) (options : IntegerOptions) (parsed lo hi : Z),
    parseInt value = Some parsed →
    int_min options = Some lo → int_max options = Some hi → lo ≤ hi →
    ∃ n, sanitizeInteger value options = JNum n
         ∧ lo ≤ n ≤ hi
         ∧ (lo ≤ parsed ≤ hi → n = parsed).
Proof.
  intros value options parsed lo hi Hparsed Hlo Hhi Hbounds.
  unfold sanitizeInteger. rewrite Hparsed, Hlo, Hhi.
  destruct (parsed <? lo) eqn:H1.
  - apply Z.ltb_lt in H1. destruct (hi <? lo) eqn:H2.
    + apply Z.ltb_lt in H2. lia.
    + exists lo. split; [done |]. lia.
  - apply Z.ltb_ge in H1. destruct (hi <? parsed) eqn:H2.
    + apply Z.ltb_lt in H2. exists hi. split; [done |]. lia.
    + apply Z.ltb_ge in H2. exists parsed. split; [done |]. lia.
Qed.

Lemma sanitizeInteger_within_bounds_witness :
  ∃ n, sanitizeInteger (JStr "  42px")
         {| int_min := Some 1; int_max := Some 10; int_default := JUndefined |}
       = JNum n
       ∧ 1 ≤ n ≤ 10
       ∧ (1 ≤ 42 ≤ 10 → n = 42).
Proof.
  apply (sanitizeInteger_within_bounds (JStr "  42px")
           {| int_min := Some 1; int_max := Some 10; int_default := JUndefined |}
           42 1 10).
  - vm_compute. reflexivity.
  - reflexivity.
  - reflexivity.
  - lia.
Defined.

Lemma pretty_digit x :
  (x < 10)%N →
  is_digit (pretty_N_char x) = true
  ∧ Z.of_N (code (pretty_N_char x)) - 48 = Z.of_N x.
Proof.
  intros Hx.
  assert (x = 0 ∨ x = 1 ∨ x = 2 ∨ x = 3 ∨ x = 4 ∨ x = 5 ∨ x = 6 ∨ x = 7
          ∨ x = 8 ∨ x = 9)%N as Hcases by lia.
  decompose [or] Hcases; subst x; vm_compute; done.
Qed.

(** Reading back the decimal digits of a positive number. *)
Lemma digits_pretty x :
  (0 < x)%N →
  ∀ rest,
    digits None (pretty_N_go x rest) = digits (Some (Z.of_N x)) rest
    ∧ ∃ d r, pretty_N_go x rest = String d r ∧ is_digit d = true.
Proof.
  induction (N.lt_wf_0 x) as [x _ IH]. intros Hx rest.
  rewrite pretty_N_go_step by done.
  pose proof (N.div_mod x 10 ltac:(done)) as Hdivmod.
  pose proof (N.mod_lt x 10 ltac:(done)) as Hmod.
  pose proof (N.div_lt x 10 Hx ltac:(done)) as Hless.
  specialize (IH (x `div` 10)%N Hless).
  set (a := (x `div` 10)%N) in *. set (b := (x `mod` 10)%N) in *. clearbody a b.
  destruct (pretty_digit b Hmod) as [Hdigit Hvalue].
  destruct (decide (a = 0)%N) as [-> | Hpos].
  - rewrite pretty_N_go_0. cbn [digits]. rewrite Hdigit, Hvalue.
    cbn [default]. split; [| eauto].
    f_equal. f_equal. lia.
  - destruct (IH ltac:(lia) (String (pretty_N_char b) rest)) as [Hread Hstart].
    split; [| exact Hstart].
    rewrite Hread. cbn [digits]. rewrite Hdigit, Hvalue. cbn [default].
    unfold id. f_equal. f_equal. lia.
Qed.

Lemma parseInt_text_digit d r :
  is_digit d = true → parseInt_text (String d r) = digits None (String d r).
Proof.
  destruct d as [[] [] [] [] [] [] [] []]; intros H; try discriminate H; reflexivity.
Qed.

Lemma parseInt_text_minus t : parseInt_text (String "-" t) = Z.opp <$> digits None t.
Proof. reflexivity. Qed.

(** [parseInt] reads back the decimal text of an integer. *)
Lemma parseInt_number n : parseInt (JNum n) = Some n.
Proof.
  unfold parseInt. cbn [toString]. destruct n as [| p | p].
  - reflexivity.
  - unfold pretty, pretty_Z, pretty, pretty_positive, pretty, pretty_N.
    destruct (decide (N.pos p = 0%N)) as [H | _]; [discriminate H |].
    destruct (digits_pretty (N.pos p) ltac:(done) EmptyString)
      as [Hread (d & r & Htext & Hd)].
    rewrite Htext, (parseInt_text_digit d r Hd), <- Htext, Hread. reflexivity.
  - unfold pretty, pretty_Z, pretty, pretty_positive, pretty, pretty_N.
    destruct (decide (N.pos p = 0%N)) as [H | _]; [discriminate H |].
    rewrite append_cons, append_nil, parseInt_text_minus.
    destruct (digits_pretty (N.pos p) ltac:(done) EmptyString) as [-> _].
    reflexivity.
Qed.

(** X21. An integer that meets the bounds is returned as it is: on the
    numbers below 10^21 in magnitude, which are written in decimal digits,
    [sanitizeInteger] changes nothing that is already in range. *)
Theorem sanitizeInteger_keeps_integers_in_range :
  ∀ (n : Z) (options : IntegerOptions),
    Z.abs n < 10 ^ 21 →
    (∀ lo, int_min options = Some lo → lo ≤ n) →
    (∀ hi, int_max options = Some hi → n ≤ hi) →
    sanitizeInteger (JNum n) options = JNum n.
Proof.
  intros n options _ Hlo Hhi. unfold sanitizeInteger. rewrite parseInt_number.
  destruct (int_min options) as [lo |], (int_max options) as [hi |].
  - specialize (Hlo lo eq_refl). specialize (Hhi hi eq_refl).
    rewrite (proj2 (Z.ltb_ge n lo) Hlo), (proj2 (Z.ltb_ge hi n) Hhi). reflexivity.
  - specialize (Hlo lo eq_refl). by rewrite (proj2 (Z.ltb_ge n lo) Hlo).
  - specialize (Hhi hi eq_refl). by rewrite (proj2 (Z.ltb_ge hi n) Hhi).
  - reflexivity.
Qed.

Lemma sanitizeInteger_keeps_integers_in_range_witness :
  sanitizeInteger (JNum (-12))
    {| int_min := Some (-20); int_max := None; int_default := JUndefined |}
  = JNum (-12).
Proof.
  apply (sanitizeInteger_keeps_integers_in_range (-12)
           {| int_min := Some (-20); int_max := None; int_default := JUndefined |}).
  - vm_compute. reflexivity.
  - intros lo [= <-]. lia.
  - intros hi H. discriminate H.
Defined.

End TypedSanitizers.

(** ** The models *)

Section ModelsFurther.
Import Database.

Lemma string_app_assoc (a b c : string) : (a +:+ b) +:+ c = a +:+ (b +:+ c).
Proof.
  induction a as [| x a IH]; [reflexivity |]. rewrite !append_cons. by rewrite IH.
Qed.

Lemma string_app_nonempty (a b : string) :
  b ≠ EmptyString → String.eqb (a +:+ b) EmptyString = false.
Proof.
  intros Hb. destruct a as [| x a]; [| reflexivity].
  rewrite append_nil. by apply String.eqb_neq.
Qed.

(** The fields [update] writes: those whose value is not null. *)
Definition given (field : string * JsValue) : bool :=
  match field.2 with JNull => false | _ => true end.

Definition assignment (field : string * JsValue) : string := field.1 +:+ " = ?".

Lemma assignment_nonempty field : assignment field ≠ EmptyString.
Proof. unfold assignment. destruct field.1; discriminate. Qed.

Lemma join_assignments_nonempty field fields :
  String.eqb (join ", " (map assignment (field :: fields))) EmptyString = false.
Proof.
  pose proof (assignment_nonempty field) as H.
  destruct fields as [| field' fields]; cbn [map join].
  - by apply String.eqb_neq.
  - destruct (assignment field); [done | reflexivity].
Qed.

Lemma gather_fields product :
  ∀ sql values,
    ProductsModelUpdate.gather product sql values
    = match List.filter given product with
      | [] => (sql, values)
      | fields =>
          ((if String.eqb sql EmptyString then EmptyString else sql +:+ ", ")
             +:+ join ", " (map assignment fields),
           values ++ map snd fields)
      end.
Proof.
  induction product as [| [key value] rest IH]; intros sql values; [reflexivity |].
  cbn [ProductsModelUpdate.gather List.filter].
  assert (ProductsModelUpdate.gather rest
            (sql +:+ (if String.eqb sql EmptyString then EmptyString else ", ")
                 +:+ key +:+ " = ?")
            (values ++ [value])
          = ((if String.eqb sql EmptyString then EmptyString else sql +:+ ", ")
               +:+ join ", " (map assignment ((key, value) :: List.filter given rest)),
             values ++ map snd ((key, value) :: List.filter given rest))) as Hstep.
  { rewrite IH.
    assert (sql +:+ (if String.eqb sql EmptyString then EmptyString else ", ")
                +:+ key +:+ " = ?"
            = (if String.eqb sql EmptyString then EmptyString else sql +:+ ", ")
                +:+ assignment (key, value)) as ->.
    { unfold assignment. cbn [fst]. destruct (String.eqb sql EmptyString) eqn:Hsql.
      - apply String.eqb_eq in Hsql. by subst sql.
      - by rewrite string_app_assoc. }
    destruct (List.filter given rest) as [| field fields].
    - reflexivity.
    - rewrite string_app_nonempty by apply assignment_nonempty.
      cbn [map join snd]. rewrite <- !app_assoc. cbn [app].
      by rewrite !string_app_assoc. }
  unfold given at 1. cbn [snd].
  destruct value; try exact Hstep. apply IH.
Qed.

(** X22. [update] writes the fields of the product that are not null, in
    the order of the object: the statement is
    [UPDATE products SET k1 = ?, ..., kn = ? WHERE id = ?], the keys taken
    as they are, and the bound values are those of the fields in the same
    order followed by the id.  With no such field there is no statement. *)
Theorem update_statement_lists_given_fields :
  ∀ (id : JsValue) (product : list (string * JsValue)),
    ProductsModelUpdate.update_statement id product
    = match List.filter given product with
      | [] => None
      | fields =>
          Some ("UPDATE products SET " +:+ join ", " (map assignment fields)
                  +:+ " WHERE id = ?",
                map ParamValue (map snd fields ++ [id]))
      end.
Proof.
  intros id product. unfold ProductsModelUpdate.update_statement.
  rewrite gather_fields.
  destruct (List.filter given product) as [| field fields]; [reflexivity |].
  cbn [String.eqb]. rewrite append_nil, join_assignments_nonempty. reflexivity.
Qed.

(** A query hands the store its own statement or nothing. *)
Lemma query_hands_own_statement driver sql params this :
  handed (query driver sql params this).2 = handed this
  ∨ handed (query driver sql params this).2 = handed this ++ [(sql, params)].
Proof.
  unfold query, Eff.bind, Eff.lift, connection_query, handed.
  destruct (connection this) as [sent |] eqn:Hc.
  - destruct (_sanitizeParams params); cbn [fst snd]; rewrite Hc; cbn [connection];
      auto.
  - unfold connect. destruct (_ || _); cbn [fst snd]; [rewrite Hc; auto |].
    destruct (createConnection driver) as [[] | err]; cbn [fst snd];
      [| rewrite Hc; auto].
    destruct (_sanitizeParams params); cbn [fst snd connection]; auto.
Qed.

(** X23. [update] with no field to write (an empty product, or one whose
    values are all null) returns false and leaves the database object
    alone; in every other case the store is handed at most the one
    statement of [update_statement]. *)
Theorem update_without_fields_is_no_write :
  ∀ (driver : Driver) (id : JsValue) (product : list (string * JsValue))
    (this : MySQLDatabase),
    match ProductsModelUpdate.update_statement id product with
    | None =>
        Forall (fun field => field.2 = JNull) product
        ∧ ProductsModelUpdate.update driver id product this = (Ok false, this)
    | Some statement =>
        Exists (fun field => field.2 ≠ JNull) product
        ∧ (handed (ProductsModelUpdate.update driver id product this).2 = handed this
           ∨ handed (ProductsModelUpdate.update driver id product this).2
             = handed this ++ [statement])
    end.
Proof.
  intros driver id product this.
  unfold ProductsModelUpdate.update, ProductsModelUpdate.update_statement.
  rewrite gather_fields.
  destruct (List.filter given product) as [| field fields] eqn:Hfields;
    [| cbn [String.eqb]; rewrite append_nil, join_assignments_nonempty].
  - split; [| reflexivity].
    apply Forall_forall. intros field Hin.
    destruct (given field) eqn:Hgiven.
    + assert (In field (List.filter given product)) as Hfield.
      { apply filter_In. split; [by apply list_elem_of_In | done]. }
      rewrite Hfields in Hfield. destruct Hfield.
    + unfold given in Hgiven. by destruct field.2.
  - split.
    + assert (In field (List.filter given product)) as Hfield
        by (rewrite Hfields; by left).
      apply filter_In in Hfield as [Hin Hgiven].
      apply Exists_exists. exists field. split; [by apply list_elem_of_In |].
      unfold given in Hgiven. by destruct field.2.
    + unfold execute, Eff.bind.
      match goal with
      | |- context [query driver ?sql ?params this] =>
          destruct (query_hands_own_statement driver sql params this) as [H | H];
          destruct (query driver sql params this) as [[result | e] this']
      end; cbn [fst snd Eff.ret] in *; auto.
Qed.

(** X24. [_getUserByField] puts the field name into the statement text only
    after the allow-list: for a name that is not [id], [email] or [name]
    it throws the 422 [ValidationException] and leaves the database object
    alone; for those three the store is handed at most the statement
    [SELECT * FROM users WHERE <field> = ? LIMIT 1] with the value bound. *)
Theorem getUserByField_only_allowed_fields :
  ∀ (driver : Driver) (field : string) (value : JsValue) (this : MySQLDatabase),
    let outcome := UserModel._getUserByField driver field value this in
    (field ∉ ["id"; "email"; "name"] →
     outcome = (Throw (ApiError ValidationException "Invalid field name" None 422),
                this))
    ∧ (field ∈ ["id"; "email"; "name"] →
       handed outcome.2 = handed this
       ∨ handed outcome.2
         = handed this ++ [("SELECT * FROM users WHERE " +:+ field +:+ " = ? LIMIT 1",
                            [ParamValue value])]).
Proof.
  intros driver field value this. cbv zeta. unfold UserModel._getUserByField.
  rewrite !elem_of_cons, elem_of_nil. unfold UserModel.allowedFields.
  cbn [existsb]. split.
  - intros Hnot.
    destruct (String.eqb field "id") eqn:H1;
      [apply String.eqb_eq in H1; tauto |].
    destruct (String.eqb field "email") eqn:H2;
      [apply String.eqb_eq in H2; tauto |].
    destruct (String.eqb field "name") eqn:H3;
      [apply String.eqb_eq in H3; tauto |].
    reflexivity.
  - intros Hin.
    assert (String.eqb field "id" || (String.eqb field "email"
            || (String.eqb field "name" || false)) = true) as ->.
    { destruct Hin as [-> | [-> | [-> | []]]]; reflexivity. }
    cbn [negb]. apply query_hands_own_statement.
Qed.

(** X25. [read] never returns more of a user than the id, the name and the
    e-mail address: whatever columns the row of the store has (the
    password hash among them), the result is the empty object or an
    object with exactly these three members, read from the first row. *)
Theorem user_read_projects_three_fields :
  ∀ (driver : Driver) (id user : JsValue) (this this' : MySQLDatabase),
    UserModel.read driver id this = (Ok user, this') →
    user = JObj []
    ∨ ∃ row rest,
        (UserModel._getUserByField driver "id" id this).1 = Ok (Rows (row :: rest))
        ∧ ∃ id_ name email,
            Request.get row "id" = Ok id_
            ∧ Request.get row "name" = Ok name
            ∧ Request.get row "email" = Ok email
            ∧ user = JObj [("id", id_); ("name", name); ("email", email)].
Proof.
  intros driver id user this this'. unfold UserModel.read, Eff.bind, Eff.lift.
  destruct (UserModel._getUserByField driver "id" id this) as [[result | e] db];
    [| discriminate].
  destruct result as [[| row rest] | a c i]; cbn [Eff.ret];
    try (intros [= <- _]; by left).
  destruct (Request.get row "id") as [id_ | e1] eqn:Hid; [| discriminate].
  destruct (Request.get row "name") as [name | e2] eqn:Hname; [| discriminate].
  destruct (Request.get row "email") as [email | e3] eqn:Hemail; [| discriminate].
  intros [= <- _]. right. exists row, rest. split; [reflexivity |].
  by exists id_, name, email.
Qed.

(** A store with one user. *)
Definition users_driver : Driver :=
  {| createConnection := Ok tt;
     run := fun _ _ =>
       Ok (Rows [JObj [("id", JNum 7); ("name", JStr "Ada");
                       ("email", JStr "ada@example.org");
                       ("password", JStr "$2b$10$hash")]]) |}.

Lemma user_read_projects_three_fields_witness :
  JObj [("id", JNum 7); ("name", JStr "Ada"); ("email", JStr "ada@example.org")]
  = JObj []
  ∨ ∃ row rest,
      (UserModel._getUserByField users_driver "id" (JNum 7) open_database).1
      = Ok (Rows (row :: rest))
      ∧ ∃ id_ name email,
          Request.get row "id" = Ok id_
          ∧ Request.get row "name" = Ok name
          ∧ Request.get row "email" = Ok email
          ∧ JObj [("id", JNum 7); ("name", JStr "Ada"); ("email", JStr "ada@example.org")]
            = JObj [("id", id_); ("name", name); ("email", email)].
Proof.
  apply (user_read_projects_three_fields users_driver (JNum 7)
           (JObj [("id", JNum 7); ("name", JStr "Ada");
                  ("email", JStr "ada@example.org")])
           open_database
           {| config := config open_database;
              connection := Some [("SELECT * FROM users WHERE id = ? LIMIT 1",
                                   [ParamValue (JNum 7)])] |}).
  vm_compute. reflexivity.
Defined.

End ModelsFurther.

(** ** The dispatcher and the router *)

Lemma routes_of_other_method method regs :
  (∀ verb, verb_name verb ≠ method) → routes_of method regs = [].
Proof.
  intros Hmethod. induction regs as [| reg regs IH]; [reflexivity |].
  cbn [routes_of].
  destruct (String.eqb (verb_name (reg_verb reg)) method) eqn:Hverb; [| exact IH].
  apply String.eqb_eq in Hverb. by destruct (Hmethod (reg_verb reg)).
Qed.

(** X26. A request whose method the router has no registration call for
    ([HEAD], [OPTIONS], [TRACE], [CONNECT]) is answered 404 "Route not
    found" with the path, whatever routes were registered and before any
    controller is loaded; so is the [OPTIONS] preflight the CORS headers
    announce. *)
Theorem unrouted_method_is_not_found :
  ∀ (NODE_ENV : option string) (load : string -> result (string -> option Server.Action))
    (regs : list Registration) (router : Router.Router)
    (request : Request.Request) (pathname : string) (response : Response.Response),
    Forall (fun reg => plain_route (reg_path reg)) regs →
    register_all Router.constructor regs = Ok router →
    Request.method request ∈ ["HEAD"; "OPTIONS"; "TRACE"; "CONNECT"] →
    Response.wire response = None →
    ∃ answered,
      Server.handleRequest NODE_ENV load router (Ok request) pathname response
      = (Ok tt, answered)
      ∧ Response.statusCode answered = 404
      ∧ Response.wire answered
        = Some (404,
                <["Content-Type" := "application/json"]> (Response.headers response)
                  ∪ Response.cors_headers,
                default EmptyString
                  (stringify (JObj [("error", JStr "Route not found");
                                    ("path", JStr pathname)]))).
Proof.
  intros NODE_ENV load regs router request pathname response _ Hregs Hmethod Hwire.
  destruct (registered_routes regs) as (this & Hthis & Hroutes).
  rewrite Hthis in Hregs. injection Hregs as ->.
  assert (Router.match_ router (Request.method request) pathname = None) as Hnone.
  { unfold Router.match_. rewrite Hroutes, routes_of_other_method; [reflexivity |].
    intros verb Hverb. rewrite <- Hverb in Hmethod.
    rewrite !elem_of_cons, elem_of_nil in Hmethod.
    destruct verb; cbn [verb_name] in Hmethod;
      decompose [or] Hmethod; discriminate || done. }
  unfold Server.handleRequest, Eff.try_catch, Server.try_block, Eff.bind, Eff.lift.
  rewrite Hnone. unfold Eff.modify, Response.json, Response.send, Response.setHeader,
    Response.status.
  cbn [Response.wire Response.headers Response.statusCode]. rewrite Hwire.
  eexists. split; [reflexivity |]. split; reflexivity.
Qed.

(** A router with the product list route. *)
Definition products_registrations : list Registration :=
  [{| reg_verb := GET; reg_path := "/api/v1/products";
      reg_controller := "ProductsController"; reg_action := "readAll" |}].

Definition products_router : Router.Router :=
  match register_all Router.constructor products_registrations with
  | Ok router => router
  | Throw _ => Router.constructor
  end.

Lemma unrouted_method_is_not_found_witness :
  ∃ answered,
    Server.handleRequest None (fun _ => Ok (fun _ => None)) products_router
      (Ok {| Request.method := "OPTIONS"; Request.query := ∅; Request.params := ∅;
             Request.body := Request.BodyValue (JObj []) |})
      "/api/v1/products" Response.constructor
    = (Ok tt, answered)
    ∧ Response.statusCode answered = 404
    ∧ Response.wire answered
      = Some (404,
              <["Content-Type" := "application/json"]>
                (Response.headers Response.constructor)
                ∪ Response.cors_headers,
              default EmptyString
                (stringify (JObj [("error", JStr "Route not found");
                                  ("path", JStr "/api/v1/products")]))).
Proof.
  apply (unrouted_method_is_not_found None (fun _ => Ok (fun _ => None))
           products_registrations products_router
           {| Request.method := "OPTIONS"; Request.query := ∅; Request.params := ∅;
              Request.body := Request.BodyValue (JObj []) |}
           "/api/v1/products" Response.constructor).
  - repeat constructor.
  - vm_compute. reflexivity.
  - rewrite !elem_of_cons. right. left. reflexivity.
  - reflexivity.
Defined.

(** ** A malformed cookie *)

Section MalformedCookie.
Import RequestCookies.
Variable decodeURIComponent : string -> result string.

Lemma collect_throws pieces :
  Exists (fun piece => ∃ e, decodeURIComponent (pair_value piece) = Throw e) pieces →
  ∀ cookies, ∃ e, collect decodeURIComponent pieces cookies = Throw e.
Proof.
  induction 1 as [piece rest [e He] | piece rest _ IH]; intros cookies;
    cbn [collect].
  - rewrite He. eauto.
  - destruct (decodeURIComponent (pair_value piece)) as [value | e]; [apply IH | eauto].
Qed.

(** X27. One cookie with a value [decodeURIComponent] rejects makes every
    cookie of the request unreadable: [getCookie] throws the [URIError]
    for every key, also for the well-formed cookies of the same header. *)
Theorem getCookie_throws_on_any_malformed_value :
  ∀ (header key : string),
    header ≠ EmptyString →
    Exists (fun piece => ∃ e, decodeURIComponent (pair_value piece) = Throw e)
      (split ";" header) →
    ∃ e, getCookie decodeURIComponent (Some header) key = Throw e.
Proof.
  intros header key Hheader Hbad. unfold getCookie, getCookies.
  rewrite (proj2 (String.eqb_neq _ _) Hheader).
  destruct (collect_throws _ Hbad ∅) as [e ->]. eauto.
Qed.

End MalformedCookie.

(** [decodeURIComponent] on texts whose only escape, if any, is a lone
    percent sign. *)
Definition decode_plain (s : string) : result string :=
  if contains_char "%" s then Throw (NativeError "URIError" "URI malformed") else Ok s.

Lemma getCookie_throws_on_any_malformed_value_witness :
  ∃ e, RequestCookies.getCookie decode_plain
         (Some "simple_app_cookie=q2-_dA==; discount=100%") "simple_app_cookie"
       = Throw e.
Proof.
  apply (getCookie_throws_on_any_malformed_value decode_plain
           "simple_app_cookie=q2-_dA==; discount=100%" "simple_app_cookie").
  - discriminate.
  - apply Exists_cons_tl, Exists_cons_hd. eexists. vm_compute. reflexivity.
Defined.

(** ** The outcome of [createSession] *)

Section CreateSession.
Import AuthController.



End CreateSession.
